(** * Chat-me: the chat page of the client, embedded in Rocq

    The program is a React page ([src/pages/Chat.tsx], in its later
    version with reactions, seen marks, editing and deletion) bound to a
    hosted relational database and its change feed.  The embedding keeps
    the two sides apart: the [Server] holds the tables, the stored files
    and the broadcasts sent over the channels, the [Client] holds the
    state variables of the page.  Every handler of the page is a function
    on a [World] (client and server) or on the [Client] alone, with the
    clock reading and the outcome of each remote call passed as
    arguments.  In a run of the page a handler runs to its end before the
    next event is looked at.  [markMessagesAsSeen] writes back, over
    several awaits, what its first query read; it is also given in its
    parts, and the accesses of several sessions to the server can be
    interleaved with them. *)

From stdpp Require Import base option list strings gmap pretty sorting.
From Stdlib Require Import ZArith Lia Ascii.

Open Scope Z_scope.

(** ** Strings *)

(** The text the page trims, cuts or tests for emptiness (the content of
    a message, the two inputs, the search term) is a sequence of UTF-16
    code units, as a JavaScript string is.  Keys, names and addresses,
    which the page only compares and joins, are kept as [string]s. *)
Definition Text := list Z.

(** The code units of a literal made of ASCII characters. *)
Definition literal (s : string) : Text :=
  (λ a, Z.of_nat (nat_of_ascii a)) <$> String.list_ascii_of_string s.

(** [String.prototype.startsWith]. *)
Definition startsWith (s p : string) : bool := String.prefix p s.

(** The code units [String.prototype.trim] strips: the white space and
    the line terminators of the language.  These are U+0009 to U+000D,
    U+0020, U+00A0, U+1680, U+2000 to U+200A, U+2028, U+2029, U+202F,
    U+205F, U+3000 and U+FEFF. *)
Definition is_space (u : Z) : bool :=
  ((0x0009 <=? u) && (u <=? 0x000D)) || (u =? 0x0020) || (u =? 0x00A0) ||
  (u =? 0x1680) || ((0x2000 <=? u) && (u <=? 0x200A)) || (u =? 0x2028) ||
  (u =? 0x2029) || (u =? 0x202F) || (u =? 0x205F) || (u =? 0x3000) ||
  (u =? 0xFEFF).

Fixpoint trimStart (s : Text) : Text :=
  match s with
  | [] => []
  | u :: s' => if is_space u then trimStart s' else s
  end.

Definition trimEnd (s : Text) : Text := reverse (trimStart (reverse s)).

Definition trim (s : Text) : Text := trimEnd (trimStart s).

(** [name.split('.').pop()]: the text after the last dot, the whole name
    when it has no dot. *)
Fixpoint split_pop_from (acc : string) (s : string) : string :=
  match s with
  | EmptyString => String.rev acc
  | String c s' =>
      if bool_decide (c = "."%char) then split_pop_from EmptyString s'
      else split_pop_from (String c acc) s'
  end.

Definition split_pop (s : string) : string := split_pop_from EmptyString s.

(** ** Arrays *)

(** [Array.prototype.findIndex]: the first index whose element passes the
    test, [-1] when there is none. *)
Fixpoint findIndex_from {A} (p : A → bool) (l : list A) (i : Z) : Z :=
  match l with
  | [] => -1
  | x :: l' => if p x then i else findIndex_from p l' (i + 1)
  end.

Definition findIndex {A} (p : A → bool) (l : list A) : Z := findIndex_from p l 0.

(** [Array.prototype.filter] with the two-argument callback (element and
    index). *)
Fixpoint filter_index_from {A} (keep : A → Z → bool) (l : list A) (i : Z) : list A :=
  match l with
  | [] => []
  | x :: l' =>
      if keep x i then x :: filter_index_from keep l' (i + 1)
      else filter_index_from keep l' (i + 1)
  end.

Definition filter_index {A} (keep : A → Z → bool) (l : list A) : list A :=
  filter_index_from keep l 0.

(** [Array.prototype.find], [some] and [includes]. *)
Definition find {A} (p : A → bool) (l : list A) : option A := List.find p l.
Definition some {A} (p : A → bool) (l : list A) : bool := existsb p l.
Definition includes (x : string) (l : list string) : bool :=
  existsb (λ y, bool_decide (y = x)) l.

(** ** Data model *)

(** Instants are milliseconds since the epoch ([Date.now()]); the ISO
    strings the page exchanges with the database order the same way. *)
Definition Timestamp := Z.

Inductive MessageType := text | image | call_info.

Record Reaction := mkReaction { emoji : string; user_id : string }.

Record SenderProfile := mkSenderProfile {
  sender_display_name : string;
  sender_avatar_url : option string
}.

(** [interface Message].  A column that may hold [null] is an [option]. *)
Record Message := mkMessage {
  id : string;
  content : option Text;
  image_url : option string;
  message_type : MessageType;
  created_at : Timestamp;
  sender_id : string;
  conversation_id : string;
  reactions : option (list Reaction);
  seen_by : option (list string);
  sender_profile : option SenderProfile
}.

#[global] Instance MessageType_eq_dec : EqDecision MessageType.
Proof. solve_decision. Defined.
#[global] Instance Reaction_eq_dec : EqDecision Reaction.
Proof. solve_decision. Defined.
#[global] Instance SenderProfile_eq_dec : EqDecision SenderProfile.
Proof. solve_decision. Defined.
#[global] Instance Message_eq_dec : EqDecision Message.
Proof. solve_decision. Defined.

(** The spread updates [{ ...m, field: v }] of the page. *)
Definition with_content (v : option Text) (m : Message) : Message :=
  {| id := id m; content := v; image_url := image_url m;
     message_type := message_type m; created_at := created_at m;
     sender_id := sender_id m; conversation_id := conversation_id m;
     reactions := reactions m; seen_by := seen_by m;
     sender_profile := sender_profile m |}.

Definition with_reactions (v : option (list Reaction)) (m : Message) : Message :=
  {| id := id m; content := content m; image_url := image_url m;
     message_type := message_type m; created_at := created_at m;
     sender_id := sender_id m; conversation_id := conversation_id m;
     reactions := v; seen_by := seen_by m;
     sender_profile := sender_profile m |}.

Definition with_seen_by (v : option (list string)) (m : Message) : Message :=
  {| id := id m; content := content m; image_url := image_url m;
     message_type := message_type m; created_at := created_at m;
     sender_id := sender_id m; conversation_id := conversation_id m;
     reactions := reactions m; seen_by := v;
     sender_profile := sender_profile m |}.

Definition with_sender_profile (v : option SenderProfile) (m : Message) : Message :=
  {| id := id m; content := content m; image_url := image_url m;
     message_type := message_type m; created_at := created_at m;
     sender_id := sender_id m; conversation_id := conversation_id m;
     reactions := reactions m; seen_by := seen_by m; sender_profile := v |}.

(** [interface Profile]; [last_seen] is absent until the first presence
    update. *)
Record Profile := mkProfile {
  profile_id : string;
  profile_user_id : string;
  username : string;
  display_name : string;
  avatar_url : option string;
  last_seen : option Timestamp
}.

Definition with_last_seen (v : option Timestamp) (p : Profile) : Profile :=
  {| profile_id := profile_id p; profile_user_id := profile_user_id p;
     username := username p; display_name := display_name p;
     avatar_url := avatar_url p; last_seen := v |}.

(** [interface Conversation]. *)
Record Conversation := mkConversation {
  conv_id : string;
  name : option string;
  is_group : bool;
  conv_created_at : Timestamp;
  participants : option (list Profile)
}.

(** [interface IncomingCall], the payload of an [incoming_call]
    broadcast. *)
Record IncomingCall := mkIncomingCall {
  roomUrl : string;
  caller : Profile;
  conversationId : string;
  callId : option string
}.

(** What [e.target.files[0]] exposes of the chosen file. *)
Record File := mkFile {
  file_name : string;
  file_type : string;
  file_size : Z
}.

(** The argument of a [toast] call. *)
Record Toast := mkToast {
  title : string;
  description : string;
  variant : string
}.

(** The arguments of a [sendNotification] call. *)
Record Notification := mkNotification {
  notification_title : string;
  notification_body : Text;
  notification_tag : string
}.

(** The broadcasts the page sends over the per-user [calls-<user id>]
    channels. *)
Inductive Payload :=
  | incoming_call (p : IncomingCall)
  | call_ended (callerId conversation : string).

Record Broadcast := mkBroadcast {
  channel : string;
  payload : Payload
}.

#[global] Instance Profile_eq_dec : EqDecision Profile.
Proof. solve_decision. Defined.
#[global] Instance IncomingCall_eq_dec : EqDecision IncomingCall.
Proof. solve_decision. Defined.
#[global] Instance Toast_eq_dec : EqDecision Toast.
Proof. solve_decision. Defined.
#[global] Instance Payload_eq_dec : EqDecision Payload.
Proof. solve_decision. Defined.
#[global] Instance Broadcast_eq_dec : EqDecision Broadcast.
Proof. solve_decision. Defined.

(** ** The two sides *)

(** The hosted side: the [messages] and [profiles] tables, the
    [chat-images] bucket, the broadcasts sent so far (oldest first), the
    default of the [reactions] column (declared outside the sources) and
    the address public URLs are built on. *)
Record Server := mkServer {
  messages_tbl : list Message;
  profiles_tbl : list Profile;
  chat_images : list (string * File);
  sent : list Broadcast;
  reactions_default : option (list Reaction);
  storage_url : string
}.

Definition set_messages_tbl (v : list Message) (s : Server) : Server :=
  {| messages_tbl := v; profiles_tbl := profiles_tbl s;
     chat_images := chat_images s; sent := sent s;
     reactions_default := reactions_default s; storage_url := storage_url s |}.

Definition set_profiles_tbl (v : list Profile) (s : Server) : Server :=
  {| messages_tbl := messages_tbl s; profiles_tbl := v;
     chat_images := chat_images s; sent := sent s;
     reactions_default := reactions_default s; storage_url := storage_url s |}.

Definition set_chat_images (v : list (string * File)) (s : Server) : Server :=
  {| messages_tbl := messages_tbl s; profiles_tbl := profiles_tbl s;
     chat_images := v; sent := sent s;
     reactions_default := reactions_default s; storage_url := storage_url s |}.

Definition set_sent (v : list Broadcast) (s : Server) : Server :=
  {| messages_tbl := messages_tbl s; profiles_tbl := profiles_tbl s;
     chat_images := chat_images s; sent := v;
     reactions_default := reactions_default s; storage_url := storage_url s |}.

(** The state variables of the [Chat] component.  [timers] holds the
    pending 30-second callbacks of [subscribeToCalls] with the instant
    each is due, oldest first; [toasts] and [notifications] record the
    calls of [toast] and [sendNotification], oldest first. *)
Record Client := mkClient {
  user : option string;
  userProfile : option Profile;
  conversations : list Conversation;
  selectedConversation : option string;
  messages : list Message;
  newMessage : Text;
  isLoading : bool;
  onlineUsers : gset string;
  showVideoCall : bool;
  videoCallUrl : string;
  incomingCall : option IncomingCall;
  editingMessage : option Message;
  editContent : Text;
  messageToDelete : option Message;
  fileInputValue : string;
  timers : list (Timestamp * IncomingCall);
  toasts : list Toast;
  notifications : list Notification
}.

Definition set_userProfile (v : option Profile) (c : Client) : Client :=
  {| user := user c; userProfile := v; conversations := conversations c;
     selectedConversation := selectedConversation c; messages := messages c;
     newMessage := newMessage c; isLoading := isLoading c;
     onlineUsers := onlineUsers c; showVideoCall := showVideoCall c;
     videoCallUrl := videoCallUrl c; incomingCall := incomingCall c;
     editingMessage := editingMessage c; editContent := editContent c;
     messageToDelete := messageToDelete c;
     fileInputValue := fileInputValue c; timers := timers c;
     toasts := toasts c; notifications := notifications c |}.

Definition set_conversations (v : list Conversation) (c : Client) : Client :=
  {| user := user c; userProfile := userProfile c; conversations := v;
     selectedConversation := selectedConversation c; messages := messages c;
     newMessage := newMessage c; isLoading := isLoading c;
     onlineUsers := onlineUsers c; showVideoCall := showVideoCall c;
     videoCallUrl := videoCallUrl c; incomingCall := incomingCall c;
     editingMessage := editingMessage c; editContent := editContent c;
     messageToDelete := messageToDelete c;
     fileInputValue := fileInputValue c; timers := timers c;
     toasts := toasts c; notifications := notifications c |}.

Definition set_selectedConversation (v : option string) (c : Client) : Client :=
  {| user := user c; userProfile := userProfile c;
     conversations := conversations c; selectedConversation := v;
     messages := messages c; newMessage := newMessage c;
     isLoading := isLoading c; onlineUsers := onlineUsers c;
     showVideoCall := showVideoCall c; videoCallUrl := videoCallUrl c;
     incomingCall := incomingCall c; editingMessage := editingMessage c;
     editContent := editContent c; messageToDelete := messageToDelete c;
     fileInputValue := fileInputValue c; timers := timers c;
     toasts := toasts c; notifications := notifications c |}.

Definition set_messages (v : list Message) (c : Client) : Client :=
  {| user := user c; userProfile := userProfile c;
     conversations := conversations c;
     selectedConversation := selectedConversation c; messages := v;
     newMessage := newMessage c; isLoading := isLoading c;
     onlineUsers := onlineUsers c; showVideoCall := showVideoCall c;
     videoCallUrl := videoCallUrl c; incomingCall := incomingCall c;
     editingMessage := editingMessage c; editContent := editContent c;
     messageToDelete := messageToDelete c;
     fileInputValue := fileInputValue c; timers := timers c;
     toasts := toasts c; notifications := notifications c |}.

Definition set_newMessage (v : Text) (c : Client) : Client :=
  {| user := user c; userProfile := userProfile c;
     conversations := conversations c;
     selectedConversation := selectedConversation c; messages := messages c;
     newMessage := v; isLoading := isLoading c; onlineUsers := onlineUsers c;
     showVideoCall := showVideoCall c; videoCallUrl := videoCallUrl c;
     incomingCall := incomingCall c; editingMessage := editingMessage c;
     editContent := editContent c; messageToDelete := messageToDelete c;
     fileInputValue := fileInputValue c; timers := timers c;
     toasts := toasts c; notifications := notifications c |}.

Definition set_isLoading (v : bool) (c : Client) : Client :=
  {| user := user c; userProfile := userProfile c;
     conversations := conversations c;
     selectedConversation := selectedConversation c; messages := messages c;
     newMessage := newMessage c; isLoading := v;
     onlineUsers := onlineUsers c; showVideoCall := showVideoCall c;
     videoCallUrl := videoCallUrl c; incomingCall := incomingCall c;
     editingMessage := editingMessage c; editContent := editContent c;
     messageToDelete := messageToDelete c;
     fileInputValue := fileInputValue c; timers := timers c;
     toasts := toasts c; notifications := notifications c |}.

Definition set_onlineUsers (v : gset string) (c : Client) : Client :=
  {| user := user c; userProfile := userProfile c;
     conversations := conversations c;
     selectedConversation := selectedConversation c; messages := messages c;
     newMessage := newMessage c; isLoading := isLoading c; onlineUsers := v;
     showVideoCall := showVideoCall c; videoCallUrl := videoCallUrl c;
     incomingCall := incomingCall c; editingMessage := editingMessage c;
     editContent := editContent c; messageToDelete := messageToDelete c;
     fileInputValue := fileInputValue c; timers := timers c;
     toasts := toasts c; notifications := notifications c |}.

Definition set_showVideoCall (v : bool) (c : Client) : Client :=
  {| user := user c; userProfile := userProfile c;
     conversations := conversations c;
     selectedConversation := selectedConversation c; messages := messages c;
     newMessage := newMessage c; isLoading := isLoading c;
     onlineUsers := onlineUsers c; showVideoCall := v;
     videoCallUrl := videoCallUrl c; incomingCall := incomingCall c;
     editingMessage := editingMessage c; editContent := editContent c;
     messageToDelete := messageToDelete c;
     fileInputValue := fileInputValue c; timers := timers c;
     toasts := toasts c; notifications := notifications c |}.

Definition set_videoCallUrl (v : string) (c : Client) : Client :=
  {| user := user c; userProfile := userProfile c;
     conversations := conversations c;
     selectedConversation := selectedConversation c; messages := messages c;
     newMessage := newMessage c; isLoading := isLoading c;
     onlineUsers := onlineUsers c; showVideoCall := showVideoCall c;
     videoCallUrl := v; incomingCall := incomingCall c;
     editingMessage := editingMessage c; editContent := editContent c;
     messageToDelete := messageToDelete c;
     fileInputValue := fileInputValue c; timers := timers c;
     toasts := toasts c; notifications := notifications c |}.

Definition set_incomingCall (v : option IncomingCall) (c : Client) : Client :=
  {| user := user c; userProfile := userProfile c;
     conversations := conversations c;
     selectedConversation := selectedConversation c; messages := messages c;
     newMessage := newMessage c; isLoading := isLoading c;
     onlineUsers := onlineUsers c; showVideoCall := showVideoCall c;
     videoCallUrl := videoCallUrl c; incomingCall := v;
     editingMessage := editingMessage c; editContent := editContent c;
     messageToDelete := messageToDelete c;
     fileInputValue := fileInputValue c; timers := timers c;
     toasts := toasts c; notifications := notifications c |}.

Definition set_editingMessage (v : option Message) (c : Client) : Client :=
  {| user := user c; userProfile := userProfile c;
     conversations := conversations c;
     selectedConversation := selectedConversation c; messages := messages c;
     newMessage := newMessage c; isLoading := isLoading c;
     onlineUsers := onlineUsers c; showVideoCall := showVideoCall c;
     videoCallUrl := videoCallUrl c; incomingCall := incomingCall c;
     editingMessage := v; editContent := editContent c;
     messageToDelete := messageToDelete c;
     fileInputValue := fileInputValue c; timers := timers c;
     toasts := toasts c; notifications := notifications c |}.

Definition set_editContent (v : Text) (c : Client) : Client :=
  {| user := user c; userProfile := userProfile c;
     conversations := conversations c;
     selectedConversation := selectedConversation c; messages := messages c;
     newMessage := newMessage c; isLoading := isLoading c;
     onlineUsers := onlineUsers c; showVideoCall := showVideoCall c;
     videoCallUrl := videoCallUrl c; incomingCall := incomingCall c;
     editingMessage := editingMessage c; editContent := v;
     messageToDelete := messageToDelete c;
     fileInputValue := fileInputValue c; timers := timers c;
     toasts := toasts c; notifications := notifications c |}.

Definition set_messageToDelete (v : option Message) (c : Client) : Client :=
  {| user := user c; userProfile := userProfile c;
     conversations := conversations c;
     selectedConversation := selectedConversation c; messages := messages c;
     newMessage := newMessage c; isLoading := isLoading c;
     onlineUsers := onlineUsers c; showVideoCall := showVideoCall c;
     videoCallUrl := videoCallUrl c; incomingCall := incomingCall c;
     editingMessage := editingMessage c; editContent := editContent c;
     messageToDelete := v; fileInputValue := fileInputValue c;
     timers := timers c; toasts := toasts c;
     notifications := notifications c |}.

Definition set_fileInputValue (v : string) (c : Client) : Client :=
  {| user := user c; userProfile := userProfile c;
     conversations := conversations c;
     selectedConversation := selectedConversation c; messages := messages c;
     newMessage := newMessage c; isLoading := isLoading c;
     onlineUsers := onlineUsers c; showVideoCall := showVideoCall c;
     videoCallUrl := videoCallUrl c; incomingCall := incomingCall c;
     editingMessage := editingMessage c; editContent := editContent c;
     messageToDelete := messageToDelete c; fileInputValue := v;
     timers := timers c; toasts := toasts c;
     notifications := notifications c |}.

Definition set_timers (v : list (Timestamp * IncomingCall)) (c : Client) : Client :=
  {| user := user c; userProfile := userProfile c;
     conversations := conversations c;
     selectedConversation := selectedConversation c; messages := messages c;
     newMessage := newMessage c; isLoading := isLoading c;
     onlineUsers := onlineUsers c; showVideoCall := showVideoCall c;
     videoCallUrl := videoCallUrl c; incomingCall := incomingCall c;
     editingMessage := editingMessage c; editContent := editContent c;
     messageToDelete := messageToDelete c;
     fileInputValue := fileInputValue c; timers := v; toasts := toasts c;
     notifications := notifications c |}.

Definition set_toasts (v : list Toast) (c : Client) : Client :=
  {| user := user c; userProfile := userProfile c;
     conversations := conversations c;
     selectedConversation := selectedConversation c; messages := messages c;
     newMessage := newMessage c; isLoading := isLoading c;
     onlineUsers := onlineUsers c; showVideoCall := showVideoCall c;
     videoCallUrl := videoCallUrl c; incomingCall := incomingCall c;
     editingMessage := editingMessage c; editContent := editContent c;
     messageToDelete := messageToDelete c;
     fileInputValue := fileInputValue c; timers := timers c; toasts := v;
     notifications := notifications c |}.

Definition set_notifications (v : list Notification) (c : Client) : Client :=
  {| user := user c; userProfile := userProfile c;
     conversations := conversations c;
     selectedConversation := selectedConversation c; messages := messages c;
     newMessage := newMessage c; isLoading := isLoading c;
     onlineUsers := onlineUsers c; showVideoCall := showVideoCall c;
     videoCallUrl := videoCallUrl c; incomingCall := incomingCall c;
     editingMessage := editingMessage c; editContent := editContent c;
     messageToDelete := messageToDelete c;
     fileInputValue := fileInputValue c; timers := timers c;
     toasts := toasts c; notifications := v |}.

Definition World : Type := Client * Server.

(** ** The tables *)

(** [.update(patch).eq('id', mid)] on [messages]. *)
Definition update_eq_id (patch : Message → Message) (mid : string)
    (tbl : list Message) : list Message :=
  (λ m, if bool_decide (id m = mid) then patch m else m) <$> tbl.

(** [.delete().eq('id', mid)] on [messages]. *)
Definition delete_eq_id (mid : string) (tbl : list Message) : list Message :=
  filter (λ m, id m ≠ mid) tbl.

(** The row [.insert] stores: the database supplies the key and the
    creation time, and the defaults of the two array columns ([seen_by]
    defaults to the empty array). *)
Definition new_row (s : Server) (new_id : string) (now : Timestamp)
    (conv sender : string) (body : option Text) (url : option string)
    (ty : MessageType) : Message :=
  {| id := new_id; content := body; image_url := url; message_type := ty;
     created_at := now; sender_id := sender; conversation_id := conv;
     reactions := reactions_default s; seen_by := Some [];
     sender_profile := None |}.

(** [.insert(row)] on [messages]: [id] is the primary key, a row whose
    key is taken is refused. *)
Definition insert_message (row : Message) (tbl : list Message) : option (list Message) :=
  if bool_decide (id row ∈ id <$> tbl) then None else Some (tbl ++ [row]).

(** [.order('created_at', { ascending: true })]. *)
Definition created_le (a b : Message) : Prop := created_at a ≤ created_at b.

#[global] Instance created_le_dec : RelDecision created_le.
Proof. intros a b. unfold created_le. apply _. Defined.

Definition order_created_at (l : list Message) : list Message :=
  merge_sort created_le l.

(** [.maybeSingle()]: the row when exactly one matches. *)
Definition maybeSingle {A} (l : list A) : option A :=
  match l with
  | [x] => Some x
  | _ => None
  end.

(** [.gte('last_seen', t)]: a [null] column never matches. *)
Definition gte (v : option Timestamp) (t : Timestamp) : bool :=
  match v with
  | Some x => t <=? x
  | None => false
  end.

Definition as_sender_profile (p : Profile) : SenderProfile :=
  {| sender_display_name := display_name p; sender_avatar_url := avatar_url p |}.

(** ** Profile and conversations

    [data] is what the query returned, [None] when it failed. *)
Definition fetchUserProfile (data : option Profile) (c : Client) : Client :=
  match user c, data with
  | Some _, Some p => set_userProfile (Some p) c
  | _, _ => c
  end.

Definition fetchConversations (data : option (list Conversation)) (c : Client) : Client :=
  match data with
  | Some conversationsWithParticipants =>
      let c1 := set_conversations conversationsWithParticipants c in
      match conversationsWithParticipants, selectedConversation c with
      | first :: _, None => set_selectedConversation (Some (conv_id first)) c1
      | _, _ => c1
      end
  | None => c
  end.

(** ** Presence *)

Definition updateUserPresence (now : Timestamp) (w : World) : World :=
  let '(c, s) := w in
  match user c with
  | None => w
  | Some uid =>
      (c, set_profiles_tbl
            ((λ p, if bool_decide (profile_user_id p = uid)
                   then with_last_seen (Some now) p else p) <$> profiles_tbl s) s)
  end.

(** [ok] tells whether the query answered; without an answer [data] is
    [null] and the set is emptied. *)
Definition fetchOnlineUsers (now : Timestamp) (ok : bool) (w : World) : World :=
  let '(c, s) := w in
  let fiveMinutesAgo := now - 5 * 60 * 1000 in
  let data :=
    if ok then Some (profile_user_id <$>
                     filter (λ p, gte (last_seen p) fiveMinutesAgo) (profiles_tbl s))
    else None in
  (set_onlineUsers (list_to_set (default [] data)) c, s).

Definition isUserOnline (c : Client) (userId : string) : bool :=
  bool_decide (userId ∈ onlineUsers c).

(** ** The message list *)

Definition fetchMessages (error : bool) (w : World) : World :=
  let '(c, s) := w in
  match selectedConversation c with
  | None => w
  | Some conv =>
      if error then w
      else
        let messagesData :=
          order_created_at (filter (λ m, conversation_id m = conv) (messages_tbl s)) in
        let senderIds := remove_dups (sender_id <$> messagesData) in
        let profilesData :=
          filter (λ p, profile_user_id p ∈ senderIds) (profiles_tbl s) in
        let messagesWithProfiles :=
          (λ message,
             with_sender_profile
               (as_sender_profile <$>
                  find (λ p, bool_decide (profile_user_id p = sender_id message))
                       profilesData)
               (with_seen_by (Some (default [] (seen_by message)))
                  (with_reactions (Some (default [] (reactions message))) message)))
            <$> messagesData in
        (set_messages messagesWithProfiles c, s)
  end.

(** The three handlers of [subscribeToMessages], each applied to the row
    the change feed delivers. *)
Definition onInsert (newMessagePayload : Message) (w : World) : World :=
  let '(c, s) := w in
  let profileData :=
    maybeSingle (filter (λ p, profile_user_id p = sender_id newMessagePayload)
                        (profiles_tbl s)) in
  let messageWithProfile :=
    with_sender_profile (as_sender_profile <$> profileData)
      (with_seen_by (Some (default [] (seen_by newMessagePayload)))
         (with_reactions (Some (default [] (reactions newMessagePayload)))
            newMessagePayload)) in
  let prevMessages := messages c in
  let exists_ :=
    some (λ msg, bool_decide (id msg = id messageWithProfile)) prevMessages in
  let c1 :=
    set_messages (if exists_ then prevMessages
                  else prevMessages ++ [messageWithProfile]) c in
  match profileData with
  | Some pd =>
      if bool_decide (Some (sender_id newMessagePayload) ≠ user c) then
        let body :=
          match content newMessagePayload with
          | Some (u :: rest) => u :: rest
          | _ => literal "Sent an image"
          end in
        (set_notifications
           (notifications c1 ++
              [mkNotification ("New message from " +:+ display_name pd) body
                              ("message-" +:+ id newMessagePayload)]) c1, s)
      else (c1, s)
  | None => (c1, s)
  end.

Definition onUpdate (updatedMessage : Message) (c : Client) : Client :=
  set_messages
    ((λ msg,
        if bool_decide (id msg = id updatedMessage) then
          with_seen_by (Some (default [] (seen_by updatedMessage)))
            (with_reactions (Some (default [] (reactions updatedMessage)))
               (with_content (content updatedMessage) msg))
        else msg) <$> messages c) c.

Definition onDelete (deletedMessage : Message) (c : Client) : Client :=
  set_messages (filter (λ msg, id msg ≠ id deletedMessage) (messages c)) c.

(** ** Seen marks *)

(** What the first query of [markMessagesAsSeen] returns: [id] and
    [seen_by] of the messages of the conversation the user did not
    send. *)
Definition select_unread (conv uid : string) (tbl : list Message)
    : list (string * option (list string)) :=
  (λ m, (id m, seen_by m)) <$>
    filter (λ m, conversation_id m = conv ∧ sender_id m ≠ uid) tbl.

(** One pass of the loop, for a row [msg] the first query read, on the
    table as it is when the update arrives: what is written back is the
    [seen_by] that was read, with the user appended.  The outcome of the
    update is not looked at by the page; [refused] says that it was
    refused. *)
Definition mark_seen_pass (uid : string) (refused : bool)
    (msg : string * option (list string)) (tbl : list Message) : list Message :=
  let currentSeenBy := default [] msg.2 in
  if includes uid currentSeenBy then tbl
  else if refused then tbl
  else update_eq_id (with_seen_by (Some (currentSeenBy ++ [uid]))) msg.1 tbl.

(** The passes over all the rows read, one after the other with nothing
    else written in between; [refused mid] says that the update of row
    [mid] was refused. *)
Definition mark_seen_loop (uid : string) (refused : string → bool)
    (unreadMessages : list (string * option (list string)))
    (tbl : list Message) : list Message :=
  foldl (λ tbl msg, mark_seen_pass uid (refused msg.1) msg tbl) tbl unreadMessages.

(** [markMessagesAsSeen] awaits its first query and then each of its
    updates.  A [Marking] is a call between two awaits: its user and the
    rows read that the loop has not reached yet. *)
Record Marking := mkMarking {
  marking_user : string;
  marking_rows : list (string * option (list string))
}.

(** The call up to the answer of the first query; [answered] tells
    whether the query returned rows.  [None]: the call is over. *)
Definition markMessagesAsSeen_read (answered : bool) (w : World) : option Marking :=
  let '(c, s) := w in
  match selectedConversation c, user c with
  | Some conv, Some uid =>
      if answered then
        Some {| marking_user := uid;
                marking_rows := select_unread conv uid (messages_tbl s) |}
      else None
  | _, _ => None
  end.

(** The call resumed for one pass of its loop, on the server as it is
    then. *)
Definition markMessagesAsSeen_pass (refused : bool) (call : Marking) (s : Server)
    : Marking * Server :=
  match marking_rows call with
  | [] => (call, s)
  | msg :: rest =>
      ({| marking_user := marking_user call; marking_rows := rest |},
       set_messages_tbl (mark_seen_pass (marking_user call) refused msg (messages_tbl s)) s)
  end.

(** A whole call during which nothing else is written to the table. *)
Definition markMessagesAsSeen (answered : bool) (refused : string → bool)
    (w : World) : World :=
  match markMessagesAsSeen_read answered w with
  | Some call =>
      (w.1, set_messages_tbl
              (mark_seen_loop (marking_user call) refused (marking_rows call)
                 (messages_tbl w.2)) w.2)
  | None => w
  end.

(** ** Reactions *)

(** [newReactions] of [addReaction], from the user, the emoji and the
    reactions of the message in the list of the page. *)
Definition newReactions (uid emoji_ : string) (currentReactions : list Reaction)
    : list Reaction :=
  let existingReactionIndex :=
    findIndex (λ r, bool_decide (user_id r = uid) && bool_decide (emoji r = emoji_))
              currentReactions in
  if -1 <? existingReactionIndex then
    filter_index (λ _ i, negb (i =? existingReactionIndex)) currentReactions
  else currentReactions ++ [ {| emoji := emoji_; user_id := uid |} ].

Definition addReaction (messageId emoji_ : string) (error : bool) (w : World) : World :=
  let '(c, s) := w in
  match user c with
  | None => w
  | Some uid =>
      match find (λ m, bool_decide (id m = messageId)) (messages c) with
      | None => w
      | Some message =>
          let currentReactions := default [] (reactions message) in
          let new_ := newReactions uid emoji_ currentReactions in
          if error then w
          else
            (set_messages
               ((λ m, if bool_decide (id m = messageId)
                      then with_reactions (Some new_) m else m) <$> messages c) c,
             set_messages_tbl
               (update_eq_id (with_reactions (Some new_)) messageId (messages_tbl s)) s)
      end
  end.

(** ** Editing and deleting *)

Definition startEditMessage (message : Message) (c : Client) : Client :=
  set_editContent (default [] (content message)) (set_editingMessage (Some message) c).

Definition cancelEdit (c : Client) : Client :=
  set_editContent [] (set_editingMessage None c).

Definition saveEditMessage (error : bool) (w : World) : World :=
  let '(c, s) := w in
  match editingMessage c with
  | None => w
  | Some editing =>
      if bool_decide (trim (editContent c) = []) then w
      else if error then w
      else
        (cancelEdit
           (set_messages
              ((λ msg, if bool_decide (id msg = id editing)
                       then with_content (Some (trim (editContent c))) msg
                       else msg) <$> messages c) c),
         set_messages_tbl
           (update_eq_id (with_content (Some (trim (editContent c)))) (id editing)
              (messages_tbl s)) s)
  end.

Definition confirmDeleteMessage (error : bool) (w : World) : World :=
  let '(c, s) := w in
  match messageToDelete c with
  | None => w
  | Some doomed =>
      if error then w
      else
        (set_messageToDelete None
           (set_messages (filter (λ msg, id msg ≠ id doomed) (messages c)) c),
         set_messages_tbl (delete_eq_id (id doomed) (messages_tbl s)) s)
  end.

(** ** Sending *)

(** The typing signal [sendMessage] stops is not part of the embedding. *)
Definition sendMessage (now : Timestamp) (new_id : string) (error : bool)
    (w : World) : World :=
  let '(c, s) := w in
  match selectedConversation c, user c with
  | Some conv, Some uid =>
      if bool_decide (trim (newMessage c) = []) then w
      else
        let '(c1, s1) := updateUserPresence now (set_isLoading true c, s) in
        let row := new_row s1 new_id now conv uid (Some (newMessage c)) None text in
        match (if error then None else insert_message row (messages_tbl s1)) with
        | Some tbl => (set_isLoading false (set_newMessage [] c1), set_messages_tbl tbl s1)
        | None => (set_isLoading false c1, s1)
        end
  | _, _ => w
  end.

Definition getPublicUrl (s : Server) (fileName : string) : string :=
  storage_url s +:+ fileName.

(** [file] is [e.target.files?.[0]]; [uploadError] and [messageError]
    are the outcomes of the upload and of the insert. *)
Definition uploadImage (file : option File) (now : Timestamp) (new_id : string)
    (uploadError messageError : bool) (w : World) : World :=
  let '(c, s) := w in
  match file, selectedConversation c, user c with
  | Some file, Some conv, Some uid =>
      if negb (startsWith (file_type file) "image/") then w
      else if 10 * 1024 * 1024 <? file_size file then w
      else
        let '(c1, s1) := updateUserPresence now (set_isLoading true c, s) in
        let fileExt := split_pop (file_name file) in
        let fileName := uid +:+ "/" +:+ pretty now +:+ "." +:+ fileExt in
        let finally := λ c, set_fileInputValue "" (set_isLoading false c) in
        if uploadError then (finally c1, s1)
        else
          let s2 := set_chat_images (chat_images s1 ++ [(fileName, file)]) s1 in
          let row :=
            new_row s2 new_id now conv uid None (Some (getPublicUrl s2 fileName)) image in
          match (if messageError then None else insert_message row (messages_tbl s2)) with
          | Some tbl => (finally c1, set_messages_tbl tbl s2)
          | None => (finally c1, s2)
          end
  | _, _, _ => w
  end.

(** ** Calls *)

Definition getCurrentConversation (c : Client) : option Conversation :=
  match selectedConversation c with
  | Some sel => find (λ conv, bool_decide (conv_id conv = sel)) (conversations c)
  | None => None
  end.

(** [otherParticipants] of [startVideoCall] and [endCall]: [None] stands
    for [undefined]. *)
Definition otherParticipants (uid : string) (c : Client) : option (list Profile) :=
  filter (λ p, profile_user_id p ≠ uid) <$> (getCurrentConversation c ≫= participants).

Definition calls_channel (uid : string) : string := "calls-" +:+ uid.

(** [rnd1] and [rnd2] are the two random suffixes; the outcome of the
    final insert is not looked at by the page. *)
Definition startVideoCall (now : Timestamp) (rnd1 rnd2 new_id : string)
    (error : bool) (w : World) : World :=
  let '(c, s) := w in
  match selectedConversation c, userProfile c, user c with
  | Some conv, Some profile, Some uid =>
      match otherParticipants uid c with
      | None | Some [] => w
      | Some others =>
          let roomName := "chatapp-" +:+ pretty now +:+ "-" +:+ rnd1 in
          let jitsiRoomUrl := "https://meet.jit.si/" +:+ roomName in
          let call := "call-" +:+ pretty now +:+ "-" +:+ rnd2 in
          let c1 := set_showVideoCall true (set_videoCallUrl jitsiRoomUrl c) in
          let s1 :=
            set_sent
              (sent s ++
                 ((λ participant,
                     mkBroadcast (calls_channel (profile_user_id participant))
                       (incoming_call
                          {| roomUrl := jitsiRoomUrl; caller := profile;
                             conversationId := conv; callId := Some call |}))
                    <$> others)) s in
          let row :=
            new_row s1 new_id now conv uid (Some (literal "Started a video call.")) None
                    call_info in
          match (if error then None else insert_message row (messages_tbl s1)) with
          | Some tbl => (c1, set_messages_tbl tbl s1)
          | None => (c1, s1)
          end
      end
  | _, _, _ => w
  end.

(** The callback [subscribeToCalls] schedules for 30 seconds after an
    invitation. *)
Definition missedCall (p : IncomingCall) (c : Client) : Client :=
  match incomingCall c with
  | Some prev =>
      if bool_decide (callId prev = callId p) then
        set_incomingCall None
          (set_toasts
             (toasts c ++
                [ {| title := "📞 Missed Call";
                     description := "You missed a call from " +:+ display_name (caller p);
                     variant := "default" |} ]) c)
      else c
  | None => c
  end.

(** The [incoming_call] handler; the channel is only subscribed to when
    there is a user. *)
Definition onIncomingCall (now : Timestamp) (p : IncomingCall) (c : Client) : Client :=
  match user c with
  | None => c
  | Some uid =>
      if bool_decide (profile_user_id (caller p) ≠ uid) then
        set_timers (timers c ++ [(now + 30000, p)]) (set_incomingCall (Some p) c)
      else c
  end.

(** The [call_ended] handler. *)
Definition onCallEnded (c : Client) : Client :=
  set_showVideoCall false (set_incomingCall None c).

Definition acceptCall (c : Client) : Client :=
  match incomingCall c with
  | Some call =>
      set_incomingCall None
        (set_showVideoCall true
           (set_selectedConversation (Some (conversationId call))
              (set_videoCallUrl (roomUrl call) c)))
  | None => c
  end.

Definition declineCall (c : Client) : Client := set_incomingCall None c.

Definition endCall (w : World) : World :=
  let '(c, s) := w in
  match selectedConversation c, user c with
  | Some conv, Some uid =>
      let s1 :=
        set_sent
          (sent s ++
             ((λ participant,
                 mkBroadcast (calls_channel (profile_user_id participant))
                             (call_ended uid conv))
                <$> default [] (otherParticipants uid c))) s in
      (set_incomingCall None (set_videoCallUrl "" (set_showVideoCall false c)), s1)
  | _, _ => w
  end.

(** ** Time *)

(** The timers that are due at [now] run, oldest first.  All of them have
    the same delay, so this is the order of their due times. *)
Fixpoint run_timers (now : Timestamp) (pending : list (Timestamp * IncomingCall))
    (c : Client) : Client * list (Timestamp * IncomingCall) :=
  match pending with
  | [] => (c, [])
  | (due, p) :: rest =>
      if due <=? now then run_timers now rest (missedCall p c)
      else let '(c', kept) := run_timers now rest c in (c', (due, p) :: kept)
  end.

Definition tick (now : Timestamp) (c : Client) : Client :=
  let '(c', kept) := run_timers now (timers c) c in set_timers kept c'.

(** ** The page as a transition system *)

(** What can happen to the page: a click or a keystroke, a row delivered
    by the change feed, a broadcast received, or just time passing.  The
    arguments are those of the handler and the outcomes of its remote
    calls.  [SelectConversation] is a click on a conversation or, with
    [None], on the back arrow.  The signed-in user stays the same; typing signals, the search
    for users and the creation of a conversation touch none of the state
    kept here and are left out. *)
Inductive Event :=
  | Elapse
  | FetchUserProfile (data : option Profile)
  | FetchConversations (data : option (list Conversation))
  | SelectConversation (conv : option string)
  | FetchMessages (error : bool)
  | Inserted (row : Message)
  | Updated (row : Message)
  | Deleted (row : Message)
  | MarkMessagesAsSeen (answered : bool) (refused : string → bool)
  | AddReaction (messageId emoji_ : string) (error : bool)
  | StartEditMessage (message : Message)
  | EditInput (text_ : Text)
  | CancelEdit
  | SaveEditMessage (error : bool)
  | AskDelete (message : option Message)
  | ConfirmDeleteMessage (error : bool)
  | Input (text_ : Text)
  | SendMessage (new_id : string) (error : bool)
  | UploadImage (file : option File) (new_id : string) (uploadError messageError : bool)
  | UpdateUserPresence
  | FetchOnlineUsers (ok : bool)
  | StartVideoCall (rnd1 rnd2 new_id : string) (error : bool)
  | IncomingCallReceived (p : IncomingCall)
  | CallEndedReceived
  | AcceptCall
  | DeclineCall
  | EndCall.

(** One event at instant [now]: the timers that are due run first. *)
Definition step (now : Timestamp) (e : Event) (w : World) : World :=
  let c := tick now w.1 in
  let s := w.2 in
  match e with
  | Elapse => (c, s)
  | FetchUserProfile data => (fetchUserProfile data c, s)
  | FetchConversations data => (fetchConversations data c, s)
  | SelectConversation conv => (set_selectedConversation conv c, s)
  | FetchMessages error => fetchMessages error (c, s)
  | Inserted row => onInsert row (c, s)
  | Updated row => (onUpdate row c, s)
  | Deleted row => (onDelete row c, s)
  | MarkMessagesAsSeen answered refused => markMessagesAsSeen answered refused (c, s)
  | AddReaction messageId emoji_ error => addReaction messageId emoji_ error (c, s)
  | StartEditMessage message => (startEditMessage message c, s)
  | EditInput text_ => (set_editContent text_ c, s)
  | CancelEdit => (cancelEdit c, s)
  | SaveEditMessage error => saveEditMessage error (c, s)
  | AskDelete message => (set_messageToDelete message c, s)
  | ConfirmDeleteMessage error => confirmDeleteMessage error (c, s)
  | Input text_ => (set_newMessage text_ c, s)
  | SendMessage new_id error => sendMessage now new_id error (c, s)
  | UploadImage file new_id uploadError messageError =>
      uploadImage file now new_id uploadError messageError (c, s)
  | UpdateUserPresence => updateUserPresence now (c, s)
  | FetchOnlineUsers ok => fetchOnlineUsers now ok (c, s)
  | StartVideoCall rnd1 rnd2 new_id error =>
      startVideoCall now rnd1 rnd2 new_id error (c, s)
  | IncomingCallReceived p => (onIncomingCall now p c, s)
  | CallEndedReceived => (onCallEnded c, s)
  | AcceptCall => (acceptCall c, s)
  | DeclineCall => (declineCall c, s)
  | EndCall => endCall (c, s)
  end.

(** A run: the events in order, each with its instant. *)
Definition run (trace : list (Timestamp * Event)) (w : World) : World :=
  foldl (λ w te, step te.1 te.2 w) w trace.

(** ** Several sessions

    The pages of all the users work on the same server.  What they share
    is the server and the calls of [markMessagesAsSeen] that are between
    two awaits, of whichever page.  An access is an event of some page,
    in whatever state that page is; the answer to the first query of a
    call of [markMessagesAsSeen]; or one pass of the loop of a call under
    way.  An event [MarkMessagesAsSeen] of a page is a call that no other
    access interrupts. *)
Record Shared := mkShared {
  server : Server;
  marking : list Marking
}.

Inductive Access :=
  | page_event (now : Timestamp) (e : Event) (c : Client)
  | seen_read (answered : bool) (c : Client)
  | seen_pass (k : nat) (refused : bool).

Definition access (a : Access) (sh : Shared) : Shared :=
  match a with
  | page_event now e c =>
      {| server := (step now e (c, server sh)).2; marking := marking sh |}
  | seen_read answered c =>
      match markMessagesAsSeen_read answered (c, server sh) with
      | Some call => {| server := server sh; marking := marking sh ++ [call] |}
      | None => sh
      end
  | seen_pass k refused =>
      match marking sh !! k with
      | Some call =>
          let '(call', s') := markMessagesAsSeen_pass refused call (server sh) in
          {| server := s'; marking := <[k := call']> (marking sh) |}
      | None => sh
      end
  end.

Definition accesses (l : list Access) (sh : Shared) : Shared :=
  foldl (λ sh a, access a sh) sh l.

(** ** Notions used by the statements *)

(** The users who have seen a message; a [null] column reads as empty. *)
Definition seen (m : Message) : list string := default [] (seen_by m).

(** The reactions of a message; a [null] column reads as empty. *)
Definition current_reactions (m : Message) : list Reaction := default [] (reactions m).

(** The keys of a list of messages. *)
Definition ids (l : list Message) : list string := id <$> l.

(** The toast of the 30-second callback for invitation [p]. *)
Definition missed_toast (p : IncomingCall) : Toast :=
  {| title := "📞 Missed Call";
     description := "You missed a call from " +:+ display_name (caller p);
     variant := "default" |}.

(** The test [addReaction] gives to [findIndex]. *)
Definition reaction_test (uid emoji_ : string) (r : Reaction) : bool :=
  bool_decide (user_id r = uid) && bool_decide (emoji r = emoji_).

(** What one call of [markMessagesAsSeen] by [uid] in [conv] makes of a
    row. *)
Definition mark_row (conv uid : string) (refused : string → bool) (m : Message) : Message :=
  if decide (conversation_id m = conv ∧ sender_id m ≠ uid) then
    if includes uid (seen m) then m
    else if refused (id m) then m
    else with_seen_by (Some (seen m ++ [uid])) m
  else m.

(** What one pass of the loop of [markMessagesAsSeen] makes of the row it
    updates, [sb] being the [seen_by] that was read for it. *)
Definition loop_row (uid : string) (refused : string → bool)
    (sb : option (list string)) (m : Message) : Message :=
  if includes uid (default [] sb) then m
  else if refused (id m) then m
  else with_seen_by (Some (default [] sb ++ [uid])) m.

(** The ways an event changes the [messages] table. *)
Inductive table_change (tbl : list Message) : list Message → Prop :=
  | table_same : table_change tbl tbl
  | table_content (body : option Text) (mid : string) :
      table_change tbl (update_eq_id (with_content body) mid tbl)
  | table_reactions (rs : option (list Reaction)) (mid : string) :
      table_change tbl (update_eq_id (with_reactions rs) mid tbl)
  | table_seen (conv uid : string) (refused : string → bool) :
      table_change tbl
        (mark_seen_loop uid refused (select_unread conv uid tbl) tbl)
  | table_delete (mid : string) :
      table_change tbl (delete_eq_id mid tbl)
  | table_insert (row : Message) (tbl' : list Message) :
      insert_message row tbl = Some tbl' → table_change tbl tbl'.

(** The ways an event changes the list of messages of the page, [tbl]
    being the table at that moment. *)
Inductive list_change (tbl l : list Message) : list Message → Prop :=
  | list_same : list_change tbl l l
  | list_patch (f : Message → Message) :
      (∀ m, id (f m) = id m) → list_change tbl l (f <$> l)
  | list_filter (P : Message → Prop) `{∀ m, Decision (P m)} :
      list_change tbl l (filter P l)
  | list_append (m : Message) :
      id m ∉ ids l → list_change tbl l (l ++ [m])
  | list_fetch (f : Message → Message) (P : Message → Prop) `{∀ m, Decision (P m)} :
      (∀ m, id (f m) = id m) →
      list_change tbl l (f <$> order_created_at (filter P tbl)).

(** ** A small instance

    Three users share the conversation ["x"]; the page is Bob's. *)
Definition alice : Profile :=
  {| profile_id := "p1"; profile_user_id := "alice"; username := "alice";
     display_name := "Alice"; avatar_url := None; last_seen := Some 0 |}.

Definition bob : Profile :=
  {| profile_id := "p2"; profile_user_id := "bob"; username := "bob";
     display_name := "Bob"; avatar_url := None; last_seen := Some 1000 |}.

Definition carol : Profile :=
  {| profile_id := "p3"; profile_user_id := "carol"; username := "carol";
     display_name := "Carol"; avatar_url := None; last_seen := None |}.

Definition hello : Message :=
  {| id := "m1"; content := Some (literal "hi"); image_url := None; message_type := text;
     created_at := 1000; sender_id := "alice"; conversation_id := "x";
     reactions := Some [mkReaction "❤️" "bob"; mkReaction "😂" "carol"];
     seen_by := Some ["carol"]; sender_profile := None |}.

Definition reply : Message :=
  {| id := "m2"; content := Some (literal "hello"); image_url := None; message_type := text;
     created_at := 2000; sender_id := "bob"; conversation_id := "x";
     reactions := Some []; seen_by := Some []; sender_profile := None |}.

Definition sample_server : Server :=
  {| messages_tbl := [hello; reply]; profiles_tbl := [alice; bob; carol];
     chat_images := []; sent := []; reactions_default := Some [];
     storage_url := "https://files.example/chat-images/" |}.

Definition friends : Conversation :=
  {| conv_id := "x"; name := Some "Friends"; is_group := true;
     conv_created_at := 0; participants := Some [alice; bob; carol] |}.

Definition sample_client : Client :=
  {| user := Some "bob"; userProfile := Some bob; conversations := [friends];
     selectedConversation := Some "x"; messages := [hello; reply];
     newMessage := []; isLoading := false; onlineUsers := ∅;
     showVideoCall := false; videoCallUrl := ""; incomingCall := None;
     editingMessage := None; editContent := []; messageToDelete := None;
     fileInputValue := ""; timers := []; toasts := []; notifications := [] |}.

Definition sample_world : World := (sample_client, sample_server).

(** Carol has the same conversation open on her own page. *)
Definition carols_page : Client :=
  {| user := Some "carol"; userProfile := Some carol; conversations := [friends];
     selectedConversation := Some "x"; messages := [hello; reply];
     newMessage := []; isLoading := false; onlineUsers := ∅;
     showVideoCall := false; videoCallUrl := ""; incomingCall := None;
     editingMessage := None; editContent := []; messageToDelete := None;
     fileInputValue := ""; timers := []; toasts := []; notifications := [] |}.

(** Alice rings Bob from the conversation ["x"]. *)
Definition ring : IncomingCall :=
  {| roomUrl := "https://meet.jit.si/chatapp-1"; caller := alice;
     conversationId := "x"; callId := Some "c1" |}.

(** Carol rings Bob ten seconds later. *)
Definition ring2 : IncomingCall :=
  {| roomUrl := "https://meet.jit.si/chatapp-2"; caller := carol;
     conversationId := "x"; callId := Some "c2" |}.

(** An image of 11 MiB and one of 10 MiB. *)
Definition big_image : File :=
  {| file_name := "holiday.png"; file_type := "image/png";
     file_size := 11 * 1024 * 1024 |}.

Definition full_image : File :=
  {| file_name := "holiday.png"; file_type := "image/png";
     file_size := 10 * 1024 * 1024 |}.

(** * The rest of the page *)

(** ** Typing signals *)

(** The payload of a [typing] broadcast and the value the page keeps for
    a user who is typing. *)
Record TypingSignal := mkTypingSignal {
  typing_user_id : string;
  typing_display_name : string;
  is_typing : bool
}.

Record TypingUser := mkTypingUser {
  typist_user_id : string;
  typist_display_name : string
}.

Definition typing_channel (conv : string) : string := "typing-" +:+ conv.

(** The handler [subscribeToTyping] installs, [uid] being [user.id] of
    the page; [typingUsers] is the [Map] keyed by user id. *)
Definition onTyping (uid : string) (signal : TypingSignal)
    (typingUsers : gmap string TypingUser) : gmap string TypingUser :=
  if bool_decide (typing_user_id signal ≠ uid) then
    if is_typing signal then
      <[typing_user_id signal :=
          mkTypingUser (typing_user_id signal) (typing_display_name signal)]> typingUsers
    else delete (typing_user_id signal) typingUsers
  else typingUsers.

(** [sendTypingIndicator]: the broadcasts it sends, none when the page
    has no conversation, user or profile. *)
Definition sendTypingIndicator (isTyping : bool) (c : Client)
    : list (string * TypingSignal) :=
  match selectedConversation c, user c, userProfile c with
  | Some conv, Some uid, Some profile =>
      [(typing_channel conv, mkTypingSignal uid (display_name profile) isTyping)]
  | _, _, _ => []
  end.

(** The page with what the input field adds: [typingTimeoutRef] holds the
    pending 2-second callback with the instant it is due and what it will
    send (the callback closes over the page of the keystroke);
    [typing_sent] records the typing broadcasts, oldest first. *)
Record Typist := mkTypist {
  page : Client;
  typingTimeoutRef : option (Timestamp * list (string * TypingSignal));
  typing_sent : list (string * TypingSignal)
}.

(** The 2-second callback runs when it is due. *)
Definition typing_tick (now : Timestamp) (t : Typist) : Typist :=
  match typingTimeoutRef t with
  | Some (due, signals) =>
      if due <=? now then
        {| page := page t; typingTimeoutRef := None;
           typing_sent := typing_sent t ++ signals |}
      else t
  | None => t
  end.

Definition handleInputChange (now : Timestamp) (value : Text) (t : Typist) : Typist :=
  {| page := set_newMessage value (page t);
     typingTimeoutRef := Some (now + 2000, sendTypingIndicator false (page t));
     typing_sent := typing_sent t ++ sendTypingIndicator true (page t) |}.

(** What [sendMessage] does to the typing state before it sends. *)
Definition sendMessage_typing (t : Typist) : Typist :=
  match selectedConversation (page t), user (page t) with
  | Some _, Some _ =>
      if bool_decide (trim (newMessage (page t)) = []) then t
      else
        {| page := page t; typingTimeoutRef := None;
           typing_sent := typing_sent t ++ sendTypingIndicator false (page t) |}
  | _, _ => t
  end.

(** A keystroke at instant [now], after the callback that is due. *)
Definition keystroke (t : Typist) (key : Timestamp * Text) : Typist :=
  handleInputChange key.1 key.2 (typing_tick key.1 t).

(** ** Searching for users *)

(** [slice(0, n)]: the first [n] code units. *)
Definition slice_to (n : nat) (s : Text) : Text := take n s.

(** The code units of [%], [_] and the backslash. *)
Definition percent : Z := 0x25.
Definition underscore : Z := 0x5F.
Definition backslash : Z := 0x5C.

(** The code units the pattern [/[%_\\]/g] matches. *)
Definition like_special (u : Z) : bool :=
  (u =? percent) || (u =? underscore) || (u =? backslash).

(** [replace(/[%_\\]/g, '\\$&')]. *)
Fixpoint escape_like (s : Text) : Text :=
  match s with
  | [] => []
  | u :: s' =>
      if like_special u then backslash :: u :: escape_like s'
      else u :: escape_like s'
  end.

(** [sanitizedTerm] of [searchForUsers]. *)
Definition sanitizedTerm (searchTerm : Text) : Text :=
  escape_like (slice_to 100 (trim searchTerm)).

(** ** Names of conversations *)

Definition getConversationName (c : Client) (conversation : Conversation) : string :=
  if is_group conversation then
    match name conversation with
    | Some (String a b) => String a b
    | _ => "Group Chat"
    end
  else
    let otherParticipant :=
      participants conversation ≫=
        find (λ p, bool_decide (Some (profile_user_id p) ≠ user c)) in
    match display_name <$> otherParticipant with
    | Some (String a b) => String a b
    | _ => "Unknown User"
    end.

(** ** What a message shows *)

(** The counts under a message are the entries of the object the
    [reduce] builds, starting from [{}].  For a key the object does not
    hold yet, [acc[key]] is what [Object.prototype] has under that name:
    nothing for an ordinary key, so the count starts at 1; a function for
    the names below, so what is stored is the text of that function
    followed by ["1"], and one more ["1"] with each further reaction.
    Assigning to [__proto__] stores nothing. *)
Inductive Count :=
  | count (n : nat)
  | member_text (ones : nat).

Definition object_prototype_members : list string :=
  ["constructor"; "hasOwnProperty"; "isPrototypeOf"; "propertyIsEnumerable";
   "toLocaleString"; "toString"; "valueOf"; "__defineGetter__";
   "__defineSetter__"; "__lookupGetter__"; "__lookupSetter__"].

Definition reaction_counts (rs : list Reaction) : gmap string Count :=
  foldl (λ acc r,
           if bool_decide (emoji r = "__proto__") then acc
           else
             <[emoji r :=
                 match acc !! emoji r with
                 | Some (count n) => count (n + 1)
                 | Some (member_text ones) => member_text (ones + 1)
                 | None =>
                     if bool_decide (emoji r ∈ object_prototype_members)
                     then member_text 1 else count 1
                 end]> acc) ∅ rs.

Definition isOwnMessage (c : Client) (message : Message) : bool :=
  bool_decide (Some (sender_id message) = user c).

Definition isLastOwnMessage (c : Client) (message : Message) : bool :=
  isOwnMessage c message &&
  bool_decide (id <$> last (filter (λ m, Some (sender_id m) = user c) (messages c))
               = Some (id message)).

Definition seenByOthers (c : Client) (message : Message) : list string :=
  filter (λ i, Some i ≠ user c) (seen message).

(** The status line under a message: none, ["Seen"] or ["Sent"]. *)
Definition seen_status (c : Client) (message : Message) : option string :=
  if isOwnMessage c message && isLastOwnMessage c message then
    Some (if (0 <? length (seenByOthers c message))%nat then "Seen" else "Sent")
  else None.

(** ** Push notifications *)

(** The state of the hook [usePushNotifications] once mounted. *)
Inductive NotificationPermission := default_permission | granted | denied.

Record PushNotifications := mkPushNotifications {
  isSupported : bool;
  permission : NotificationPermission
}.

#[global] Instance NotificationPermission_eq_dec : EqDecision NotificationPermission.
Proof. solve_decision. Defined.

(** [answer] is what the browser resolves the request to, [None] when
    the request throws. *)
Definition requestPermission (answer : option NotificationPermission)
    (h : PushNotifications) : PushNotifications * bool :=
  if negb (isSupported h) then (h, false)
  else
    match answer with
    | Some result =>
        ({| isSupported := isSupported h; permission := result |},
         bool_decide (result = granted))
    | None => (h, false)
    end.

(** [sendNotification]: the notifications it displays; [hidden] is
    [document.hidden], [thrown] tells that the constructor threw. *)
Definition sendNotification (hidden thrown : bool) (h : PushNotifications)
    (n : Notification) : list Notification :=
  if negb (isSupported h) || negb (bool_decide (permission h = granted)) then []
  else if hidden then (if thrown then [] else [n])
  else [].

(** ** Conversations and their participants *)

(** The [conversations] table (rows have no [participants]) and the
    [conversation_participants] table, a list of (conversation id, user
    id). *)
Record Directory := mkDirectory {
  conversations_tbl : list Conversation;
  conversation_participants : list (string * string)
}.

(** What the queries of [fetchConversations] return for user [uid]: one
    entry for each membership row of the user whose conversation exists,
    each with the profiles of the participants of that conversation. *)
Definition conversationsWithParticipants (uid : string) (d : Directory)
    (profiles : list Profile) : list Conversation :=
  let convos :=
    omap (λ item : string * string,
            find (λ conv, bool_decide (conv_id conv = item.1)) (conversations_tbl d))
         (filter (λ item, item.2 = uid) (conversation_participants d)) in
  (λ conv,
     let userIds :=
       snd <$> filter (λ item, item.1 = conv_id conv) (conversation_participants d) in
     let profilesData := filter (λ p, profile_user_id p ∈ userIds) profiles in
     {| conv_id := conv_id conv; name := name conv; is_group := is_group conv;
        conv_created_at := conv_created_at conv; participants := Some profilesData |})
    <$> convos.

(** [fetchConversations] against the tables; [error] is the outcome of
    the first query. *)
Definition loadConversations (error : bool) (d : Directory) (s : Server)
    (c : Client) : Client :=
  match user c with
  | Some uid =>
      fetchConversations
        (if error then None
         else Some (conversationsWithParticipants uid d (profiles_tbl s))) c
  | None => c
  end.

(** [createConversationWithUser]: the database supplies the key and the
    creation time of the conversation; [convError], [participantError]
    and [fetchError] are the outcomes of the two inserts and of the
    fetch that follows. *)
Definition createConversationWithUser (otherUser : Profile) (new_id : string)
    (now : Timestamp) (convError participantError fetchError : bool)
    (d : Directory) (s : Server) (c : Client) : Client * Directory :=
  match user c with
  | None => (c, d)
  | Some uid =>
      if convError || bool_decide (new_id ∈ conv_id <$> conversations_tbl d) then (c, d)
      else
        let conversation :=
          {| conv_id := new_id; name := Some ("Chat with " +:+ display_name otherUser);
             is_group := false; conv_created_at := now; participants := None |} in
        let d1 :=
          {| conversations_tbl := conversations_tbl d ++ [conversation];
             conversation_participants := conversation_participants d |} in
        if participantError then (c, d1)
        else
          let d2 :=
            {| conversations_tbl := conversations_tbl d1;
               conversation_participants :=
                 conversation_participants d1 ++
                   [(new_id, uid); (new_id, profile_user_id otherUser)] |} in
          (set_selectedConversation (Some new_id) (loadConversations fetchError d2 s c), d2)
  end.

(** ** Further notions used by the statements *)

(** The units of a string, in order. *)
Definition units (s : string) : list ascii := String.list_ascii_of_string s.

(** The text a [LIKE] pattern stands for when it has no wildcard: a
    backslash makes the next code unit literal; a bare [%] or [_], or a
    backslash at the end, gives [None]. *)
Fixpoint like_literal (pattern : Text) : option Text :=
  match pattern with
  | [] => Some []
  | u :: rest =>
      if u =? backslash then
        match rest with
        | [] => None
        | v :: rest' => cons v <$> like_literal rest'
        end
      else if like_special u then None
      else cons u <$> like_literal rest
  end.

(** The last signal of user [u] in a list of typing signals. *)
Definition last_signal (u : string) (signals : list TypingSignal) : option TypingSignal :=
  last (filter (λ s, typing_user_id s = u) signals).

(** Keystrokes that follow each other by less than two seconds, the
    first at [t] or later. *)
Fixpoint steady (t : Timestamp) (keys : list (Timestamp * Text)) : Prop :=
  match keys with
  | [] => True
  | key :: rest => t ≤ key.1 ∧ key.1 < t + 2000 ∧ steady key.1 rest
  end.

(** The events that set the pending invitation: an answer or a
    dismissal, the end of a call (on this page or announced by a
    broadcast) and a further invitation. *)
Definition touches_invitation (e : Event) : bool :=
  match e with
  | AcceptCall | DeclineCall | EndCall | CallEndedReceived
  | IncomingCallReceived _ => true
  | _ => false
  end.

(** No row lists its own sender as having seen it. *)
Definition sender_unmarked (tbl : list Message) : Prop :=
  ∀ m, m ∈ tbl → sender_id m ∉ seen m.

(** No row lists a user twice in [seen_by]. *)
Definition seen_once (tbl : list Message) : Prop :=
  ∀ m, m ∈ tbl → NoDup (seen m).

(** The ways an event changes the [messages] table, with the row an
    insert adds spelled out. *)
Inductive table_event (tbl : list Message) : list Message → Prop :=
  | event_same : table_event tbl tbl
  | event_content (body : option Text) (mid : string) :
      table_event tbl (update_eq_id (with_content body) mid tbl)
  | event_reactions (rs : option (list Reaction)) (mid : string) :
      table_event tbl (update_eq_id (with_reactions rs) mid tbl)
  | event_seen (conv uid : string) (refused : string → bool) :
      table_event tbl (mark_seen_loop uid refused (select_unread conv uid tbl) tbl)
  | event_delete (mid : string) :
      table_event tbl (delete_eq_id mid tbl)
  | event_insert (s0 : Server) (new_id : string) (now : Timestamp) (conv sender : string)
      (body : option Text) (url : option string) (ty : MessageType)
      (tbl' : list Message) :
      insert_message (new_row s0 new_id now conv sender body url ty) tbl = Some tbl' →
      table_event tbl tbl'.

(** * Properties *)

(** ** Reactions *)

Lemma reaction_test_spec uid e r :
  reaction_test uid e r = true ↔ r = mkReaction e uid.
Proof.
  unfold reaction_test. destruct r as [e' u']. simpl.
  rewrite andb_true_iff, !bool_decide_eq_true. split.
  - intros [-> ->]. done.
  - intros [= -> ->]. done.
Qed.

Lemma findIndex_from_split {A} (p : A → bool) (l : list A) (i : Z) :
  0 ≤ i →
  (Forall (λ x, p x = false) l ∧ findIndex_from p l i = -1) ∨
  (∃ l1 x l2, l = l1 ++ x :: l2 ∧ Forall (λ y, p y = false) l1 ∧ p x = true ∧
              findIndex_from p l i = i + Z.of_nat (length l1)).
Proof.
  revert i. induction l as [|a l IH]; intros i Hi; simpl.
  - left. split; [constructor | done].
  - destruct (p a) eqn:Hpa.
    + right. exists [], a, l. simpl. repeat split; [constructor | done | lia].
    + destruct (IH (i + 1)) as [[Hall Hidx] | (l1 & x & l2 & -> & Hall & Hx & Hidx)]; [lia | |].
      * left. split; [by constructor | done].
      * right. exists (a :: l1), x, l2. simpl. repeat split; [by constructor | done | lia].
Qed.

Lemma filter_index_from_keep_all {A} (l : list A) (i k : Z) :
  k < i → filter_index_from (λ _ j, negb (j =? k)) l i = l.
Proof.
  revert i. induction l as [|a l IH]; intros i Hk; simpl; [done|].
  destruct (i =? k) eqn:E; [lia|]. simpl. f_equal. apply IH. lia.
Qed.

Lemma filter_index_from_drop {A} (l1 : list A) (x : A) (l2 : list A) (i k : Z) :
  k = i + Z.of_nat (length l1) →
  filter_index_from (λ _ j, negb (j =? k)) (l1 ++ x :: l2) i = l1 ++ l2.
Proof.
  revert i. induction l1 as [|a l1 IH]; intros i Hk.
  - cbn [app filter_index_from length] in *.
    assert ((i =? k) = true) as -> by (apply Z.eqb_eq; lia).
    cbn [negb]. apply filter_index_from_keep_all. lia.
  - cbn [app filter_index_from]. rewrite length_cons, Nat2Z.inj_succ in Hk.
    assert ((i =? k) = false) as -> by (apply Z.eqb_neq; lia).
    cbn [negb]. f_equal. apply IH. lia.
Qed.

Lemma newReactions_absent uid e rs :
  mkReaction e uid ∉ rs → newReactions uid e rs = rs ++ [mkReaction e uid].
Proof.
  intros Habs. unfold newReactions.
  destruct (findIndex_from_split (reaction_test uid e) rs 0) as
    [[_ Hidx] | (l1 & x & l2 & -> & _ & Hx & _)]; [lia | |].
  - unfold findIndex, reaction_test in *. rewrite Hidx. done.
  - apply reaction_test_spec in Hx. subst x. exfalso. apply Habs.
    apply elem_of_app. right. left.
Qed.

Lemma newReactions_present uid e l1 l2 :
  mkReaction e uid ∉ l1 →
  newReactions uid e (l1 ++ mkReaction e uid :: l2) = l1 ++ l2.
Proof.
  intros Habs. unfold newReactions.
  destruct (findIndex_from_split (reaction_test uid e) (l1 ++ mkReaction e uid :: l2) 0) as
    [[Hall _] | (k1 & x & k2 & Heq & Hall & Hx & Hidx)]; [lia | |].
  - exfalso. rewrite Forall_app, Forall_cons in Hall. destruct Hall as (_ & Hf & _).
    assert (reaction_test uid e (mkReaction e uid) = true) by by apply reaction_test_spec.
    congruence.
  - apply reaction_test_spec in Hx. subst x.
    assert (k1 = l1 ∧ k2 = l2) as [-> ->].
    { clear Hidx. revert k1 Heq Hall. induction l1 as [|a l1 IH]; intros k1 Heq Hall.
      - destruct k1 as [|b k1]; simpl in *; [by inversion Heq|].
        inversion Heq; subst. inversion Hall as [|? ? Hb _]; subst.
        assert (reaction_test uid e (mkReaction e uid) = true) by by apply reaction_test_spec.
        congruence.
      - destruct k1 as [|b k1]; simpl in *.
        + inversion Heq; subst. exfalso. apply Habs. left.
        + inversion Heq; subst. inversion Hall; subst.
          destruct (IH (λ H, Habs (list_elem_of_further _ _ _ H)) k1) as [-> ->]; done. }
    unfold findIndex, reaction_test in *. rewrite Hidx.
    destruct (-1 <? 0 + Z.of_nat (length l1)) eqn:E; [|lia].
    apply (filter_index_from_drop l1 _ l2 0). lia.
Qed.

Lemma find_fmap_same_id (f : Message → Message) (mid : string) (l : list Message) (m : Message) :
  (∀ x, id (f x) = id x) →
  find (λ x, bool_decide (id x = mid)) l = Some m →
  find (λ x, bool_decide (id x = mid))
       ((λ x, if bool_decide (id x = mid) then f x else x) <$> l) = Some (f m).
Proof.
  intros Hid. unfold find. induction l as [|a l IH]; simpl; [done|].
  destruct (bool_decide (id a = mid)) eqn:E.
  - intros [= ->]. rewrite Hid, E. done.
  - rewrite E. exact IH.
Qed.

Lemma count_occ_le_1_split (x : Reaction) (l1 l2 : list Reaction) :
  (count_occ Reaction_eq_dec (l1 ++ x :: l2) x ≤ 1)%nat → x ∉ l2.
Proof.
  rewrite count_occ_app, count_occ_cons_eq by done. intros Hle Hin.
  apply list_elem_of_In in Hin. apply (count_occ_In Reaction_eq_dec) in Hin. lia.
Qed.

Lemma newReactions_twice uid e (rs : list Reaction) :
  (count_occ Reaction_eq_dec rs (mkReaction e uid) ≤ 1)%nat →
  (mkReaction e uid ∉ rs →
     newReactions uid e rs = rs ++ [mkReaction e uid] ∧
     newReactions uid e (newReactions uid e rs) = rs) ∧
  (mkReaction e uid ∈ rs →
     (mkReaction e uid ∉ newReactions uid e rs) ∧
     newReactions uid e (newReactions uid e rs)
       = (newReactions uid e rs ++ [mkReaction e uid])) ∧
  newReactions uid e (newReactions uid e rs) ≡ₚ rs.
Proof.
  intros Hcount.
  destruct (decide (mkReaction e uid ∈ rs)) as [Hin | Hout].
  - apply list_elem_of_split_l in Hin as (l1 & l2 & -> & Hl1).
    pose proof (count_occ_le_1_split _ _ _ Hcount) as Hl2.
    assert (mkReaction e uid ∉ l1 ++ l2) as Hnot.
    { rewrite elem_of_app. tauto. }
    rewrite (newReactions_present uid e l1 l2 Hl1).
    rewrite (newReactions_absent uid e (l1 ++ l2) Hnot).
    split; [|split].
    + intros Habs. exfalso. apply Habs. apply elem_of_app. right. left.
    + done.
    + rewrite <- app_assoc. apply Permutation_app_head. symmetry.
      apply Permutation_cons_append.
  - rewrite (newReactions_absent uid e rs Hout).
    assert (newReactions uid e (rs ++ [mkReaction e uid]) = rs) as Hback.
    { rewrite (newReactions_present uid e rs [] Hout). apply app_nil_r. }
    rewrite Hback. split; [done | split; [done | done]].
Qed.

(** From an array that holds no entry twice the toggle gives one again,
    so arrays built by toggles alone never hold an entry twice. *)
Lemma newReactions_NoDup uid e (rs : list Reaction) :
  NoDup rs → NoDup (newReactions uid e rs).
Proof.
  intros Hnd. destruct (decide (mkReaction e uid ∈ rs)) as [Hin | Hout].
  - apply list_elem_of_split_l in Hin as (l1 & l2 & -> & Hl1).
    rewrite (newReactions_present uid e l1 l2 Hl1).
    apply NoDup_app in Hnd as (Hn1 & Hdisj & Hn2). apply NoDup_cons in Hn2 as [_ Hn2].
    apply NoDup_app. split; [done|]. split; [|done].
    intros x Hx Hx2. apply (Hdisj x Hx). by right.
  - rewrite (newReactions_absent uid e rs Hout). apply NoDup_app.
    split; [done|]. split; [|apply NoDup_singleton].
    intros x Hx Hin. apply list_elem_of_singleton in Hin. by subst.
Qed.

Lemma fmap_reactions_twice (mid : string) (rs1 rs2 : list Reaction) (l : list Message) :
  (λ x, if bool_decide (id x = mid) then with_reactions (Some rs2) x else x) <$>
    ((λ x, if bool_decide (id x = mid) then with_reactions (Some rs1) x else x) <$> l)
  = (λ x, if bool_decide (id x = mid) then with_reactions (Some rs2) x else x) <$> l.
Proof.
  rewrite <- list_fmap_compose. apply list_fmap_ext. intros _ x _. simpl.
  destruct (bool_decide (id x = mid)) eqn:E; simpl; rewrite E; done.
Qed.




(** ** Keys *)

Lemma NoDup_ids_filter (P : Message → Prop) `{∀ m, Decision (P m)} (l : list Message) :
  NoDup (ids l) → NoDup (ids (filter P l)).
Proof.
  unfold ids. induction l as [|a l IH]; [done|].
  rewrite fmap_cons, NoDup_cons. intros [Ha Hl].
  rewrite filter_cons. destruct (decide (P a)); [|by apply IH].
  rewrite fmap_cons, NoDup_cons. split; [|by apply IH].
  intros Hin. apply Ha. apply list_elem_of_fmap in Hin as (x & Hx & Hin).
  apply list_elem_of_filter in Hin as [_ Hin].
  apply list_elem_of_fmap. eauto.
Qed.

Lemma NoDup_ids_inj (l : list Message) (m m' : Message) :
  NoDup (ids l) → m ∈ l → m' ∈ l → id m = id m' → m = m'.
Proof.
  intros Hnd Hm Hm' Heq.
  apply list_elem_of_lookup in Hm as [i Hi]. apply list_elem_of_lookup in Hm' as [j Hj].
  assert (ids l !! i = Some (id m)) as Hi' by (unfold ids; by rewrite list_lookup_fmap, Hi).
  assert (ids l !! j = Some (id m)) as Hj' by (unfold ids; by rewrite list_lookup_fmap, Hj, Heq).
  pose proof (NoDup_lookup _ _ _ _ Hnd Hi' Hj') as ->. congruence.
Qed.

Lemma ids_update_eq_id (patch : Message → Message) (mid : string) (tbl : list Message) :
  (∀ m, id (patch m) = id m) → ids (update_eq_id patch mid tbl) = ids tbl.
Proof.
  intros Hid. unfold ids, update_eq_id. rewrite <- list_fmap_compose.
  apply list_fmap_ext. intros _ m _. simpl. by destruct (bool_decide _).
Qed.

Lemma includes_spec (x : string) (l : list string) : includes x l = true ↔ x ∈ l.
Proof.
  unfold includes. rewrite existsb_exists. split.
  - intros (y & Hin & Hy). apply bool_decide_eq_true in Hy. subst. by apply list_elem_of_In.
  - intros Hin. exists x. split; [by apply list_elem_of_In | by apply bool_decide_eq_true].
Qed.

(** ** The loop of [markMessagesAsSeen], row by row *)

(** A call that nothing interrupts, written out. *)
Lemma markMessagesAsSeen_unfold answered refused c s :
  markMessagesAsSeen answered refused (c, s)
  = match selectedConversation c, user c with
    | Some conv, Some uid =>
        if answered then
          (c, set_messages_tbl
                (mark_seen_loop uid refused
                   (select_unread conv uid (messages_tbl s)) (messages_tbl s)) s)
        else (c, s)
    | _, _ => (c, s)
    end.
Proof.
  unfold markMessagesAsSeen, markMessagesAsSeen_read.
  destruct (selectedConversation c); [|done]. destruct (user c); [|done].
  by destruct answered.
Qed.

Lemma mark_seen_loop_cons uid refused u us tbl :
  mark_seen_loop uid refused (u :: us) tbl
  = mark_seen_loop uid refused us (mark_seen_loop uid refused [u] tbl).
Proof. done. Qed.

Lemma mark_seen_loop_one_other uid refused (u : string * option (list string)) tbl i m :
  tbl !! i = Some m → id m ≠ u.1 →
  mark_seen_loop uid refused [u] tbl !! i = Some m.
Proof.
  intros Hi Hne. unfold mark_seen_loop, mark_seen_pass. simpl.
  destruct (includes uid _); [done|]. destruct (refused _); [done|].
  unfold update_eq_id. rewrite list_lookup_fmap, Hi. simpl.
  rewrite bool_decide_eq_false_2; done.
Qed.

Lemma mark_seen_loop_one_same uid refused (u : string * option (list string)) tbl i m :
  tbl !! i = Some m → id m = u.1 →
  mark_seen_loop uid refused [u] tbl !! i = Some (loop_row uid refused u.2 m).
Proof.
  intros Hi Heq. unfold mark_seen_loop, mark_seen_pass, loop_row. simpl. rewrite Heq.
  destruct (includes uid _); [done|]. destruct (refused _); [done|].
  unfold update_eq_id. rewrite list_lookup_fmap, Hi. simpl.
  rewrite bool_decide_eq_true_2; done.
Qed.

Lemma mark_seen_loop_untouched uid refused us : ∀ tbl i m,
  tbl !! i = Some m → id m ∉ us.*1 →
  mark_seen_loop uid refused us tbl !! i = Some m.
Proof.
  induction us as [|u us IH]; intros tbl i m Hi Hnot; [done|].
  rewrite mark_seen_loop_cons. rewrite fmap_cons, not_elem_of_cons in Hnot.
  destruct Hnot as [Hne Hnot]. apply IH; [|done].
  by apply mark_seen_loop_one_other.
Qed.

Lemma loop_row_id uid refused sb m : id (loop_row uid refused sb m) = id m.
Proof. unfold loop_row. destruct (includes _ _); [done|]. by destruct (refused _). Qed.

Lemma mark_seen_loop_touched uid refused us : ∀ tbl i m sb,
  NoDup us.*1 → tbl !! i = Some m → (id m, sb) ∈ us →
  mark_seen_loop uid refused us tbl !! i = Some (loop_row uid refused sb m).
Proof.
  induction us as [|u us IH]; intros tbl i m sb Hnd Hi Hin; [by apply elem_of_nil in Hin|].
  rewrite mark_seen_loop_cons. rewrite fmap_cons, NoDup_cons in Hnd.
  destruct Hnd as [Hu Hnd].
  destruct (decide (id m = u.1)) as [Heq | Hne].
  - assert (u = (id m, sb)) as ->.
    { apply elem_of_cons in Hin as [Hin | Hin]; [done|].
      exfalso. apply Hu. rewrite <- Heq. apply list_elem_of_fmap. by exists (id m, sb). }
    apply mark_seen_loop_untouched.
    + by apply mark_seen_loop_one_same.
    + by rewrite loop_row_id.
  - apply IH; [done | by apply mark_seen_loop_one_other |].
    apply elem_of_cons in Hin as [Hin | Hin]; [|done]. subst u. done.
Qed.

Lemma mark_seen_loop_length uid refused us : ∀ tbl,
  length (mark_seen_loop uid refused us tbl) = length tbl.
Proof.
  induction us as [|u us IH]; intros tbl; [done|].
  rewrite mark_seen_loop_cons, IH. unfold mark_seen_loop, mark_seen_pass. simpl.
  destruct (includes _ _); [done|]. destruct (refused _); [done|].
  unfold update_eq_id. by rewrite length_fmap.
Qed.

Lemma select_unread_ids conv uid tbl :
  (select_unread conv uid tbl).*1
  = ids (filter (λ m, conversation_id m = conv ∧ sender_id m ≠ uid) tbl).
Proof. unfold select_unread, ids. by rewrite <- list_fmap_compose. Qed.

Lemma mark_seen_loop_spec conv uid refused tbl :
  NoDup (ids tbl) →
  mark_seen_loop uid refused (select_unread conv uid tbl) tbl
  = mark_row conv uid refused <$> tbl.
Proof.
  intros Hnd. apply list_eq. intros i. rewrite list_lookup_fmap.
  destruct (tbl !! i) as [m|] eqn:Hi; simpl.
  - unfold mark_row.
    destruct (decide (conversation_id m = conv ∧ sender_id m ≠ uid)) as [HP | HP].
    + rewrite (mark_seen_loop_touched uid refused _ tbl i m (seen_by m)); [done | | done |].
      * rewrite select_unread_ids. by apply NoDup_ids_filter.
      * unfold select_unread. apply list_elem_of_fmap. exists m. split; [done|].
        apply list_elem_of_filter. split; [done|]. by eapply list_elem_of_lookup_2.
    + apply mark_seen_loop_untouched; [done|].
      rewrite select_unread_ids. unfold ids. intros Hin.
      apply list_elem_of_fmap in Hin as (m' & Heq & Hin).
      apply list_elem_of_filter in Hin as [HP' Hin].
      assert (m = m') as <-; [|done].
      eapply NoDup_ids_inj; eauto. by eapply list_elem_of_lookup_2.
  - apply lookup_ge_None. rewrite mark_seen_loop_length. by apply lookup_ge_None.
Qed.

(** ** Every event changes the table in one of the listed ways *)

Lemma updateUserPresence_messages_tbl now c s :
  messages_tbl (updateUserPresence now (c, s)).2 = messages_tbl s.
Proof. unfold updateUserPresence. by destruct (user c). Qed.

Lemma step_table_change now e w :
  table_change (messages_tbl w.2) (messages_tbl (step now e w).2).
Proof.
  destruct w as [c0 s]. unfold step. cbn [fst snd].
  set (c := tick now c0). clearbody c.
  destruct e; cbn [snd]; try apply table_same.
  - unfold fetchMessages. destruct (selectedConversation c); [|apply table_same].
    destruct error; apply table_same.
  - unfold onInsert. destruct (maybeSingle _); [|apply table_same].
    destruct (bool_decide _); apply table_same.
  - rewrite markMessagesAsSeen_unfold.
    destruct (selectedConversation c); [|apply table_same].
    destruct (user c); [|apply table_same].
    destruct answered; [apply table_seen | apply table_same].
  - unfold addReaction. destruct (user c); [|apply table_same].
    destruct (find _ _); [|apply table_same].
    destruct error; [apply table_same | apply table_reactions].
  - unfold saveEditMessage. destruct (editingMessage c); [|apply table_same].
    destruct (bool_decide _); [apply table_same|].
    destruct error; [apply table_same | apply table_content].
  - unfold confirmDeleteMessage. destruct (messageToDelete c); [|apply table_same].
    destruct error; [apply table_same | apply table_delete].
  - unfold sendMessage. destruct (selectedConversation c); [|apply table_same].
    destruct (user c); [|apply table_same].
    destruct (bool_decide _); [apply table_same|].
    pose proof (updateUserPresence_messages_tbl now (set_isLoading true c) s) as Htbl.
    destruct (updateUserPresence now (set_isLoading true c, s)) as [cP sP].
    cbn [snd] in Htbl. rewrite <- Htbl.
    destruct error; [apply table_same|].
    destruct (insert_message _ _) eqn:Hins; [|apply table_same].
    eapply table_insert. exact Hins.
  - unfold uploadImage. destruct file; [|apply table_same].
    destruct (selectedConversation c); [|apply table_same].
    destruct (user c); [|apply table_same].
    destruct (negb _); [apply table_same|].
    destruct (_ <? _); [apply table_same|].
    pose proof (updateUserPresence_messages_tbl now (set_isLoading true c) s) as Htbl.
    destruct (updateUserPresence now (set_isLoading true c, s)) as [cP sP].
    cbn [snd] in Htbl. rewrite <- Htbl.
    destruct uploadError; [apply table_same|].
    destruct messageError; [apply table_same|].
    destruct (insert_message _ _) eqn:Hins; [|apply table_same].
    eapply table_insert. exact Hins.
  - rewrite updateUserPresence_messages_tbl. apply table_same.
  - unfold startVideoCall. destruct (selectedConversation c); [|apply table_same].
    destruct (userProfile c); [|apply table_same].
    destruct (user c); [|apply table_same].
    destruct (otherParticipants _ _) as [[|other others]|]; try apply table_same.
    destruct error; [apply table_same|].
    destruct (insert_message _ _) eqn:Hins; [|apply table_same].
    eapply table_insert. exact Hins.
  - unfold endCall. destruct (selectedConversation c); [|apply table_same].
    destruct (user c); apply table_same.
Qed.

Lemma insert_message_Some row tbl tbl' :
  insert_message row tbl = Some tbl' → tbl' = tbl ++ [row] ∧ id row ∉ ids tbl.
Proof.
  unfold insert_message. destruct (bool_decide _) eqn:E; [done|].
  intros [= <-]. split; [done|]. by apply bool_decide_eq_false in E.
Qed.

Lemma mark_row_id conv uid refused m : id (mark_row conv uid refused m) = id m.
Proof.
  unfold mark_row. destruct (decide _); [|done].
  destruct (includes _ _); [done|]. by destruct (refused _).
Qed.

Lemma mark_row_seen conv uid refused m x :
  x ∈ seen m → x ∈ seen (mark_row conv uid refused m).
Proof.
  unfold mark_row. destruct (decide _); [|done].
  destruct (includes _ _); [done|]. destruct (refused _); [done|].
  unfold seen at 2. simpl. intros Hx. apply elem_of_app. by left.
Qed.

Lemma table_change_NoDup tbl tbl' :
  NoDup (ids tbl) → table_change tbl tbl' → NoDup (ids tbl').
Proof.
  intros Hnd Hch. destruct Hch as [| body mid | rs mid | conv uid refused | mid | row tbl' Hins].
  - done.
  - rewrite ids_update_eq_id; [done | by intros []].
  - rewrite ids_update_eq_id; [done | by intros []].
  - rewrite mark_seen_loop_spec by done. unfold ids. rewrite <- list_fmap_compose.
    erewrite list_fmap_ext; [exact Hnd|]. intros _ m _. simpl. apply mark_row_id.
  - unfold delete_eq_id. by apply NoDup_ids_filter.
  - apply insert_message_Some in Hins as [-> Hfresh].
    unfold ids in *. rewrite fmap_app. apply NoDup_app. split; [done|]. split.
    + intros x Hx Hin. apply list_elem_of_singleton in Hin. by subst.
    + apply NoDup_singleton.
Qed.

(** A row of the changed table that carries the key of a row [m] of the
    old table is [m] itself, or what a patch that keeps the marks made of
    it. *)
Lemma table_change_seen tbl tbl' m m' uid :
  NoDup (ids tbl) → table_change tbl tbl' →
  m ∈ tbl → uid ∈ seen m → m' ∈ tbl' → id m' = id m → uid ∈ seen m'.
Proof.
  intros Hnd Hch Hm Hseen Hm' Hid.
  assert (∀ f : Message → Message,
            (∀ x, id (f x) = id x) → (∀ x, uid ∈ seen x → uid ∈ seen (f x)) →
            m' ∈ f <$> tbl → uid ∈ seen m') as Hmap.
  { intros f Hfid Hfseen Hin. apply list_elem_of_fmap in Hin as (m0 & -> & Hm0).
    assert (m0 = m) as ->; [|by apply Hfseen].
    eapply NoDup_ids_inj; eauto. by rewrite <- Hfid. }
  destruct Hch as [| body mid | rs mid | conv who refused | mid | row tbl' Hins].
  - assert (m' = m) as ->; [|done]. eapply NoDup_ids_inj; eauto.
  - apply (Hmap (λ x, if bool_decide (id x = mid) then with_content body x else x));
      [| | exact Hm']; intros x; by destruct (bool_decide _).
  - apply (Hmap (λ x, if bool_decide (id x = mid) then with_reactions rs x else x));
      [| | exact Hm']; intros x; by destruct (bool_decide _).
  - rewrite mark_seen_loop_spec in Hm' by done.
    apply (Hmap (mark_row conv who refused)); [| | exact Hm'].
    + intros x. apply mark_row_id.
    + intros x. apply mark_row_seen.
  - apply list_elem_of_filter in Hm' as [_ Hm'].
    assert (m' = m) as ->; [|done]. eapply NoDup_ids_inj; eauto.
  - apply insert_message_Some in Hins as [-> Hfresh].
    apply elem_of_app in Hm' as [Hm' | Hm'].
    + assert (m' = m) as ->; [|done]. eapply NoDup_ids_inj; eauto.
    + apply list_elem_of_singleton in Hm'. subst m'. exfalso. apply Hfresh.
      rewrite Hid. unfold ids. by apply list_elem_of_fmap_2.
Qed.

Lemma mark_row_already conv uid refused m :
  uid ∈ seen m → mark_row conv uid refused m = m.
Proof.
  intros Hin. unfold mark_row. destruct (decide _); [|done].
  apply includes_spec in Hin. by rewrite Hin.
Qed.

Lemma mark_row_cases conv uid refused m :
  mark_row conv uid refused m = m ∨ uid ∈ seen (mark_row conv uid refused m).
Proof.
  unfold mark_row. destruct (decide _); [|by left].
  destruct (includes uid (seen m)); [by left|].
  destruct (refused (id m)); [by left|].
  right. unfold seen at 1. simpl. apply elem_of_app. right. left.
Qed.

Lemma mark_row_twice conv uid refused m :
  mark_row conv uid refused (mark_row conv uid refused m) = mark_row conv uid refused m.
Proof.
  destruct (mark_row_cases conv uid refused m) as [Hsame | Hin].
  - rewrite Hsame. exact Hsame.
  - by apply mark_row_already.
Qed.

Lemma mark_row_NoDup conv uid refused m :
  NoDup (seen m) → NoDup (seen (mark_row conv uid refused m)).
Proof.
  intros Hnd. unfold mark_row. destruct (decide _); [|done].
  destruct (includes uid (seen m)) eqn:Hinc; [done|].
  destruct (refused _); [done|]. unfold seen at 1. simpl.
  apply NoDup_app. split; [done|]. split; [|apply NoDup_singleton].
  intros x Hx Hin. apply list_elem_of_singleton in Hin. subst x.
  apply includes_spec in Hx. congruence.
Qed.

(** ** Seen marks with several sessions *)

Lemma select_unread_spec conv uid tbl mid sb :
  (mid, sb) ∈ select_unread conv uid tbl ↔
  ∃ m, m ∈ tbl ∧ id m = mid ∧ seen_by m = sb ∧
       conversation_id m = conv ∧ sender_id m ≠ uid.
Proof.
  unfold select_unread. rewrite list_elem_of_fmap. split.
  - intros (m & [= -> ->] & Hm). apply list_elem_of_filter in Hm as [[Hc Hs] Hm].
    by exists m.
  - intros (m & Hm & <- & <- & Hc & Hs). exists m. split; [done|].
    by apply list_elem_of_filter.
Qed.

(** What one pass makes of each row. *)
Lemma mark_seen_pass_lookup uid refused mid sb tbl i m :
  tbl !! i = Some m →
  mark_seen_pass uid refused (mid, sb) tbl !! i
  = Some (if decide (id m = mid ∧ (uid ∉ default [] sb) ∧ refused = false)
          then with_seen_by (Some (default [] sb ++ [uid])) m else m).
Proof.
  intros Hi. unfold mark_seen_pass. cbn [fst snd].
  destruct (includes uid (default [] sb)) eqn:Hinc.
  { apply includes_spec in Hinc. rewrite decide_False; [done | tauto]. }
  assert (uid ∉ default [] sb) as Hout.
  { intros Hin. apply includes_spec in Hin. congruence. }
  destruct refused.
  { rewrite decide_False; [done|]. by intros (_ & _ & [=]). }
  unfold update_eq_id. rewrite list_lookup_fmap, Hi. cbn [fmap option_fmap option_map].
  f_equal. case_bool_decide as Hid.
  - by rewrite decide_True.
  - rewrite decide_False; [done | tauto].
Qed.

Lemma mark_seen_pass_ids uid refused msg tbl :
  ids (mark_seen_pass uid refused msg tbl) = ids tbl.
Proof.
  unfold mark_seen_pass. destruct (includes _ _); [done|]. destruct refused; [done|].
  apply ids_update_eq_id. by intros [].
Qed.

Lemma mark_seen_pass_length uid refused msg tbl :
  length (mark_seen_pass uid refused msg tbl) = length tbl.
Proof.
  unfold mark_seen_pass. destruct (includes _ _); [done|]. destruct refused; [done|].
  unfold update_eq_id. by rewrite length_fmap.
Qed.

Lemma accesses_cons a l sh : accesses (a :: l) sh = accesses l (access a sh).
Proof. done. Qed.

(** The passes of a call one after the other are its whole loop. *)
Lemma seen_passes_loop uid refused calls : ∀ rows s,
  accesses ((λ msg : string * option (list string),
               seen_pass (length calls) (refused msg.1)) <$> rows)
           {| server := s;
              marking := calls ++ [ {| marking_user := uid; marking_rows := rows |} ] |}
  = {| server := set_messages_tbl (mark_seen_loop uid refused rows (messages_tbl s)) s;
       marking := calls ++ [ {| marking_user := uid; marking_rows := [] |} ] |}.
Proof.
  induction rows as [|msg rows IH]; intros s; [by destruct s|].
  rewrite fmap_cons, accesses_cons.
  assert (access (seen_pass (length calls) (refused msg.1))
            {| server := s;
               marking :=
                 calls ++ [ {| marking_user := uid; marking_rows := msg :: rows |} ] |}
          = {| server :=
                 set_messages_tbl
                   (mark_seen_pass uid (refused msg.1) msg (messages_tbl s)) s;
               marking :=
                 calls ++ [ {| marking_user := uid; marking_rows := rows |} ] |}) as ->.
  { unfold access. cbn [marking server].
    rewrite lookup_app_r by lia. rewrite Nat.sub_diag. cbn [lookup list_lookup].
    unfold markMessagesAsSeen_pass. cbn [marking_rows marking_user].
    rewrite insert_app_r_alt by lia. by rewrite Nat.sub_diag. }
  rewrite IH. by destruct s.
Qed.

(** C2, counterexample.  Alice's message has been seen by nobody.  The
    pages of Bob and of Carol both read it; then Bob's update arrives
    and the row lists Bob; then Carol's update arrives, with what Carol's
    page read and Carol appended: Bob has been removed. *)
Lemma seen_by_lost_update :
  let unseen := set_messages_tbl [with_seen_by (Some []) hello] sample_server in
  let both_read :=
    accesses [seen_read true sample_client; seen_read true carols_page]
             {| server := unseen; marking := [] |} in
  let bob_written := access (seen_pass 0 false) both_read in
  let carol_written := access (seen_pass 1 false) bob_written in
  user sample_client = Some "bob" ∧ user carols_page = Some "carol" ∧
  (seen <$> messages_tbl (server both_read)) = [[]] ∧
  (seen <$> messages_tbl (server bob_written)) = [["bob"]] ∧
  (seen <$> messages_tbl (server carol_written)) = [["carol"]] ∧
  ids (messages_tbl (server carol_written)) = ids (messages_tbl (server bob_written)).
Proof. vm_compute. repeat split. Qed.

(** C2, as amended.  On a table with distinct keys, whatever one of the
    sessions does next:
    - a user listed in [seen_by] of a row is still listed in the row of
      the new table that carries the same key, unless what happens is the
      update of a call of [markMessagesAsSeen] that read this row when
      it did not list the user: the row then lists what that call read,
      and the user of the call;
    - the update of a call under way changes the row with the key it
      read, and no other: [seen_by] becomes what was read with the user
      of the call appended, and nothing is written when what was read
      lists that user or the update is refused;
    - the first query of a call writes nothing, and reads the rows of
      the conversation that others sent, as they are then;
    - a call that nothing interrupts (its first query and then its
      updates, with no other access in between) leaves each row that
      already lists its user exactly as it is, adds no duplicate to a row
      without duplicates, and a second such call with the same outcomes
      changes nothing more. *)
Theorem seen_by_monotonic (sh : Shared) :
  NoDup (ids (messages_tbl (server sh))) →
  let tbl := messages_tbl (server sh) in
  (∀ a m uid m',
     m ∈ tbl → uid ∈ seen m →
     m' ∈ messages_tbl (server (access a sh)) → id m' = id m →
     uid ∈ seen m' ∨
     ∃ k call sb rest,
       a = seen_pass k false ∧ marking sh !! k = Some call ∧
       marking_rows call = (id m, sb) :: rest ∧
       (uid ∉ default [] sb) ∧ uid ≠ marking_user call ∧
       seen m' = default [] sb ++ [marking_user call]) ∧
  (∀ k refused call mid sb rest,
     marking sh !! k = Some call → marking_rows call = (mid, sb) :: rest →
     let sh' := access (seen_pass k refused) sh in
     let u := marking_user call in
     marking sh' !! k = Some {| marking_user := u; marking_rows := rest |} ∧
     ∀ i m, tbl !! i = Some m →
            messages_tbl (server sh') !! i
            = Some (if decide (id m = mid ∧ (u ∉ default [] sb) ∧ refused = false)
                    then with_seen_by (Some (default [] sb ++ [u])) m else m)) ∧
  (∀ answered c,
     let sh' := access (seen_read answered c) sh in
     server sh' = server sh ∧
     (sh' = sh ∨
      ∃ conv uid call,
        selectedConversation c = Some conv ∧ user c = Some uid ∧
        marking sh' = marking sh ++ [call] ∧ marking_user call = uid ∧
        ∀ mid sb, (mid, sb) ∈ marking_rows call ↔
                  ∃ m, m ∈ tbl ∧ id m = mid ∧ seen_by m = sb ∧
                       conversation_id m = conv ∧ sender_id m ≠ uid)) ∧
  (∀ c answered refused uid i m,
     user c = Some uid → tbl !! i = Some m → uid ∈ seen m →
     messages_tbl (markMessagesAsSeen answered refused (c, server sh)).2 !! i = Some m) ∧
  (∀ c answered refused i m m',
     tbl !! i = Some m → NoDup (seen m) →
     messages_tbl (markMessagesAsSeen answered refused (c, server sh)).2 !! i = Some m' →
     NoDup (seen m')) ∧
  (∀ c answered refused,
     markMessagesAsSeen answered refused
       (markMessagesAsSeen answered refused (c, server sh))
     = markMessagesAsSeen answered refused (c, server sh)) ∧
  (∀ c answered refused,
     let rows :=
       default [] (marking_rows <$> markMessagesAsSeen_read answered (c, server sh)) in
     server (accesses (seen_read answered c ::
                         ((λ msg : string * option (list string),
                             seen_pass (length (marking sh)) (refused msg.1)) <$> rows))
                      sh)
     = (markMessagesAsSeen answered refused (c, server sh)).2).
Proof.
  intros Hnd tbl. destruct sh as [s calls]. cbn [server marking] in *.
  assert (∀ c answered refused,
            (markMessagesAsSeen answered refused (c, s) = (c, s)) ∨
            (∃ conv uid, selectedConversation c = Some conv ∧ user c = Some uid ∧
               markMessagesAsSeen answered refused (c, s)
               = (c, set_messages_tbl (mark_row conv uid refused <$> messages_tbl s) s)))
    as Hcases.
  { intros c answered refused. rewrite markMessagesAsSeen_unfold.
    destruct (selectedConversation c) as [conv|]; [|by left].
    destruct (user c) as [uid|]; [|by left].
    destruct answered; [|by left]. right. exists conv, uid.
    rewrite mark_seen_loop_spec by done. done. }
  assert (∀ k refused call mid sb rest,
            calls !! k = Some call → marking_rows call = (mid, sb) :: rest →
            access (seen_pass k refused) {| server := s; marking := calls |}
            = {| server :=
                   set_messages_tbl
                     (mark_seen_pass (marking_user call) refused (mid, sb) tbl) s;
                 marking :=
                   <[k := {| marking_user := marking_user call; marking_rows := rest |}]>
                     calls |}) as Hpass.
  { intros k refused call mid sb rest Hk Hrows. unfold access. cbn [marking server].
    rewrite Hk. unfold markMessagesAsSeen_pass. by rewrite Hrows. }
  split; [|split; [|split; [|split; [|split; [|split]]]]].
  - intros a m uid m' Hm Hseen Hm' Hid.
    assert (m' ∈ tbl → uid ∈ seen m') as Hsame.
    { intros Hin. assert (m' = m) as ->; [|done]. eapply NoDup_ids_inj; eauto. }
    destruct a as [now e c | answered c | k refused].
    + left. cbn [access server] in Hm'.
      eapply table_change_seen; [exact Hnd | | exact Hm | exact Hseen | exact Hm' | exact Hid].
      apply (step_table_change now e (c, s)).
    + left. apply Hsame. cbn [access server marking] in Hm'.
      by destruct (markMessagesAsSeen_read answered (c, s)).
    + destruct (calls !! k) as [call|] eqn:Hk;
        [|left; apply Hsame; cbn [access marking] in Hm'; by rewrite Hk in Hm'].
      destruct (marking_rows call) as [|[mid sb] rest] eqn:Hrows.
      { left. apply Hsame. cbn [access marking server] in Hm'. rewrite Hk in Hm'.
        unfold markMessagesAsSeen_pass in Hm'. by rewrite Hrows in Hm'. }
      rewrite (Hpass k refused call mid sb rest Hk Hrows) in Hm'.
      cbn [server messages_tbl set_messages_tbl] in Hm'.
      apply list_elem_of_lookup in Hm' as [i Hi].
      destruct (tbl !! i) as [m0|] eqn:Hi0.
      2:{ apply lookup_ge_None in Hi0. apply lookup_lt_Some in Hi.
          rewrite mark_seen_pass_length in Hi. lia. }
      rewrite (mark_seen_pass_lookup _ _ _ _ _ _ _ Hi0) in Hi. injection Hi as Hm'.
      destruct (decide (id m0 = mid ∧ (marking_user call ∉ default [] sb) ∧ refused = false))
        as [(Hmid & Hout & ->) | Hno].
      2:{ left. apply Hsame. subst m'. by eapply list_elem_of_lookup_2. }
      subst m'. cbn [id with_seen_by] in Hid.
      assert (m0 = m) as ->.
      { eapply NoDup_ids_inj; eauto. by eapply list_elem_of_lookup_2. }
      assert (seen (with_seen_by (Some (default [] sb ++ [marking_user call])) m)
              = default [] sb ++ [marking_user call]) as Hnew by done.
      destruct (decide (uid ∈ default [] sb ++ [marking_user call])) as [Hin | Hnot].
      * left. by rewrite Hnew.
      * right. exists k, call, sb, rest. rewrite not_elem_of_app in Hnot.
        destruct Hnot as [Hsb Hu]. rewrite list_elem_of_singleton in Hu.
        rewrite Hmid. done.
  - intros k refused call mid sb rest Hk Hrows. cbn zeta.
    rewrite (Hpass k refused call mid sb rest Hk Hrows). cbn [marking server]. split.
    + rewrite list_lookup_insert_eq; [done|]. by eapply lookup_lt_Some.
    + intros i m Hi. cbn [messages_tbl set_messages_tbl].
      by apply mark_seen_pass_lookup.
  - intros answered c. cbn zeta. unfold access. cbn [server marking].
    unfold markMessagesAsSeen_read.
    destruct (selectedConversation c) as [conv|]; [|by split; [|left]].
    destruct (user c) as [uid|]; [|by split; [|left]].
    destruct answered; [|by split; [|left]].
    cbn [server marking]. split; [done|]. right. exists conv, uid. eexists.
    split; [done|]. split; [done|]. split; [reflexivity|]. split; [done|].
    intros mid sb. cbn [marking_rows]. apply select_unread_spec.
  - intros c answered refused uid i m Huser Hi Hseen.
    destruct (Hcases c answered refused) as [-> | (conv & uid' & _ & Huser' & ->)]; [done|].
    cbn [snd set_messages_tbl messages_tbl]. fold tbl. rewrite list_lookup_fmap, Hi. simpl.
    assert (uid' = uid) as -> by congruence. by rewrite mark_row_already.
  - intros c answered refused i m m' Hi Hm.
    destruct (Hcases c answered refused) as [-> | (conv & uid & _ & _ & ->)].
    + cbn [snd]. fold tbl. rewrite Hi. by intros [= <-].
    + cbn [snd set_messages_tbl messages_tbl]. fold tbl. rewrite list_lookup_fmap, Hi. simpl.
      intros [= <-]. by apply mark_row_NoDup.
  - intros c answered refused.
    destruct (Hcases c answered refused) as [Heq | (conv & uid & Hsel & Huser & Heq)].
    + by rewrite !Heq.
    + rewrite Heq. rewrite markMessagesAsSeen_unfold. rewrite Hsel, Huser.
      destruct answered.
      * cbn [messages_tbl set_messages_tbl]. f_equal.
        rewrite mark_seen_loop_spec.
        -- unfold set_messages_tbl. cbn. f_equal. rewrite <- list_fmap_compose.
           apply list_fmap_ext. intros _ m _. simpl. apply mark_row_twice.
        -- unfold ids. rewrite <- list_fmap_compose.
           erewrite list_fmap_ext; [exact Hnd|]. intros _ m _. simpl. apply mark_row_id.
      * rewrite markMessagesAsSeen_unfold in Heq. rewrite Hsel, Huser in Heq.
        by rewrite <- Heq.
  - intros c answered refused. cbn zeta. unfold markMessagesAsSeen.
    rewrite accesses_cons. unfold access at 1. cbn [server marking].
    destruct (markMessagesAsSeen_read answered (c, s)) as [[uid rows]|]; [|done].
    cbn [fmap option_fmap option_map from_option marking_rows marking_user fst snd].
    by rewrite seen_passes_loop.
Qed.

(** The statement on the sample table, whose keys are distinct, with a
    call of Bob's page under way that read Alice's message before Carol
    was listed: its update removes Carol. *)
Lemma seen_by_monotonic_witness :
  let sh := {| server := sample_server;
               marking := [ {| marking_user := "bob";
                               marking_rows := [("m1", Some [])] |} ] |} in
  NoDup (ids (messages_tbl (server sh))) ∧
  (seen <$> messages_tbl (server sh)) = [["carol"]; []] ∧
  (seen <$> messages_tbl (server (access (seen_pass 0 false) sh))) = [["bob"]; []] ∧
  markMessagesAsSeen true (λ _, false) (markMessagesAsSeen true (λ _, false) sample_world)
  = markMessagesAsSeen true (λ _, false) sample_world.
Proof.
  cbn zeta.
  assert (NoDup (ids (messages_tbl sample_server))) as Hnd.
  { apply (bool_decide_unpack _). vm_compute. exact I. }
  split; [exact Hnd|]. split; [reflexivity|]. split; [reflexivity|].
  apply (seen_by_monotonic
           {| server := sample_server;
              marking := [ {| marking_user := "bob";
                              marking_rows := [("m1", Some [])] |} ] |} Hnd).
Defined.

(** ** The sender is never marked *)

Lemma markMessagesAsSeen_cases answered refused c s :
  NoDup (ids (messages_tbl s)) →
  markMessagesAsSeen answered refused (c, s) = (c, s) ∨
  ∃ conv uid, selectedConversation c = Some conv ∧ user c = Some uid ∧
    markMessagesAsSeen answered refused (c, s)
    = (c, set_messages_tbl (mark_row conv uid refused <$> messages_tbl s) s).
Proof.
  intros Hnd. rewrite markMessagesAsSeen_unfold.
  destruct (selectedConversation c) as [conv|]; [|by left].
  destruct (user c) as [uid|]; [|by left].
  destruct answered; [|by left]. right. exists conv, uid.
  rewrite mark_seen_loop_spec by done. done.
Qed.

Lemma mark_row_sender conv uid refused m :
  sender_id m = uid → mark_row conv uid refused m = m.
Proof. intros Hs. unfold mark_row. rewrite decide_False; [done|]. tauto. Qed.

Lemma mark_row_changed conv uid refused m :
  mark_row conv uid refused m ≠ m →
  sender_id m ≠ uid ∧ (uid ∉ seen m) ∧
  mark_row conv uid refused m = with_seen_by (Some (seen m ++ [uid])) m.
Proof.
  unfold mark_row. destruct (decide _) as [[_ Hs]|]; [|done].
  destruct (includes uid (seen m)) eqn:Hinc; [done|].
  destruct (refused _); [done|]. intros _. split; [done|]. split; [|done].
  intros Hin. apply includes_spec in Hin. congruence.
Qed.

(** C3.  On a table with distinct keys, a call of [markMessagesAsSeen]
    by user [uid] leaves every row sent by [uid] as it is; a row it does
    change was sent by someone else, did not list [uid] yet, and differs
    only by [uid] appended to [seen_by].  Hence if no row lists its own
    sender before the call, none does after it. *)
Theorem markMessagesAsSeen_skips_sender (w : World) (answered : bool)
    (refused : string → bool) (uid : string) :
  NoDup (ids (messages_tbl w.2)) → user w.1 = Some uid →
  let tbl := messages_tbl w.2 in
  let tbl' := messages_tbl (markMessagesAsSeen answered refused w).2 in
  (∀ i m, tbl !! i = Some m → sender_id m = uid → tbl' !! i = Some m) ∧
  (∀ i m m', tbl !! i = Some m → tbl' !! i = Some m' → m' ≠ m →
     sender_id m ≠ uid ∧ (uid ∉ seen m) ∧
     m' = with_seen_by (Some (seen m ++ [uid])) m) ∧
  ((∀ m, m ∈ tbl → sender_id m ∉ seen m) → ∀ m', m' ∈ tbl' → sender_id m' ∉ seen m').
Proof.
  intros Hnd Huser tbl tbl'. subst tbl tbl'. destruct w as [c s]. cbn [fst snd] in *.
  destruct (markMessagesAsSeen_cases answered refused c s Hnd)
    as [-> | (conv & uid' & _ & Huser' & ->)].
  { cbn [snd]. split; [done|]. split; [|done]. intros i m m' -> [= ->]. done. }
  assert (uid' = uid) as -> by congruence.
  cbn [snd set_messages_tbl messages_tbl]. split; [|split].
  - intros i m Hi Hs. rewrite list_lookup_fmap, Hi. simpl. by rewrite mark_row_sender.
  - intros i m m' Hi. rewrite list_lookup_fmap, Hi. simpl. intros [= <-] Hne.
    by apply mark_row_changed.
  - intros Hinv m' Hin. apply list_elem_of_fmap in Hin as (m & -> & Hm).
    destruct (decide (mark_row conv uid refused m = m)) as [-> | Hne]; [by apply Hinv|].
    apply mark_row_changed in Hne as (Hs & Hnot & ->).
    assert (seen (with_seen_by (Some (seen m ++ [uid])) m) = seen m ++ [uid]) as -> by done.
    cbn [sender_id with_seen_by]. rewrite elem_of_app, list_elem_of_singleton.
    intros [Hin | Heq]; [by apply (Hinv m) | done].
Qed.

(** The statement on the sample table: Bob marks the conversation seen
    and his own reply stays unmarked. *)
Lemma markMessagesAsSeen_skips_sender_witness :
  NoDup (ids (messages_tbl sample_world.2)) ∧ user sample_world.1 = Some "bob" ∧
  ∀ m', m' ∈ messages_tbl (markMessagesAsSeen true (λ _, false) sample_world).2 →
        sender_id m' ∉ seen m'.
Proof.
  assert (NoDup (ids (messages_tbl sample_world.2))) as Hnd.
  { apply (bool_decide_unpack _). vm_compute. exact I. }
  split; [exact Hnd|]. split; [reflexivity|].
  apply (markMessagesAsSeen_skips_sender sample_world true (λ _, false) "bob" Hnd eq_refl).
  intros m Hm. cbn in Hm. apply elem_of_cons in Hm as [-> | Hm].
  - apply (bool_decide_unpack _). vm_compute. exact I.
  - apply list_elem_of_singleton in Hm as ->.
    apply (bool_decide_unpack _). vm_compute. exact I.
Defined.

(** ** Deleting *)

(** C4, counterexample.  Bob deletes his reply: no record with its key is
    left, neither in the table nor in the list of the page. *)
Lemma confirmDeleteMessage_erases :
  let w := run [(5000, AskDelete (Some reply)); (6000, ConfirmDeleteMessage false)]
               sample_world in
  ids (messages_tbl sample_world.2) = ["m1"; "m2"] ∧
  ids (messages_tbl w.2) = ["m1"] ∧ ids (messages w.1) = ["m1"] ∧
  ¬ ∃ m, (m ∈ messages_tbl w.2 ∨ m ∈ messages w.1) ∧ id m = id reply.
Proof.
  intros w. split; [done|]. split; [by vm_compute|]. split; [by vm_compute|].
  assert (messages_tbl w.2 = [hello]) as -> by (vm_compute; reflexivity).
  assert (messages w.1 = [hello]) as -> by (vm_compute; reflexivity).
  intros (m & Hin & Hid).
  assert (m = hello) as -> by (destruct Hin as [Hin | Hin]; by apply list_elem_of_singleton in Hin).
  vm_compute in Hid. discriminate.
Qed.

(** C4, as amended.  A successful delete removes the record: afterwards
    the table and the list of the page hold exactly the former records
    whose key differs from the deleted one, the pending choice is
    cleared, and the [DELETE] handler of any other page drops the record
    with that key the same way.  A refused delete changes nothing. *)
Theorem confirmDeleteMessage_removes (c : Client) (s : Server) (doomed : Message) :
  messageToDelete c = Some doomed →
  let w' := confirmDeleteMessage false (c, s) in
  (∀ m, m ∈ messages_tbl w'.2 ↔ m ∈ messages_tbl s ∧ id m ≠ id doomed) ∧
  (∀ m, m ∈ messages w'.1 ↔ m ∈ messages c ∧ id m ≠ id doomed) ∧
  messageToDelete w'.1 = None ∧
  (∀ other m, m ∈ messages (onDelete doomed other) ↔ m ∈ messages other ∧ id m ≠ id doomed) ∧
  confirmDeleteMessage true (c, s) = (c, s).
Proof.
  intros Hdel w'. subst w'. unfold confirmDeleteMessage. rewrite Hdel.
  cbn [fst snd set_messages_tbl set_messageToDelete set_messages messages_tbl messages
       messageToDelete].
  split; [|split; [|split; [|split]]]; try done.
  - intros m. unfold delete_eq_id. rewrite list_elem_of_filter. tauto.
  - intros m. rewrite list_elem_of_filter. tauto.
  - intros other m. unfold onDelete. cbn [set_messages messages].
    rewrite list_elem_of_filter. tauto.
Qed.

(** The amended statement at Bob's reply. *)
Lemma confirmDeleteMessage_removes_witness :
  messageToDelete (set_messageToDelete (Some reply) sample_client) = Some reply ∧
  ∀ m, m ∈ messages_tbl
             (confirmDeleteMessage false
                (set_messageToDelete (Some reply) sample_client, sample_server)).2
       ↔ m ∈ messages_tbl sample_server ∧ id m ≠ id reply.
Proof.
  split; [reflexivity|].
  apply (confirmDeleteMessage_removes (set_messageToDelete (Some reply) sample_client)
           sample_server reply).
  reflexivity.
Defined.

(** ** Ending and declining a call *)

(** C5, counterexample.  Alice rings Bob and Bob declines: nothing is
    broadcast, so Alice is not told.  Alice rings Bob from a conversation
    ["y"] that the list of Bob's page does not hold (the list was fetched
    before the conversation was made), Bob accepts and later ends the
    call: the conversation of the call is the selected one, and again
    nothing is broadcast, although Alice takes part in it. *)
Lemma call_end_not_broadcast :
  let ring_y := {| roomUrl := "https://meet.jit.si/chatapp-3"; caller := alice;
                   conversationId := "y"; callId := Some "c3" |} in
  let accepted := run [(0, IncomingCallReceived ring_y); (5000, AcceptCall)] sample_world in
  let ended := step 60000 EndCall accepted in
  incomingCall (run [(0, IncomingCallReceived ring)] sample_world).1 = Some ring ∧
  sent (run [(0, IncomingCallReceived ring); (5000, DeclineCall)] sample_world).2 = [] ∧
  showVideoCall accepted.1 = true ∧ selectedConversation accepted.1 = Some "y" ∧
  conv_id <$> conversations accepted.1 = ["x"] ∧
  showVideoCall ended.1 = false ∧ sent ended.2 = [].
Proof. vm_compute. repeat split. Qed.

Lemma calls_channel_inj (a b : string) : calls_channel a = calls_channel b → a = b.
Proof. unfold calls_channel. intros H. by simplify_eq/=. Qed.

(** C5, as amended.  When a user ends a call with a conversation
    selected, a [call_ended] broadcast goes to the channel of every other
    participant that the list of the page holds for the selected
    conversation, and to no one else; when the list does not hold that
    conversation nothing is sent.  The call state of the page is then
    cleared.  The selected conversation is the one of the call when the
    call has just been accepted, and starting a call leaves the
    selection as it is.  Declining only clears the pending invitation:
    it sends nothing. *)
Theorem endCall_broadcasts (c : Client) (s : Server) (conv uid : string) :
  selectedConversation c = Some conv → user c = Some uid →
  let w' := endCall (c, s) in
  let listed := default [] (getCurrentConversation c ≫= participants) in
  (∃ new, sent w'.2 = sent s ++ new ∧
     (∀ b, b ∈ new ↔
           ∃ p, p ∈ listed ∧ profile_user_id p ≠ uid ∧
                b = mkBroadcast (calls_channel (profile_user_id p)) (call_ended uid conv)) ∧
     (∀ b, b ∈ new → channel b ≠ calls_channel uid)) ∧
  (getCurrentConversation c = None → sent w'.2 = sent s) ∧
  incomingCall w'.1 = None ∧ showVideoCall w'.1 = false ∧ videoCallUrl w'.1 = "" ∧
  (∀ c0 call, incomingCall c0 = Some call →
              selectedConversation (acceptCall c0) = Some (conversationId call)) ∧
  (∀ now rnd1 rnd2 new_id error c0 s0,
     selectedConversation (startVideoCall now rnd1 rnd2 new_id error (c0, s0)).1
     = selectedConversation c0) ∧
  (∀ now w, (step now DeclineCall w).2 = w.2 ∧
            incomingCall (step now DeclineCall w).1 = None).
Proof.
  intros Hsel Huser w' listed. subst w'. unfold endCall. rewrite Hsel, Huser.
  cbn [fst snd set_sent sent set_incomingCall set_videoCallUrl set_showVideoCall
       incomingCall showVideoCall videoCallUrl].
  assert (default [] (otherParticipants uid c)
          = filter (λ p, profile_user_id p ≠ uid) listed) as Hothers.
  { unfold otherParticipants, listed.
    by destruct (getCurrentConversation c ≫= participants). }
  rewrite Hothers.
  split; [|split; [|split; [|split; [|split; [|split; [|split]]]]]]; try done.
  - eexists. split; [reflexivity|]. split.
    + intros b. rewrite list_elem_of_fmap. split.
      * intros (p & -> & Hp). apply list_elem_of_filter in Hp as [Hne Hp]. by exists p.
      * intros (p & Hp & Hne & ->). exists p. split; [done|].
        by apply list_elem_of_filter.
    + intros b Hb. apply list_elem_of_fmap in Hb as (p & -> & Hp).
      apply list_elem_of_filter in Hp as [Hne Hp]. cbn [channel].
      intros Heq. apply calls_channel_inj in Heq. done.
  - intros Hnone. unfold listed. rewrite Hnone. cbn. apply app_nil_r.
  - intros c0 call Hcall. unfold acceptCall. by rewrite Hcall.
  - intros now rnd1 rnd2 new_id error c0 s0. unfold startVideoCall.
    destruct (selectedConversation c0) eqn:E0; [|done].
    destruct (userProfile c0); [|done]. destruct (user c0); [|done].
    destruct (otherParticipants _ c0) as [[|other others]|]; [done | | done].
    by destruct (if error then None else _).
Qed.

(** The amended statement at Bob's page. *)
Lemma endCall_broadcasts_witness :
  selectedConversation sample_client = Some "x" ∧ user sample_client = Some "bob" ∧
  (channel <$> sent (endCall sample_world).2) = ["calls-alice"; "calls-carol"] ∧
  incomingCall (endCall sample_world).1 = None.
Proof.
  split; [reflexivity|]. split; [reflexivity|]. split; [reflexivity|].
  apply (endCall_broadcasts sample_client sample_server "x" "bob"); reflexivity.
Defined.

(** ** Images *)

(** C6.  A file of more than 10 * 1024 * 1024 bytes, or whose type does
    not start with [image/], is turned away: client and server are left
    exactly as they were, so no row is created, nothing is uploaded and
    nothing is broadcast.  This holds in particular for 11 MiB. *)
Theorem uploadImage_rejects (file : File) (now : Timestamp) (new_id : string)
    (uploadError messageError : bool) (w : World) :
  (10 * 1024 * 1024 < file_size file ∨ startsWith (file_type file) "image/" = false) →
  uploadImage (Some file) now new_id uploadError messageError w = w ∧
  (step now (UploadImage (Some file) new_id uploadError messageError) w).2 = w.2 ∧
  (file_size file = 11 * 1024 * 1024 →
   uploadImage (Some file) now new_id uploadError messageError w = w).
Proof.
  intros Hbad.
  assert (∀ w, uploadImage (Some file) now new_id uploadError messageError w = w) as Hrej.
  { intros [c s]. unfold uploadImage.
    destruct (selectedConversation c); [|done]. destruct (user c); [|done].
    destruct Hbad as [Hsize | Htype].
    - destruct (negb _); [done|].
      assert ((10 * 1024 * 1024 <? file_size file) = true) as -> by (apply Z.ltb_lt; lia).
      done.
    - by rewrite Htype. }
  split; [apply Hrej|]. split; [|intros _; apply Hrej].
  destruct w as [c s]. unfold step. cbn [fst snd]. by rewrite Hrej.
Qed.

(** The statement at an image of 11 MiB. *)
Lemma uploadImage_rejects_witness :
  10 * 1024 * 1024 < file_size big_image ∧
  uploadImage (Some big_image) 5000 "m3" false false sample_world = sample_world.
Proof.
  assert (10 * 1024 * 1024 < file_size big_image) as Hbig by (vm_compute; reflexivity).
  split; [exact Hbig|].
  exact (proj1 (uploadImage_rejects big_image 5000 "m3" false false sample_world
                  (or_introl Hbig))).
Defined.

(** At the limit an image goes through: the file is stored and a row
    pointing to it is appended. *)
Example uploadImage_accepts :
  let w := uploadImage (Some full_image) 5000 "m3" false false sample_world in
  ids (messages_tbl w.2) = ["m1"; "m2"; "m3"] ∧
  image_url <$> last (messages_tbl w.2)
    = Some (Some "https://files.example/chat-images/bob/5000.png") ∧
  fst <$> chat_images w.2 = ["bob/5000.png"].
Proof. vm_compute. done. Qed.

(** ** What the timers leave alone *)

Lemma run_timers_frame {A} (f : Client → A) now pending :
  (∀ p c, f (missedCall p c) = f c) →
  ∀ c, f (run_timers now pending c).1 = f c.
Proof.
  intros Hf. induction pending as [|[due p] rest IH]; intros c; [done|].
  cbn [run_timers]. destruct (due <=? now).
  - rewrite IH. apply Hf.
  - specialize (IH c). destruct (run_timers now rest c) as [c' kept]. exact IH.
Qed.

Lemma tick_frame {A} (f : Client → A) now c :
  (∀ p c, f (missedCall p c) = f c) →
  (∀ k c, f (set_timers k c) = f c) →
  f (tick now c) = f c.
Proof.
  intros Hf Hset. unfold tick.
  pose proof (run_timers_frame f now (timers c) Hf c) as H.
  destruct (run_timers now (timers c) c) as [c' kept]. rewrite Hset. exact H.
Qed.

Lemma missedCall_onlineUsers p c : onlineUsers (missedCall p c) = onlineUsers c.
Proof.
  unfold missedCall. destruct (incomingCall c); [|done]. by destruct (bool_decide _).
Qed.

Lemma tick_onlineUsers now c : onlineUsers (tick now c) = onlineUsers c.
Proof. apply tick_frame; [apply missedCall_onlineUsers | done]. Qed.

(** ** Presence *)

(** C7, counterexample.  Alice was last active at instant 0.  The set of
    online users is fetched one second later; ten minutes after that,
    with no fetch in between, the page still reports her online. *)
Lemma fetchOnlineUsers_stale :
  let w := run [(1000, FetchOnlineUsers true); (601000, Elapse)] sample_world in
  last_seen alice = Some 0 ∧
  isUserOnline w.1 (profile_user_id alice) = true ∧
  ¬ (601000 - 0 ≤ 5 * 60 * 1000).
Proof. split; [done|]. split; [by vm_compute | lia]. Qed.

Lemma gte_spec (v : option Timestamp) (t : Timestamp) :
  gte v t = true ↔ ∃ x, v = Some x ∧ t ≤ x.
Proof.
  unfold gte. destruct v as [x|].
  - rewrite Z.leb_le. split; [by exists x | by intros (? & [= <-] & ?)].
  - split; [done | by intros (? & ? & ?)].
Qed.

(** C7, as amended.  At the instant [now] of a fetch that is answered,
    a user enters the stored set exactly when some profile of theirs has
    [now - last_seen ≤ 5 minutes]; an unanswered fetch empties the set.
    [isUserOnline] reads this stored set, and no event other than a
    fetch changes it: nothing expires between two fetches. *)
Theorem fetchOnlineUsers_window :
  (∀ now c s uid,
     isUserOnline (fetchOnlineUsers now true (c, s)).1 uid = true ↔
     ∃ p t, p ∈ profiles_tbl s ∧ profile_user_id p = uid ∧
            last_seen p = Some t ∧ now - t ≤ 5 * 60 * 1000) ∧
  (∀ now c s uid, isUserOnline (fetchOnlineUsers now false (c, s)).1 uid = false) ∧
  (∀ c uid, isUserOnline c uid = true ↔ uid ∈ onlineUsers c) ∧
  (∀ now e w, (∀ ok, e ≠ FetchOnlineUsers ok) →
     onlineUsers (step now e w).1 = onlineUsers w.1).
Proof.
  split; [|split; [|split]].
  - intros now c s uid. unfold isUserOnline, fetchOnlineUsers.
    cbn [fst set_onlineUsers onlineUsers from_option Datatypes.id].
    rewrite bool_decide_eq_true, elem_of_list_to_set, list_elem_of_fmap. split.
    + intros (p & -> & Hp). apply list_elem_of_filter in Hp as [Hgte Hp].
      apply Is_true_true, gte_spec in Hgte as (t & Ht & Hle).
      exists p, t. repeat split; [done | done | lia].
    + intros (p & t & Hp & <- & Ht & Hle). exists p. split; [done|].
      apply list_elem_of_filter. split; [|done].
      apply Is_true_true, gte_spec. exists t. split; [done | lia].
  - intros now c s uid. unfold isUserOnline, fetchOnlineUsers.
    cbn [fst set_onlineUsers onlineUsers from_option Datatypes.id].
    apply bool_decide_eq_false. set_solver.
  - intros c uid. unfold isUserOnline. apply bool_decide_eq_true.
  - intros now e [c0 s] Hne. unfold step. cbn [fst snd].
    rewrite <- (tick_onlineUsers now c0). set (c := tick now c0). clearbody c.
    destruct e; try done; try (by destruct (Hne ok));
      unfold fetchUserProfile, fetchConversations, fetchMessages, onInsert,
        markMessagesAsSeen, addReaction, saveEditMessage, confirmDeleteMessage,
        sendMessage, uploadImage, updateUserPresence, startVideoCall, onIncomingCall,
        acceptCall, endCall;
      by repeat case_match; simplify_eq/=.
Qed.

(** ** The 30-second timer *)

Lemma run_timers_kept now pending : ∀ c,
  (run_timers now pending c).2 = filter (λ q, now < q.1) pending.
Proof.
  induction pending as [|[due p] rest IH]; intros c; [done|].
  cbn [run_timers]. rewrite filter_cons. cbn [fst].
  destruct (due <=? now) eqn:E.
  - apply Z.leb_le in E. rewrite decide_False by lia. apply IH.
  - apply Z.leb_gt in E. rewrite decide_True by lia.
    specialize (IH c). destruct (run_timers now rest c) as [c' kept].
    cbn [snd] in *. by rewrite IH.
Qed.

Lemma run_timers_inert now pending c :
  (∀ q, q ∈ pending → q.1 ≤ now → missedCall q.2 c = c) →
  (run_timers now pending c).1 = c.
Proof.
  induction pending as [|[due p] rest IH]; intros Hinert; [done|].
  cbn [run_timers]. destruct (due <=? now) eqn:E.
  - apply Z.leb_le in E.
    assert (missedCall p c = c) as -> by (apply (Hinert (due, p)); [left | done]).
    apply IH. intros q Hq. apply Hinert. by right.
  - assert ((run_timers now rest c).1 = c) as IH'.
    { apply IH. intros q Hq. apply Hinert. by right. }
    destruct (run_timers now rest c) as [c' kept]. exact IH'.
Qed.

Lemma run_timers_app now l1 l2 c :
  run_timers now (l1 ++ l2) c
  = let r1 := run_timers now l1 c in
    let r2 := run_timers now l2 r1.1 in (r2.1, r1.2 ++ r2.2).
Proof.
  revert c. induction l1 as [|[due p] rest IH]; intros c.
  - cbn. by destruct (run_timers now l2 c).
  - cbn [app run_timers]. destruct (due <=? now); [apply IH|].
    rewrite IH. cbn zeta.
    destruct (run_timers now rest c) as [c' k1]. cbn [fst snd].
    by destruct (run_timers now l2 c') as [c'' k2].
Qed.

Lemma tick_unfold now c :
  tick now c = set_timers (filter (λ q, now < q.1) (timers c))
                          (run_timers now (timers c) c).1.
Proof.
  unfold tick. pose proof (run_timers_kept now (timers c) c) as Hk.
  destruct (run_timers now (timers c) c) as [c' kept]. cbn [fst snd] in *. by rewrite Hk.
Qed.

Lemma tick_inert now c :
  (∀ q, q ∈ timers c → q.1 ≤ now → missedCall q.2 c = c) →
  tick now c = set_timers (filter (λ q, now < q.1) (timers c)) c.
Proof. intros H. rewrite tick_unfold. by rewrite run_timers_inert. Qed.

Lemma missedCall_none p c : incomingCall c = None → missedCall p c = c.
Proof. intros H. unfold missedCall. by rewrite H. Qed.

Lemma missedCall_other p prev c :
  incomingCall c = Some prev → callId prev ≠ callId p → missedCall p c = c.
Proof.
  intros H Hne. unfold missedCall. rewrite H. by rewrite bool_decide_eq_false_2.
Qed.

Lemma missedCall_same p c :
  incomingCall c = Some p →
  missedCall p c = set_incomingCall None (set_toasts (toasts c ++ [missed_toast p]) c).
Proof.
  intros H. unfold missedCall. rewrite H. by rewrite bool_decide_eq_true_2.
Qed.

Lemma missedCall_user p c : user (missedCall p c) = user c.
Proof.
  unfold missedCall. destruct (incomingCall c); [|done]. by destruct (bool_decide _).
Qed.

Lemma tick_user now c : user (tick now c) = user c.
Proof. apply tick_frame; [apply missedCall_user | done]. Qed.

Lemma tick_timers now c : timers (tick now c) = filter (λ q, now < q.1) (timers c).
Proof. rewrite tick_unfold. done. Qed.

Lemma tick_none now c :
  incomingCall c = None →
  tick now c = set_timers (filter (λ q, now < q.1) (timers c)) c.
Proof. intros H. apply tick_inert. intros q _ _. by apply missedCall_none. Qed.

(** What the passage of time makes of an invitation that waits: it is
    the pending one, its timer is the last one set, and no older timer
    carries its call id. *)
Lemma tick_waiting now c p due olds :
  incomingCall c = Some p → timers c = olds ++ [(due, p)] →
  (∀ q, q ∈ olds → callId q.2 ≠ callId p) →
  (now < due →
   incomingCall (tick now c) = Some p ∧ toasts (tick now c) = toasts c ∧
   timers (tick now c) = filter (λ q, now < q.1) olds ++ [(due, p)]) ∧
  (due ≤ now →
   incomingCall (tick now c) = None ∧
   toasts (tick now c) = toasts c ++ [missed_toast p]).
Proof.
  intros Hcall Htimers Hfresh.
  assert ((run_timers now olds c).1 = c) as Holds.
  { apply run_timers_inert. intros q Hq _. apply (missedCall_other _ p); [done|].
    intros Heq. by apply (Hfresh q Hq). }
  rewrite tick_unfold, Htimers, run_timers_app, filter_app. cbn zeta. cbn [fst snd].
  rewrite Holds. cbn [run_timers]. rewrite filter_cons, filter_nil. cbn [fst].
  split.
  - intros Hearly. assert ((due <=? now) = false) as -> by (apply Z.leb_gt; lia).
    by rewrite decide_True by lia.
  - intros Hlate. assert ((due <=? now) = true) as -> by (apply Z.leb_le; lia).
    cbn [fst]. by rewrite (missedCall_same p c Hcall).
Qed.

(** No handler shows a toast by itself, and only the events that
    [touches_invitation] lists change the pending invitation or the
    timers. *)
Lemma step_call_frame now e w :
  let c0 := tick now w.1 in
  let c' := (step now e w).1 in
  toasts c' = toasts c0 ∧
  (touches_invitation e = false →
   incomingCall c' = incomingCall c0 ∧ timers c' = timers c0) ∧
  ((∀ q, e ≠ IncomingCallReceived q) → incomingCall c0 = None →
   incomingCall c' = None ∧ timers c' = timers c0).
Proof.
  destruct w as [c s]. cbn zeta. unfold step. cbn [fst snd].
  set (c0 := tick now c). clearbody c0.
  destruct e; cbn [touches_invitation fst snd];
    unfold fetchUserProfile, fetchConversations, fetchMessages, onInsert, onUpdate,
      onDelete, markMessagesAsSeen, markMessagesAsSeen_read, addReaction,
      startEditMessage, cancelEdit, saveEditMessage, confirmDeleteMessage, sendMessage,
      uploadImage, fetchOnlineUsers, startVideoCall, onIncomingCall, onCallEnded,
      acceptCall, declineCall, endCall, updateUserPresence;
    repeat case_match; simplify_eq/=; try done.
  all: try (split; [done|]; split; [done|]; intros Hq; by destruct (Hq p)).
Qed.

Lemma run_cons te trace w : run (te :: trace) w = run trace (step te.1 te.2 w).
Proof. done. Qed.

Lemma run_app l1 l2 w : run (l1 ++ l2) w = run l2 (run l1 w).
Proof. unfold run. apply foldl_app. Qed.

(** Events that leave the invitation alone, all before its timer is due:
    the invitation still waits, and no toast has been added. *)
Lemma run_waiting p due : ∀ between w olds,
  Forall (λ te : Timestamp * Event, touches_invitation te.2 = false ∧ te.1 < due) between →
  incomingCall w.1 = Some p → timers w.1 = olds ++ [(due, p)] →
  (∀ q, q ∈ olds → callId q.2 ≠ callId p) →
  let w' := run between w in
  incomingCall w'.1 = Some p ∧ toasts w'.1 = toasts w.1 ∧
  ∃ olds', timers w'.1 = olds' ++ [(due, p)] ∧ ∀ q, q ∈ olds' → callId q.2 ≠ callId p.
Proof.
  induction between as [|[t e] between IH]; intros w olds Hquiet Hcall Htimers Hfresh.
  { cbn. split; [done|]. split; [done|]. by exists olds. }
  apply Forall_cons in Hquiet as [[He Ht] Hquiet]. cbn [fst snd] in He, Ht.
  rewrite run_cons. cbn [fst snd].
  destruct (tick_waiting t w.1 p due olds Hcall Htimers Hfresh) as [Hearly _].
  destruct (Hearly Ht) as (Hcall1 & Htoasts1 & Htimers1).
  destruct (step_call_frame t e w) as (Htoasts2 & Hframe & _).
  destruct (Hframe He) as [Hcall2 Htimers2].
  rewrite <- Htoasts1, <- Htoasts2.
  apply (IH (step t e w) (filter (λ q, t < q.1) olds) Hquiet).
  - by rewrite Hcall2.
  - by rewrite Htimers2.
  - intros q Hq. apply list_elem_of_filter in Hq as [_ Hq]. by apply Hfresh.
Qed.

(** Events that leave the invitation alone, at whatever instants: the
    invitation still waits and no toast has been added, or its timer has
    run and added its toast, and nothing more. *)
Lemma run_quiet p due shown : ∀ between w,
  Forall (λ te : Timestamp * Event, touches_invitation te.2 = false) between →
  (incomingCall w.1 = Some p ∧ toasts w.1 = shown ∧
   ∃ olds, timers w.1 = olds ++ [(due, p)] ∧ ∀ q, q ∈ olds → callId q.2 ≠ callId p) ∨
  (incomingCall w.1 = None ∧ toasts w.1 = shown ++ [missed_toast p]) →
  let w' := run between w in
  (incomingCall w'.1 = Some p ∧ toasts w'.1 = shown ∧
   ∃ olds, timers w'.1 = olds ++ [(due, p)] ∧ ∀ q, q ∈ olds → callId q.2 ≠ callId p) ∨
  (incomingCall w'.1 = None ∧ toasts w'.1 = shown ++ [missed_toast p]).
Proof.
  induction between as [|[t e] between IH]; intros w Hquiet Hstate; [exact Hstate|].
  apply Forall_cons in Hquiet as [He Hquiet]. cbn [snd] in He.
  rewrite run_cons. cbn [fst snd]. apply (IH (step t e w) Hquiet).
  destruct (step_call_frame t e w) as (Htoasts2 & Hframe & _).
  destruct (Hframe He) as [Hcall2 Htimers2]. rewrite Hcall2, Htoasts2, Htimers2.
  destruct Hstate as [(Hcall & Htoasts & olds & Htimers & Hfresh) | [Hcall Htoasts]].
  - destruct (tick_waiting t w.1 p due olds Hcall Htimers Hfresh) as [Hearly Hlate].
    destruct (decide (t < due)) as [Ht | Ht].
    + destruct (Hearly Ht) as (Hcall1 & Htoasts1 & Htimers1). left.
      split; [done|]. split; [congruence|]. eexists. split; [exact Htimers1|].
      intros q Hq. apply list_elem_of_filter in Hq as [_ Hq]. by apply Hfresh.
    + destruct Hlate as [Hcall1 Htoasts1]; [lia|]. right. split; [done | congruence].
  - right. rewrite (tick_none t w.1 Hcall). done.
Qed.

(** Without a further invitation, no invitation becomes pending and no
    toast is added. *)
Lemma run_idle : ∀ later w,
  Forall (λ te : Timestamp * Event, ∀ q, te.2 ≠ IncomingCallReceived q) later →
  incomingCall w.1 = None →
  incomingCall (run later w).1 = None ∧ toasts (run later w).1 = toasts w.1.
Proof.
  induction later as [|[t e] later IH]; intros w Hlater Hcall; [done|].
  apply Forall_cons in Hlater as [He Hlater]. cbn [snd] in He.
  rewrite run_cons. cbn [fst snd].
  destruct (step_call_frame t e w) as (Htoasts & _ & Hidle).
  assert (tick t w.1 = set_timers (filter (λ q, t < q.1) (timers w.1)) w.1) as Htick
    by by apply tick_none.
  destruct (Hidle He) as [Hcall' _]; [by rewrite Htick|].
  destruct (IH (step t e w) Hlater Hcall') as [IH1 IH2].
  split; [done|]. rewrite IH2, Htoasts, Htick. done.
Qed.

(** C8, counterexample.  Neither accepted nor declined, an invitation
    can still pass without a toast.  Alice's invitation ["c1"] arrives,
    Carol's invitation ["c2"] ten seconds later, and Bob touches nothing:
    when the 30 seconds of ["c1"] are over there is no toast and its
    timer is gone; the only toast, at 40 seconds, is the one for Carol's
    call.  Alice's invitation arrives and, ten seconds later, a
    [call_ended] broadcast: no toast.  Bob is in a call of his own when
    Alice's invitation arrives, and hangs up ten seconds later: no
    toast. *)
Lemma missed_call_lost :
  let trace := [(0, IncomingCallReceived ring); (10000, IncomingCallReceived ring2)] in
  let at_30s := (run (trace ++ [(30000, Elapse)]) sample_world).1 in
  let at_40s := (run (trace ++ [(30000, Elapse); (40000, Elapse)]) sample_world).1 in
  let ended_elsewhere :=
    (run [(0, IncomingCallReceived ring); (10000, CallEndedReceived); (30000, Elapse)]
         sample_world).1 in
  let in_a_call := run [(0, StartVideoCall "r1" "r2" "m3" false)] sample_world in
  let hung_up :=
    (run [(1000, IncomingCallReceived ring); (11000, EndCall); (31000, Elapse)]
         in_a_call).1 in
  callId ring = Some "c1" ∧ callId ring2 = Some "c2" ∧
  toasts at_30s = [] ∧ timers at_30s = [(40000, ring2)] ∧
  toasts at_40s = [missed_toast ring2] ∧ timers at_40s = [] ∧
  description (missed_toast ring2) = "You missed a call from Carol" ∧
  toasts ended_elsewhere = [] ∧ timers ended_elsewhere = [] ∧
  showVideoCall in_a_call.1 = true ∧
  toasts hung_up = [] ∧ timers hung_up = [] ∧ incomingCall hung_up = None.
Proof. vm_compute. repeat split. Qed.

(** C8, as amended.  An invitation from another user arrives at [t0] and
    no pending timer carries its call id.  Whatever else happens on the
    page, as long as the invitation is neither answered nor dismissed, no
    call is ended (on this page or by a [call_ended] broadcast) and no
    further invitation arrives: at any instant from [t0 + 30 s] on
    exactly one toast has been added, the missed-call toast of this
    invitation, and the invitation is cleared.  If instead it is
    accepted, declined or ended by a broadcast before [t0 + 30 s], then
    no toast is added for it, whatever follows short of a further
    invitation.  Accepting when no invitation is pending does nothing. *)
Theorem missed_call_after_30s (c : Client) (s : Server) (uid : string)
    (p : IncomingCall) (t0 : Timestamp) :
  user c = Some uid → profile_user_id (caller p) ≠ uid →
  (∀ q, q ∈ timers c → callId q.2 ≠ callId p) →
  let before := (run [(t0, Elapse)] (c, s)).1 in
  let received := (t0, IncomingCallReceived p) in
  (∀ between t1,
     Forall (λ te : Timestamp * Event, touches_invitation te.2 = false) between →
     t0 + 30000 ≤ t1 →
     let after := (run (received :: between ++ [(t1, Elapse)]) (c, s)).1 in
     toasts after = toasts before ++ [missed_toast p] ∧ incomingCall after = None) ∧
  (∀ between t e later,
     Forall (λ te : Timestamp * Event,
               touches_invitation te.2 = false ∧ te.1 < t0 + 30000) between →
     t < t0 + 30000 →
     e = AcceptCall ∨ e = DeclineCall ∨ e = CallEndedReceived →
     Forall (λ te : Timestamp * Event, ∀ q, te.2 ≠ IncomingCallReceived q) later →
     let after := (run (received :: between ++ (t, e) :: later) (c, s)).1 in
     toasts after = toasts before ∧ incomingCall after = None) ∧
  (∀ now w, incomingCall (tick now w.1) = None →
     step now AcceptCall w = step now Elapse w).
Proof.
  intros Huser Hcaller Hfresh before received. subst before received.
  set (c0 := tick t0 c).
  assert (user c0 = Some uid) as Huser0 by (unfold c0; by rewrite tick_user).
  assert (∀ q, q ∈ timers c0 → callId q.2 ≠ callId p) as Hfresh0.
  { intros q Hq. unfold c0 in Hq. rewrite tick_timers in Hq.
    apply list_elem_of_filter in Hq as [_ Hq]. by apply Hfresh. }
  set (w1 := step t0 (IncomingCallReceived p) (c, s)).
  assert (incomingCall w1.1 = Some p ∧ toasts w1.1 = toasts c0 ∧
          timers w1.1 = timers c0 ++ [(t0 + 30000, p)]) as (Hcall1 & Htoasts1 & Htimers1).
  { unfold w1, step. cbn [fst snd]. fold c0. unfold onIncomingCall. rewrite Huser0.
    by rewrite bool_decide_eq_true_2. }
  assert (toasts (run [(t0, Elapse)] (c, s)).1 = toasts c0) as Hbefore by done.
  rewrite Hbefore.
  split; [|split].
  - intros between t1 Hquiet Ht1. cbn zeta. rewrite run_cons. cbn [fst snd]. fold w1.
    clearbody w1 c0. rewrite run_app.
    assert ((incomingCall w1.1 = Some p ∧ toasts w1.1 = toasts c0 ∧
             ∃ olds, timers w1.1 = olds ++ [(t0 + 30000, p)] ∧
                     ∀ q, q ∈ olds → callId q.2 ≠ callId p) ∨
            (incomingCall w1.1 = None ∧ toasts w1.1 = toasts c0 ++ [missed_toast p]))
      as Hstart.
    { left. split; [done|]. split; [done|]. by exists (timers c0). }
    pose proof (run_quiet p (t0 + 30000) (toasts c0) between w1 Hquiet Hstart) as Hend.
    cbn zeta in Hend. set (w2 := run between w1) in *. clearbody w2.
    rewrite run_cons. cbn [run foldl step fst snd].
    destruct Hend as [(Hcall & Htoasts & olds & Htimers & Holds) | [Hcall Htoasts]].
    + destruct (tick_waiting t1 w2.1 p (t0 + 30000) olds Hcall Htimers Holds) as [_ Hlate].
      destruct (Hlate Ht1) as [Hcall' Htoasts']. split; [congruence | done].
    + rewrite (tick_none t1 w2.1 Hcall). done.
  - intros between t e later Hquiet Ht He Hlater. cbn zeta.
    rewrite run_cons. cbn [fst snd]. fold w1. clearbody w1 c0. rewrite run_app.
    pose proof (run_waiting p (t0 + 30000) between w1 (timers c0) Hquiet Hcall1 Htimers1
                  Hfresh0) as (Hcall & Htoasts & olds & Htimers & Holds).
    set (w2 := run between w1) in *. clearbody w2. rewrite run_cons. cbn [fst snd].
    destruct (tick_waiting t w2.1 p (t0 + 30000) olds Hcall Htimers Holds) as [Hearly _].
    destruct (Hearly Ht) as (Hcall' & Htoasts' & _).
    assert (incomingCall (step t e w2).1 = None ∧
            toasts (step t e w2).1 = toasts (tick t w2.1)) as [Hcall3 Htoasts3].
    { destruct (step_call_frame t e w2) as (Htoasts3 & _). split; [|done].
      destruct He as [-> | [-> | ->]]; unfold step; cbn [fst snd].
      - unfold acceptCall. by rewrite Hcall'.
      - done.
      - done. }
    destruct (run_idle later (step t e w2) Hlater Hcall3) as [Hcall4 Htoasts4].
    split; [|done]. rewrite Htoasts4, Htoasts3, Htoasts', Htoasts, Htoasts1. done.
  - intros now [c' s'] Hnone. unfold step. cbn [fst snd] in *.
    unfold acceptCall. by rewrite Hnone.
Qed.

(** The amended statement at Alice's invitation, with Bob typing, sending
    and reading in the meantime. *)
Lemma missed_call_after_30s_witness :
  let between := [(5000, Input (literal "busy")); (6000, SendMessage "m3" false);
                  (7000, MarkMessagesAsSeen true (λ _, false))] in
  user sample_client = Some "bob" ∧ profile_user_id (caller ring) ≠ "bob" ∧
  toasts (run ((0, IncomingCallReceived ring) :: between ++ [(30000, Elapse)])
              sample_world).1
    = toasts (run [(0, Elapse)] sample_world).1 ++ [missed_toast ring].
Proof.
  cbn zeta.
  assert (profile_user_id (caller ring) ≠ "bob") as Hne by (vm_compute; discriminate).
  assert (∀ q, q ∈ timers sample_client → callId q.2 ≠ callId ring) as Hfresh.
  { intros q Hq. vm_compute in Hq. by apply elem_of_nil in Hq. }
  split; [reflexivity|]. split; [exact Hne|].
  apply (proj1 (missed_call_after_30s sample_client sample_server "bob" ring 0
                  eq_refl Hne Hfresh)
           [(5000, Input (literal "busy")); (6000, SendMessage "m3" false);
            (7000, MarkMessagesAsSeen true (λ _, false))] 30000).
  - repeat constructor.
  - vm_compute. discriminate.
Defined.

(** ** Editing *)

(** C9, counterexample.  Bob edits his reply (the text typed starts with
    a no-break space and ends with a space) and then edits it back: the
    row and the list of the page are exactly what they were before the
    first edit, so nothing in a record tells that it was edited. *)
Lemma saveEditMessage_leaves_no_trace :
  let w1 := run [(5000, StartEditMessage reply);
                 (5500, EditInput (0x00A0 :: literal "hello! "));
                 (6000, SaveEditMessage false)] sample_world in
  let w2 := run [(7000, StartEditMessage reply); (7500, EditInput (literal "hello"));
                 (8000, SaveEditMessage false)] w1 in
  messages_tbl w1.2 = [hello; with_content (Some (literal "hello!")) reply] ∧
  editingMessage w1.1 = None ∧
  messages_tbl w2.2 = messages_tbl sample_world.2 ∧
  messages w2.1 = messages sample_world.1.
Proof. vm_compute. repeat split. Qed.

Lemma with_content_back (body : option Text) (m : Message) :
  with_content (content m) (with_content body m) = m.
Proof. by destruct m. Qed.

(** C9, as amended.  A successful edit replaces the content of the
    records with the edited key by the trimmed text and changes nothing
    else: [created_at] and every other field are as before, in the table
    and in the list of the page.  No field records the edit. *)
Theorem saveEditMessage_frame (c : Client) (s : Server) (editing : Message) :
  editingMessage c = Some editing → trim (editContent c) ≠ [] →
  let w' := saveEditMessage false (c, s) in
  let edit := λ m, if bool_decide (id m = id editing)
                   then with_content (Some (trim (editContent c))) m else m in
  messages_tbl w'.2 = (edit <$> messages_tbl s) ∧
  messages w'.1 = (edit <$> messages c) ∧
  (∀ m, created_at (edit m) = created_at m ∧ with_content (content m) (edit m) = m) ∧
  (created_at <$> messages_tbl w'.2) = (created_at <$> messages_tbl s) ∧
  (created_at <$> messages w'.1) = (created_at <$> messages c).
Proof.
  intros Hed Hbody w' edit. subst w'. unfold saveEditMessage. rewrite Hed.
  rewrite bool_decide_eq_false_2 by done.
  cbn [fst snd cancelEdit set_editContent set_editingMessage set_messages messages
       set_messages_tbl messages_tbl].
  assert (∀ m, created_at (edit m) = created_at m ∧ with_content (content m) (edit m) = m)
    as Hframe.
  { intros m. unfold edit. destruct (bool_decide _); [|by destruct m].
    split; [done | apply with_content_back]. }
  assert (∀ l : list Message, created_at <$> (edit <$> l) = created_at <$> l) as Hcreated.
  { intros l. rewrite <- list_fmap_compose. apply list_fmap_ext. intros _ m _. apply Hframe. }
  split; [done|]. split; [done|]. split; [exact Hframe|]. split; apply Hcreated.
Qed.

(** The amended statement at an edit of Bob's reply. *)
Lemma saveEditMessage_frame_witness :
  let c := set_editContent (0x00A0 :: literal "hello! ")
             (startEditMessage reply sample_client) in
  editingMessage c = Some reply ∧ trim (editContent c) = literal "hello!" ∧
  (created_at <$> messages_tbl (saveEditMessage false (c, sample_server)).2)
  = (created_at <$> messages_tbl sample_server).
Proof.
  set (c := set_editContent (0x00A0 :: literal "hello! ")
              (startEditMessage reply sample_client)).
  assert (trim (editContent c) ≠ []) as Hbody by (vm_compute; discriminate).
  split; [reflexivity|]. split; [reflexivity|].
  apply (saveEditMessage_frame c sample_server reply eq_refl Hbody).
Defined.

(** ** Keys of the list of the page *)

Lemma tick_messages now c : messages (tick now c) = messages c.
Proof.
  apply tick_frame; [|done]. intros p c'. unfold missedCall.
  destruct (incomingCall c'); [|done]. by destruct (bool_decide _).
Qed.

Lemma some_id_false (mid : string) (l : list Message) :
  some (λ msg, bool_decide (id msg = mid)) l = false → mid ∉ ids l.
Proof.
  unfold some, ids. intros Hex Hin. apply list_elem_of_fmap in Hin as (m & -> & Hm).
  assert (existsb (λ msg, bool_decide (id msg = id m)) l = true); [|congruence].
  apply existsb_exists. exists m. split; [by apply list_elem_of_In | by apply bool_decide_eq_true].
Qed.

Lemma some_id_true (mid : string) (l : list Message) :
  mid ∈ ids l → some (λ msg, bool_decide (id msg = mid)) l = true.
Proof.
  unfold some, ids. intros Hin. apply list_elem_of_fmap in Hin as (m & -> & Hm).
  apply existsb_exists. exists m. split; [by apply list_elem_of_In | by apply bool_decide_eq_true].
Qed.

Lemma step_list_change now e w :
  list_change (messages_tbl w.2) (messages w.1) (messages (step now e w).1).
Proof.
  destruct w as [c0 s]. unfold step. cbn [fst snd].
  rewrite <- (tick_messages now c0). set (c := tick now c0). clearbody c.
  destruct e; cbn [fst]; try apply list_same.
  - unfold fetchUserProfile. repeat case_match; apply list_same.
  - unfold fetchConversations. repeat case_match; apply list_same.
  - unfold fetchMessages. destruct (selectedConversation c); [|apply list_same].
    destruct error; [apply list_same|]. cbn [fst set_messages messages].
    eapply (list_fetch _ _ _ (λ m, conversation_id m = _)). by intros [].
  - unfold onInsert. cbn zeta.
    set (mwp := with_sender_profile _ _).
    assert (list_change (messages_tbl s) (messages c)
              (if some (λ msg, bool_decide (id msg = id mwp)) (messages c)
               then messages c else messages c ++ [mwp])) as Hch.
    { destruct (some _ _) eqn:E; [apply list_same|]. apply list_append.
      by apply some_id_false. }
    destruct (maybeSingle _); [|exact Hch].
    destruct (bool_decide _); exact Hch.
  - unfold onUpdate. cbn [set_messages messages]. apply list_patch.
    intros x. by destruct (bool_decide _).
  - unfold onDelete. cbn [set_messages messages]. apply (list_filter _ _ _).
  - rewrite markMessagesAsSeen_unfold. destruct (selectedConversation c); [|apply list_same].
    destruct (user c); [|apply list_same]. destruct answered; apply list_same.
  - unfold addReaction. destruct (user c); [|apply list_same].
    destruct (find _ _); [|apply list_same].
    destruct error; [apply list_same|]. cbn [fst set_messages messages].
    apply list_patch. intros x. by destruct (bool_decide _).
  - unfold saveEditMessage. destruct (editingMessage c); [|apply list_same].
    destruct (bool_decide _); [apply list_same|].
    destruct error; [apply list_same|]. cbn [fst cancelEdit set_editContent
      set_editingMessage set_messages messages].
    apply list_patch. intros x. by destruct (bool_decide _).
  - unfold confirmDeleteMessage. destruct (messageToDelete c); [|apply list_same].
    destruct error; [apply list_same|]. cbn [fst set_messageToDelete set_messages messages].
    apply (list_filter _ _ _).
  - unfold sendMessage, updateUserPresence. cbn [user set_isLoading].
    repeat case_match; simplify_eq/=; apply list_same.
  - unfold uploadImage, updateUserPresence. cbn [user set_isLoading].
    repeat case_match; simplify_eq/=; apply list_same.
  - unfold updateUserPresence. destruct (user c); apply list_same.
  - unfold startVideoCall. repeat case_match; apply list_same.
  - unfold onIncomingCall. repeat case_match; apply list_same.
  - unfold acceptCall. repeat case_match; apply list_same.
  - unfold endCall. repeat case_match; apply list_same.
Qed.

Lemma list_change_NoDup tbl l l' :
  NoDup (ids tbl) → NoDup (ids l) → list_change tbl l l' → NoDup (ids l').
Proof.
  intros Htbl Hl Hch.
  assert (∀ (f : Message → Message) k, (∀ m, id (f m) = id m) → ids (f <$> k) = ids k)
    as Hmap.
  { intros f k Hf. unfold ids. rewrite <- list_fmap_compose.
    apply list_fmap_ext. intros _ m _. apply Hf. }
  destruct Hch as [| f Hf | P HP | m Hm | f P HP Hf].
  - done.
  - by rewrite Hmap.
  - by apply NoDup_ids_filter.
  - unfold ids in *. rewrite fmap_app. apply NoDup_app. split; [done|]. split.
    + intros x Hx Hin. apply list_elem_of_singleton in Hin. by subst.
    + apply NoDup_singleton.
  - rewrite Hmap by done. unfold ids, order_created_at.
    rewrite merge_sort_Permutation. by apply NoDup_ids_filter.
Qed.

(** C10.  If the keys of the table and of the list of the page are
    distinct, they are still distinct after any sequence of events.  An
    [INSERT] event for a key the list already holds leaves the list as it
    is; for a new key it appends one record. *)
Theorem messages_ids_distinct (trace : list (Timestamp * Event)) (w : World) :
  NoDup (ids (messages_tbl w.2)) → NoDup (ids (messages w.1)) →
  NoDup (ids (messages (run trace w).1)) ∧
  NoDup (ids (messages_tbl (run trace w).2)) ∧
  (∀ row w', id row ∈ ids (messages w'.1) →
     messages (onInsert row w').1 = messages w'.1) ∧
  (∀ row w', id row ∉ ids (messages w'.1) →
     ids (messages (onInsert row w').1) = (ids (messages w'.1) ++ [id row])).
Proof.
  intros Htbl Hl.
  assert (NoDup (ids (messages (run trace w).1)) ∧
          NoDup (ids (messages_tbl (run trace w).2))) as [H1 H2].
  { revert w Htbl Hl. unfold run.
    induction trace as [|[now e] trace IH]; intros w Htbl Hl; [done|].
    cbn [foldl fst snd]. apply IH.
    - eapply table_change_NoDup; [exact Htbl | apply step_table_change].
    - eapply list_change_NoDup; [exact Htbl | exact Hl | apply step_list_change]. }
  split; [exact H1|]. split; [exact H2|]. split.
  - intros row [c s] Hin. cbn [fst] in Hin. unfold onInsert. cbn zeta.
    set (mwp := with_sender_profile _ _).
    assert (some (λ msg, bool_decide (id msg = id mwp)) (messages c) = true) as Hex
      by (by apply some_id_true).
    rewrite Hex. destruct (maybeSingle _); [|done]. by destruct (bool_decide _).
  - intros row [c s] Hout. cbn [fst] in Hout. unfold onInsert. cbn zeta.
    set (mwp := with_sender_profile _ _).
    assert (some (λ msg, bool_decide (id msg = id mwp)) (messages c) = false) as Hex.
    { destruct (some _ _) eqn:E; [|done]. exfalso. apply Hout.
      unfold some in E. apply existsb_exists in E as (m & Hm & Hid).
      apply bool_decide_eq_true in Hid. change (id mwp) with (id row) in Hid.
      rewrite <- Hid. unfold ids. apply list_elem_of_fmap_2. by apply list_elem_of_In. }
    rewrite Hex.
    assert (ids (messages c ++ [mwp]) = ids (messages c) ++ [id row]) as Hids
      by (unfold ids; by rewrite fmap_app).
    destruct (maybeSingle _); [|exact Hids]. by destruct (bool_decide _).
Qed.

(** The statement for a fetch followed by the insert events of the two
    messages it loaded. *)
Lemma messages_ids_distinct_witness :
  NoDup (ids (messages_tbl sample_world.2)) ∧ NoDup (ids (messages sample_world.1)) ∧
  NoDup (ids (messages
                (run [(1000, FetchMessages false); (2000, Inserted hello);
                      (3000, Inserted reply)] sample_world).1)).
Proof.
  assert (NoDup (ids (messages_tbl sample_world.2))) as Htbl.
  { apply (bool_decide_unpack _). vm_compute. exact I. }
  assert (NoDup (ids (messages sample_world.1))) as Hl.
  { apply (bool_decide_unpack _). vm_compute. exact I. }
  split; [exact Htbl|]. split; [exact Hl|].
  apply (messages_ids_distinct _ sample_world Htbl Hl).
Defined.

(** The insert event for a message the first fetch already loaded
    changes nothing in the list. *)
Example insert_after_fetch :
  let w := run [(1000, FetchMessages false)] sample_world in
  ids (messages w.1) = ["m1"; "m2"] ∧
  messages (run [(2000, Inserted hello)] w).1 = messages w.1.
Proof. vm_compute. done. Qed.

(** ** Strings *)

Lemma units_inj (s1 s2 : string) : units s1 = units s2 → s1 = s2.
Proof.
  unfold units. intros H. rewrite <- (String.string_of_list_ascii_of_string s1),
    <- (String.string_of_list_ascii_of_string s2). by rewrite H.
Qed.

Lemma units_rev_app (s1 s2 : string) :
  units (String.rev_app s1 s2) = rev (units s1) ++ units s2.
Proof.
  revert s2. induction s1 as [|c s1 IH]; intros s2; [done|].
  cbn [String.rev_app]. rewrite IH. unfold units.
  cbn [String.list_ascii_of_string List.rev]. by rewrite <- app_assoc.
Qed.

Lemma units_rev (s : string) : units (String.rev s) = rev (units s).
Proof. unfold String.rev. rewrite units_rev_app. apply app_nil_r. Qed.

(** ** Trimming *)

Lemma trimStart_head (s : Text) (u : Z) :
  head (trimStart s) = Some u → is_space u = false.
Proof.
  induction s as [|a s IH]; [done|]. cbn [trimStart].
  destruct (is_space a) eqn:E; [exact IH|]. cbn. by intros [= <-].
Qed.

Lemma trimStart_id (s : Text) :
  (∀ u, head s = Some u → is_space u = false) → trimStart s = s.
Proof.
  destruct s as [|a s]; [done|]. intros H. cbn [trimStart].
  by rewrite (H a eq_refl).
Qed.

(** [trimStart] drops a run of white space from the front. *)
Lemma trimStart_split (s : Text) :
  ∃ sp, s = sp ++ trimStart s ∧ Forall (λ u, is_space u = true) sp.
Proof.
  induction s as [|a s (sp & IH & Hsp)]; [by exists []|]. cbn [trimStart].
  destruct (is_space a) eqn:E.
  - exists (a :: sp). split; [cbn; by rewrite <- IH | by constructor].
  - by exists [].
Qed.

Lemma trimEnd_last (s : Text) (u : Z) :
  last (trimEnd s) = Some u → is_space u = false.
Proof. unfold trimEnd. rewrite last_reverse. apply trimStart_head. Qed.

Lemma trimEnd_id (s : Text) :
  (∀ u, last s = Some u → is_space u = false) → trimEnd s = s.
Proof.
  intros H. unfold trimEnd. rewrite trimStart_id; [apply reverse_involutive|].
  intros u. rewrite head_reverse. apply H.
Qed.

(** [trimEnd] drops a run of white space from the end. *)
Lemma trimEnd_split (s : Text) :
  ∃ sp, s = trimEnd s ++ sp ∧ Forall (λ u, is_space u = true) sp.
Proof.
  unfold trimEnd. destruct (trimStart_split (reverse s)) as (sp & Hs & Hsp).
  exists (reverse sp). split; [|by apply Forall_reverse].
  rewrite <- reverse_app, <- Hs. by rewrite reverse_involutive.
Qed.

(** [trimEnd] keeps the front of what it leaves. *)
Lemma trimEnd_head (s : Text) (u : Z) :
  head (trimEnd s) = Some u → head s = Some u.
Proof.
  destruct (trimEnd_split s) as (sp & Hs & _). intros H. rewrite Hs.
  by destruct (trimEnd s).
Qed.

Lemma trim_head (s : Text) (u : Z) : head (trim s) = Some u → is_space u = false.
Proof. unfold trim. intros H. apply trimEnd_head in H. by eapply trimStart_head. Qed.

Lemma trim_last (s : Text) (u : Z) : last (trim s) = Some u → is_space u = false.
Proof. unfold trim. apply trimEnd_last. Qed.

Lemma trim_trim (s : Text) : trim (trim s) = trim s.
Proof.
  unfold trim at 1. rewrite (trimStart_id (trim s)) by apply trim_head.
  apply trimEnd_id, trim_last.
Qed.

(** What [trim] leaves is the text between a run of white space at the
    front and one at the end. *)
Lemma trim_split (s : Text) :
  ∃ front back, s = front ++ trim s ++ back ∧
                Forall (λ u, is_space u = true) front ∧
                Forall (λ u, is_space u = true) back.
Proof.
  destruct (trimStart_split s) as (front & Hs & Hfront).
  destruct (trimEnd_split (trimStart s)) as (back & Hs' & Hback).
  exists front, back. split; [|done]. unfold trim. by rewrite <- Hs', <- Hs.
Qed.

Lemma trimStart_blank (s : Text) :
  trimStart s = [] ↔ Forall (λ u, is_space u = true) s.
Proof.
  induction s as [|a s IH]; [done|]. cbn [trimStart].
  destruct (is_space a) eqn:E.
  - rewrite IH. split; [by constructor | by inversion 1].
  - split; [done|]. inversion 1; congruence.
Qed.

(** A text is blank for [trim] exactly when it is made of white space
    only. *)
Lemma trim_blank (s : Text) : trim s = [] ↔ Forall (λ u, is_space u = true) s.
Proof.
  rewrite <- trimStart_blank. unfold trim. split.
  - intros Hnil. destruct (trimEnd_split (trimStart s)) as (sp & Hs & Hsp).
    rewrite Hnil in Hs. cbn in Hs. destruct (trimStart s) as [|u rest] eqn:E; [done|].
    assert (is_space u = false) as Hu by (apply (trimStart_head s); by rewrite E).
    rewrite <- Hs in Hsp. inversion Hsp; congruence.
  - by intros ->.
Qed.

(** ** What editing and sending store *)

Lemma update_eq_id_new (patch : Message → Message) (mid : string)
    (tbl : list Message) (m' : Message) :
  m' ∈ update_eq_id patch mid tbl → m' ∉ tbl →
  ∃ m, m ∈ tbl ∧ id m = mid ∧ m' = patch m.
Proof.
  unfold update_eq_id. intros Hin Hnew.
  apply list_elem_of_fmap in Hin as (m & -> & Hm).
  destruct (bool_decide (id m = mid)) eqn:E; [|done].
  apply bool_decide_eq_true in E. by exists m.
Qed.

(** X1.  Whatever the outcome, a row that [saveEditMessage] changes
    holds the trimmed text of the edit box: the text typed is a run of
    white space, the text stored, and a run of white space; the text
    stored is not empty, neither starts nor ends with white space (the
    no-break space and the other spaces of the language included), and
    trimming it again changes nothing.  An edit whose text is blank
    changes nothing at all. *)
Theorem saveEditMessage_stores_trimmed (error : bool) (c : Client) (s : Server) :
  (∀ m', m' ∈ messages_tbl (saveEditMessage error (c, s)).2 → m' ∉ messages_tbl s →
     ∃ t, content m' = Some t ∧ t = trim (editContent c) ∧ t ≠ [] ∧ trim t = t ∧
          (∃ front back, editContent c = front ++ t ++ back ∧
                         Forall (λ u, is_space u = true) front ∧
                         Forall (λ u, is_space u = true) back) ∧
          (∀ u, head t = Some u → is_space u = false) ∧
          (∀ u, last t = Some u → is_space u = false)) ∧
  (Forall (λ u, is_space u = true) (editContent c) →
   saveEditMessage error (c, s) = (c, s)) ∧
  is_space 0x00A0 = true ∧ is_space 0x3000 = true ∧ is_space 0xFEFF = true.
Proof.
  split; [|split; [|done]].
  - intros m'. unfold saveEditMessage. destruct (editingMessage c) as [editing|]; [|done].
    destruct (bool_decide (trim (editContent c) = [])) eqn:E; [done|].
    apply bool_decide_eq_false in E. destruct error; [done|].
    cbn [snd set_messages_tbl messages_tbl]. intros Hin Hnew.
    apply update_eq_id_new in Hin as (m & _ & _ & ->); [|done].
    exists (trim (editContent c)). cbn [content with_content].
    split; [done|]. split; [done|]. split; [done|]. split; [apply trim_trim|].
    split; [apply trim_split|]. split; [apply trim_head | apply trim_last].
  - intros Hblank. unfold saveEditMessage. destruct (editingMessage c); [|done].
    rewrite bool_decide_eq_true_2; [done|]. by apply trim_blank.
Qed.

Lemma updateUserPresence_client now c s : (updateUserPresence now (c, s)).1 = c.
Proof. unfold updateUserPresence. by destruct (user c). Qed.

Lemma updateUserPresence_frame now c s :
  let s' := (updateUserPresence now (c, s)).2 in
  messages_tbl s' = messages_tbl s ∧ chat_images s' = chat_images s ∧
  sent s' = sent s ∧ reactions_default s' = reactions_default s ∧
  storage_url s' = storage_url s.
Proof. unfold updateUserPresence. by destruct (user c). Qed.

(** X2.  [sendMessage] stores a row exactly when a conversation is
    selected, a user is signed in, the draft is not blank (white space of
    any kind only), the insert is not refused and the key is free.  It
    then appends exactly one row to the table and changes no other: a
    text message from the user in the selected conversation whose
    content is the draft as typed, untrimmed, and which nobody has seen;
    and the draft is cleared.  In every other case the table is as
    before and the input still holds the draft. *)
Theorem sendMessage_stores_draft (now : Timestamp) (new_id : string) (error : bool)
    (c : Client) (s : Server) :
  let w' := sendMessage now new_id error (c, s) in
  let stored :=
    is_Some (selectedConversation c) ∧ is_Some (user c) ∧
    ¬ Forall (λ u, is_space u = true) (newMessage c) ∧ error = false ∧
    new_id ∉ ids (messages_tbl s) in
  (stored →
   ∃ m', messages_tbl w'.2 = messages_tbl s ++ [m'] ∧
         message_type m' = text ∧ content m' = Some (newMessage c) ∧
         image_url m' = None ∧ Some (sender_id m') = user c ∧
         Some (conversation_id m') = selectedConversation c ∧ seen m' = [] ∧
         id m' = new_id ∧ created_at m' = now ∧ newMessage w'.1 = []) ∧
  (¬ stored →
   messages_tbl w'.2 = messages_tbl s ∧ newMessage w'.1 = newMessage c).
Proof.
  cbn zeta. unfold sendMessage.
  destruct (selectedConversation c) as [conv|];
    [|split; [by intros ([? [=]] & _) | done]].
  destruct (user c) as [uid|] eqn:Huser;
    [|split; [by intros (_ & [? [=]] & _) | done]].
  destruct (bool_decide (trim (newMessage c) = [])) eqn:E.
  { apply bool_decide_eq_true in E. apply trim_blank in E.
    split; [by intros (_ & _ & Hno & _) | done]. }
  apply bool_decide_eq_false in E.
  assert (¬ Forall (λ u, is_space u = true) (newMessage c)) as Hdraft.
  { intros H. by apply E, trim_blank. }
  pose proof (updateUserPresence_client now (set_isLoading true c) s) as Hc.
  pose proof (updateUserPresence_frame now (set_isLoading true c) s) as (Htbl & _ & _ & Hdef & _).
  destruct (updateUserPresence now (set_isLoading true c, s)) as [c1 s1].
  cbn [fst snd] in Hc, Htbl, Hdef. subst c1.
  destruct error.
  { cbn [fst snd]. rewrite Htbl. split; [by intros (_ & _ & _ & [=] & _) | done]. }
  destruct (insert_message _ _) as [tbl'|] eqn:Hins.
  - apply insert_message_Some in Hins as [-> Hfresh].
    cbn [fst snd set_messages_tbl messages_tbl]. rewrite Htbl. split.
    + intros _. eexists. split; [reflexivity|]. done.
    + intros Hno. exfalso. apply Hno. rewrite Htbl in Hfresh. done.
  - cbn [fst snd]. rewrite Htbl. split; [|done].
    intros (_ & _ & _ & _ & Hfree). exfalso.
    unfold insert_message in Hins. rewrite Htbl in Hins.
    by rewrite bool_decide_eq_false_2 in Hins.
Qed.

(** ** What an upload stores *)

Lemma prefix_append (p x : string) : String.prefix p (p +:+ x) = true.
Proof.
  induction p as [|a p IH]; [by destruct x|].
  change (String a p +:+ x) with (String a (p +:+ x)). cbn [String.prefix].
  destruct (ascii_dec a a); [exact IH | done].
Qed.

(** X3.  Whatever its arguments and the outcomes of its remote calls,
    [uploadImage] adds at most one row, and a row it adds is an image
    message of the user whose [image_url] is the public URL of a file
    that is now stored; this file is the chosen one, its type starts
    with [image/], it has at most 10 * 1024 * 1024 bytes and its name in
    the bucket starts with the id of the user.  No stored file and no row
    is ever lost. *)
Theorem uploadImage_stores_file (file : option File) (now : Timestamp) (new_id : string)
    (uploadError messageError : bool) (c : Client) (s : Server) :
  let w' := uploadImage file now new_id uploadError messageError (c, s) in
  (∀ m', m' ∈ messages_tbl w'.2 → m' ∉ messages_tbl s →
     ∃ f fileName uid,
       file = Some f ∧ user c = Some uid ∧
       message_type m' = image ∧ content m' = None ∧ sender_id m' = uid ∧
       image_url m' = Some (getPublicUrl s fileName) ∧
       (fileName, f) ∈ chat_images w'.2 ∧
       startsWith fileName (uid +:+ "/") = true ∧
       startsWith (file_type f) "image/" = true ∧ file_size f ≤ 10 * 1024 * 1024) ∧
  (∀ m, m ∈ messages_tbl s → m ∈ messages_tbl w'.2) ∧
  (∀ o, o ∈ chat_images s → o ∈ chat_images w'.2) ∧
  (length (messages_tbl w'.2) ≤ S (length (messages_tbl s)))%nat.
Proof.
  cbn zeta. unfold uploadImage.
  destruct file as [f|]; [|cbn; repeat split; (done || lia)].
  destruct (selectedConversation c) as [conv|]; [|cbn; repeat split; (done || lia)].
  destruct (user c) as [uid|] eqn:Huser; [|cbn; repeat split; (done || lia)].
  destruct (startsWith (file_type f) "image/") eqn:Htype; cbn [negb];
    [|cbn; repeat split; (done || lia)].
  destruct (10 * 1024 * 1024 <? file_size f) eqn:Hsize;
    [cbn; repeat split; (done || lia)|].
  apply Z.ltb_ge in Hsize.
  pose proof (updateUserPresence_client now (set_isLoading true c) s) as Hc.
  pose proof (updateUserPresence_frame now (set_isLoading true c) s)
    as (Htbl & Himg & _ & _ & Hurl).
  destruct (updateUserPresence now (set_isLoading true c, s)) as [c1 s1].
  cbn [fst snd] in Hc, Htbl, Himg, Hurl. subst c1.
  destruct uploadError.
  { cbn [fst snd]. rewrite Htbl, Himg. repeat split; (done || lia). }
  destruct messageError.
  { cbn [fst snd set_chat_images messages_tbl chat_images]. rewrite Htbl, Himg.
    repeat split; try (done || lia). intros o Ho. apply elem_of_app. by left. }
  destruct (insert_message _ _) as [tbl'|] eqn:Hins.
  - apply insert_message_Some in Hins as [-> _].
    cbn [fst snd set_chat_images set_messages_tbl messages_tbl chat_images].
    rewrite Htbl, Himg. split; [|split; [|split]].
    + intros m' Hin Hnew. apply elem_of_app in Hin as [Hin | Hin]; [done|].
      apply list_elem_of_singleton in Hin. subst m'.
      exists f, (uid +:+ "/" +:+ pretty now +:+ "." +:+ split_pop (file_name f)), uid.
      repeat split; try done.
      * cbn [image_url new_row]. unfold getPublicUrl. cbn [storage_url set_chat_images].
        by rewrite Hurl.
      * apply elem_of_app. right. left.
      * unfold startsWith.
        change (uid +:+ "/" +:+ pretty now +:+ "." +:+ split_pop (file_name f))
          with (uid +:+ ("/" +:+ (pretty now +:+ "." +:+ split_pop (file_name f)))).
        assert (∀ a b d : string, a +:+ (b +:+ d) = (a +:+ b) +:+ d) as Hassoc.
        { intros a b d. induction a as [|x a IH]; [done|].
          change (String x a +:+ (b +:+ d)) with (String x (a +:+ (b +:+ d))).
          by rewrite IH. }
        rewrite Hassoc. apply prefix_append.
    + intros m Hm. apply elem_of_app. by left.
    + intros o Ho. apply elem_of_app. by left.
    + rewrite length_app. cbn. lia.
  - cbn [fst snd set_chat_images messages_tbl chat_images]. rewrite Htbl, Himg.
    repeat split; try (done || lia). intros o Ho. apply elem_of_app. by left.
Qed.

(** ** What a fetch lists *)

Lemma created_le_total : Total created_le.
Proof. intros a b. unfold created_le. lia. Qed.

Lemma find_filter_profiles (uid : string) (keep : list string) (l : list Profile) :
  uid ∈ keep →
  find (λ p, bool_decide (profile_user_id p = uid))
       (filter (λ p, profile_user_id p ∈ keep) l)
  = find (λ p, bool_decide (profile_user_id p = uid)) l.
Proof.
  intros Hin. unfold find. induction l as [|p l IH]; [done|].
  rewrite filter_cons. cbn [List.find].
  destruct (bool_decide (profile_user_id p = uid)) eqn:E.
  - apply bool_decide_eq_true in E. rewrite decide_True by (by rewrite E).
    cbn [List.find]. by rewrite bool_decide_eq_true_2.
  - destruct (decide (profile_user_id p ∈ keep)); [|exact IH].
    cbn [List.find]. by rewrite E.
Qed.

(** X4.  With a conversation selected, a fetch that succeeds lists the
    rows of that conversation and no others, each once, in ascending
    order of [created_at]; each listed message has the fields of its row,
    with [null] reactions and marks read as empty arrays, and carries the
    name of the first profile of its sender, if there is one.  A fetch
    that fails leaves the page as it is. *)
Theorem fetchMessages_lists_conversation (c : Client) (s : Server) (conv : string) :
  selectedConversation c = Some conv →
  let l := messages (fetchMessages false (c, s)).1 in
  let rows := filter (λ r, conversation_id r = conv) (messages_tbl s) in
  Sorted created_le l ∧
  ids l ≡ₚ ids rows ∧
  (∀ m, m ∈ l ↔
     ∃ r, r ∈ rows ∧
       m = with_sender_profile
             (as_sender_profile <$>
                find (λ p, bool_decide (profile_user_id p = sender_id r)) (profiles_tbl s))
             (with_seen_by (Some (seen r))
                (with_reactions (Some (current_reactions r)) r))) ∧
  fetchMessages true (c, s) = (c, s).
Proof.
  intros Hsel l rows. subst l. unfold fetchMessages. rewrite Hsel.
  cbn [fst set_messages messages]. fold rows.
  set (profilesData := filter _ (profiles_tbl s)).
  set (norm := λ r : Message,
         with_sender_profile
           (as_sender_profile <$>
              find (λ p, bool_decide (profile_user_id p = sender_id r)) (profiles_tbl s))
           (with_seen_by (Some (seen r))
              (with_reactions (Some (current_reactions r)) r))).
  assert ((λ message,
             with_sender_profile
               (as_sender_profile <$>
                  find (λ p, bool_decide (profile_user_id p = sender_id message))
                       profilesData)
               (with_seen_by (Some (default [] (seen_by message)))
                  (with_reactions (Some (default [] (reactions message))) message)))
            <$> order_created_at rows
          = norm <$> order_created_at rows) as ->.
  { apply list_fmap_ext. intros i r Hr. unfold norm, profilesData. f_equal. f_equal.
    apply find_filter_profiles. apply elem_of_remove_dups.
    apply list_elem_of_fmap_2. by eapply list_elem_of_lookup_2. }
  split; [|split; [|split]].
  - apply (Sorted_fmap norm created_le created_le).
    + intros a b Hab. unfold created_le in *. by destruct a, b.
    + unfold order_created_at. apply @Sorted_merge_sort. apply created_le_total.
  - unfold ids. rewrite <- list_fmap_compose.
    rewrite (list_fmap_ext (id ∘ norm) id (order_created_at rows))
      by (intros i r _; by destruct r).
    unfold order_created_at. by rewrite merge_sort_Permutation.
  - intros m. rewrite list_elem_of_fmap. unfold order_created_at.
    split.
    + intros (r & Hm & Hr). exists r. rewrite merge_sort_Permutation in Hr. done.
    + intros (r & Hr & Hm). exists r. rewrite merge_sort_Permutation. done.
  - done.
Qed.

Lemma fetchMessages_lists_conversation_witness :
  selectedConversation sample_client = Some "x" ∧
  ids (messages (fetchMessages false sample_world).1) ≡ₚ ["m1"; "m2"].
Proof.
  split; [reflexivity|].
  exact (proj1 (proj2 (fetchMessages_lists_conversation sample_client sample_server "x"
                         eq_refl))).
Defined.

(** ** What an insert event notifies *)

(** X5.  The [INSERT] handler calls [sendNotification] at most once, and
    exactly when the message is from someone else whose profile is found
    (exactly one profile has the sender's user id), whether or not the
    message was already in the list.  The title names that profile, the
    tag carries the key of the message, and the body is the content of
    the message when that is not empty, and ["Sent an image"] when the
    message has no content or an empty one; so the body is never
    empty. *)
Theorem onInsert_notifies (row : Message) (c : Client) (s : Server) :
  let w' := onInsert row (c, s) in
  let found := maybeSingle (filter (λ p, profile_user_id p = sender_id row) (profiles_tbl s)) in
  (Some (sender_id row) = user c → notifications w'.1 = notifications c) ∧
  (found = None → notifications w'.1 = notifications c) ∧
  (∀ pd, found = Some pd → Some (sender_id row) ≠ user c →
     ∃ body,
       notifications w'.1
       = notifications c ++
           [mkNotification ("New message from " +:+ display_name pd) body
                           ("message-" +:+ id row)] ∧
       body ≠ [] ∧
       (∀ t, content row = Some t → t ≠ [] → body = t) ∧
       (content row = None ∨ content row = Some [] → body = literal "Sent an image")).
Proof.
  cbn zeta. unfold onInsert. cbn zeta.
  set (found := maybeSingle _).
  set (l' := if some _ (messages c) then _ else _).
  destruct found as [pd|]; cbn [fst].
  - destruct (bool_decide (Some (sender_id row) ≠ user c)) eqn:E.
    + apply bool_decide_eq_true in E. cbn [fst set_notifications notifications set_messages].
      split; [done|]. split; [done|].
      intros pd' [= <-] _. eexists. split; [reflexivity|].
      destruct (content row) as [[|a b]|].
      * split; [done|]. split; [by intros t [= <-] | done].
      * split; [done|]. split; [by intros t [= <-] |]. by intros [[=] | [=]].
      * split; [done|]. split; [done | done].
    + apply bool_decide_eq_false in E. cbn [fst set_messages notifications].
      split; [done|]. split; [done|].
      intros pd' _ Hne. done.
  - cbn [set_messages notifications]. done.
Qed.

(** ** Activity and presence *)

Lemma isUserOnline_fetch now c s uid :
  isUserOnline (fetchOnlineUsers now true (c, s)).1 uid = true ↔
  ∃ p t, p ∈ profiles_tbl s ∧ profile_user_id p = uid ∧
         last_seen p = Some t ∧ now - t ≤ 5 * 60 * 1000.
Proof.
  unfold isUserOnline, fetchOnlineUsers.
  cbn [fst set_onlineUsers onlineUsers from_option Datatypes.id].
  rewrite bool_decide_eq_true, elem_of_list_to_set, list_elem_of_fmap. split.
  - intros (p & -> & Hp). apply list_elem_of_filter in Hp as [Hgte Hp].
    apply Is_true_true, gte_spec in Hgte as (t & Ht & Hle).
    exists p, t. repeat split; [done | done | lia].
  - intros (p & t & Hp & <- & Ht & Hle). exists p. split; [done|].
    apply list_elem_of_filter. split; [|done].
    apply Is_true_true, gte_spec. exists t. split; [done | lia].
Qed.

Lemma updateUserPresence_profiles now c s uid :
  user c = Some uid →
  profiles_tbl (updateUserPresence now (c, s)).2
  = (λ p, if bool_decide (profile_user_id p = uid)
          then with_last_seen (Some now) p else p) <$> profiles_tbl s.
Proof. intros Hu. unfold updateUserPresence. by rewrite Hu. Qed.

(** X6.  Let the user have a profile and record activity at instant [t].
    Then any page that fetches the online users at instant [t'] reports
    this user online exactly when [t' - t ≤ 5 minutes], and what it
    reports about every other user is what it would have reported
    without the update. *)
Theorem presence_after_activity (c : Client) (s : Server) (uid : string)
    (t t' : Timestamp) :
  user c = Some uid →
  (∃ p, p ∈ profiles_tbl s ∧ profile_user_id p = uid) →
  let s1 := (updateUserPresence t (c, s)).2 in
  ∀ viewer,
    (isUserOnline (fetchOnlineUsers t' true (viewer, s1)).1 uid = true
     ↔ t' - t ≤ 5 * 60 * 1000) ∧
    (∀ v, v ≠ uid →
       isUserOnline (fetchOnlineUsers t' true (viewer, s1)).1 v
       = isUserOnline (fetchOnlineUsers t' true (viewer, s)).1 v).
Proof.
  intros Hu (p0 & Hp0 & Hid0) s1 viewer. subst s1.
  pose proof (updateUserPresence_profiles t c s uid Hu) as Hprof.
  destruct (updateUserPresence t (c, s)) as [c1 s1]. cbn [snd] in *.
  split.
  - rewrite isUserOnline_fetch, Hprof. split.
    + intros (p & x & Hp & Hid & Hseen & Hle).
      apply list_elem_of_fmap in Hp as (q & -> & Hq).
      destruct (bool_decide (profile_user_id q = uid)) eqn:E.
      * cbn in Hseen. injection Hseen as <-. exact Hle.
      * apply bool_decide_eq_false in E. done.
    + intros Hle. exists (with_last_seen (Some t) p0), t. repeat split; [|done|done].
      apply list_elem_of_fmap. exists p0. split; [|done].
      by rewrite bool_decide_eq_true_2.
  - intros v Hv.
    destruct (isUserOnline (fetchOnlineUsers t' true (viewer, s)).1 v) eqn:E.
    + apply isUserOnline_fetch. apply isUserOnline_fetch in E
        as (p & x & Hp & Hid & Hseen & Hle).
      exists p, x. repeat split; try done. rewrite Hprof.
      apply list_elem_of_fmap. exists p. split; [|done].
      rewrite bool_decide_eq_false_2; [done | congruence].
    + destruct (isUserOnline (fetchOnlineUsers t' true (viewer, s1)).1 v) eqn:E1; [|done].
      apply isUserOnline_fetch in E1 as (p & x & Hp & Hid & Hseen & Hle).
      rewrite Hprof in Hp. apply list_elem_of_fmap in Hp as (q & -> & Hq).
      assert (bool_decide (profile_user_id q = uid) = false) as Hq'.
      { apply bool_decide_eq_false. intros Heq.
        rewrite bool_decide_eq_true_2 in Hid by done. cbn in Hid. congruence. }
      rewrite Hq' in Hid, Hseen.
      assert (isUserOnline (fetchOnlineUsers t' true (viewer, s)).1 v = true); [|congruence].
      apply isUserOnline_fetch. by exists q, x.
Qed.

Lemma presence_after_activity_witness :
  user sample_client = Some "bob" ∧
  (isUserOnline
     (fetchOnlineUsers 400000 true
        (sample_client, (updateUserPresence 100000 sample_world).2)).1 "bob" = true
   ↔ 400000 - 100000 ≤ 5 * 60 * 1000).
Proof.
  split; [reflexivity|].
  assert (∃ p, p ∈ profiles_tbl sample_server ∧ profile_user_id p = "bob") as Hp.
  { exists bob. split; [|reflexivity]. right. left. }
  exact (proj1 (presence_after_activity sample_client sample_server "bob" 100000 400000
                  eq_refl Hp sample_client)).
Defined.

(** ** From the caller to the callee *)



(** ** Hanging up *)

(** X8.  Once a [call_ended] broadcast has been received, the call view
    is closed, no invitation is pending, and whatever timers are still
    running, the passage of time adds no missed-call toast. *)
Theorem call_ended_silences_timers (w : World) (t0 : Timestamp)
    (later : list Timestamp) :
  let before := (run [(t0, Elapse)] w).1 in
  let after := (run ((t0, CallEndedReceived) :: ((λ t, (t, Elapse)) <$> later)) w).1 in
  toasts after = toasts before ∧ incomingCall after = None ∧
  showVideoCall after = false ∧ messages after = messages before ∧
  selectedConversation after = selectedConversation before.
Proof.
  cbn zeta. destruct w as [c s]. unfold run. cbn [foldl step fst snd].
  set (c1 := onCallEnded (tick t0 c)).
  assert (toasts c1 = toasts (tick t0 c) ∧ incomingCall c1 = None ∧
          showVideoCall c1 = false ∧ messages c1 = messages (tick t0 c) ∧
          selectedConversation c1 = selectedConversation (tick t0 c)) as Hinv by done.
  clearbody c1. revert c1 Hinv.
  induction later as [|t later IH]; intros c1 Hinv; [exact Hinv|].
  cbn [fmap list_fmap foldl step fst snd]. apply IH.
  destruct Hinv as (H1 & H2 & H3 & H4 & H5). rewrite (tick_none t c1 H2). done.
Qed.

(** ** Who is typing *)

Lemma last_signal_snoc u signals sig :
  last_signal u (signals ++ [sig])
  = if bool_decide (typing_user_id sig = u) then Some sig else last_signal u signals.
Proof.
  unfold last_signal. rewrite filter_app, filter_cons, filter_nil.
  destruct (decide (typing_user_id sig = u)) as [Heq | Hne].
  - rewrite bool_decide_eq_true_2 by done. by rewrite last_snoc.
  - rewrite bool_decide_eq_false_2 by done. by rewrite app_nil_r.
Qed.

(** X9.  After any sequence of typing signals, the map of the page holds
    for each other user what that user's last signal says: an entry with
    the name of that signal when it says typing, no entry when it says
    not typing; a user who sent no signal, and the user of the page, keep
    what the map held before. *)
Theorem typing_users_follow_last_signal (uid : string) (signals : list TypingSignal)
    (before : gmap string TypingUser) (u : string) :
  foldl (λ m sig, onTyping uid sig m) before signals !! u
  = match last_signal u signals with
    | Some sig =>
        if bool_decide (u = uid) then before !! u
        else if is_typing sig then Some (mkTypingUser u (typing_display_name sig))
        else None
    | None => before !! u
    end.
Proof.
  induction signals as [|sig signals IH] using rev_ind; [done|].
  rewrite foldl_snoc, last_signal_snoc. unfold onTyping at 1.
  destruct (decide (typing_user_id sig = u)) as [Heq | Hne].
  - rewrite (bool_decide_eq_true_2 (typing_user_id sig = u)) by done. subst u.
    destruct (decide (typing_user_id sig = uid)) as [Hself | Hother].
    + rewrite bool_decide_eq_false_2 by (intros H; by apply H).
      rewrite (bool_decide_eq_true_2 _ Hself). rewrite IH.
      rewrite (bool_decide_eq_true_2 _ Hself).
      by destruct (last_signal _ _).
    + rewrite bool_decide_eq_true_2 by done.
      rewrite (bool_decide_eq_false_2 _ Hother).
      destruct (is_typing sig); [by rewrite lookup_insert_eq | by rewrite lookup_delete_eq].
  - rewrite (bool_decide_eq_false_2 (typing_user_id sig = u)) by done.
    rewrite <- IH. destruct (bool_decide (typing_user_id sig ≠ uid)); [|done].
    destruct (is_typing sig); [by rewrite lookup_insert_ne | by rewrite lookup_delete_ne].
Qed.

(** ** The typing signals a page sends *)

Lemma sendTypingIndicator_set_newMessage b v c :
  sendTypingIndicator b (set_newMessage v c) = sendTypingIndicator b c.
Proof. done. Qed.

Lemma last_cons_default {A} (x : A) (l : list A) (d : A) :
  default d (last (x :: l)) = default x (last l).
Proof.
  revert x d. induction l as [|y l IH]; intros x d; [done|].
  rewrite last_cons_cons. by rewrite (IH y d), (IH y x).
Qed.

Lemma keystrokes_steady (c : Client) (on off : string * TypingSignal) :
  sendTypingIndicator true c = [on] → sendTypingIndicator false c = [off] →
  ∀ keys t st k,
    steady t keys →
    typingTimeoutRef st = Some (t + 2000, [off]) →
    typing_sent st = replicate k on →
    (∀ b, sendTypingIndicator b (page st) = sendTypingIndicator b c) →
    let st' := foldl keystroke st keys in
    typingTimeoutRef st' = Some ((default (t, []) (last keys)).1 + 2000, [off]) ∧
    typing_sent st' = replicate (k + length keys) on ∧
    (∀ b, sendTypingIndicator b (page st') = sendTypingIndicator b c) ∧
    (∀ v, newMessage (page st) = v →
          newMessage (page st') = (default (t, v) (last keys)).2).
Proof.
  intros Hon Hoff keys. induction keys as [|[t' v'] keys IH]; intros t st k Hst Href Hsent Hpage.
  - cbn. rewrite Nat.add_0_r. done.
  - cbn [steady fst] in Hst. destruct Hst as (Hle & Hlt & Hst).
    cbn [foldl].
    assert (typing_tick t' st = st) as Htick.
    { unfold typing_tick. rewrite Href.
      destruct (t + 2000 <=? t') eqn:E; [apply Z.leb_le in E; lia | done]. }
    set (st1 := keystroke st (t', v')).
    assert (typingTimeoutRef st1 = Some (t' + 2000, [off])) as Href1.
    { unfold st1, keystroke. cbn [fst snd]. rewrite Htick. unfold handleInputChange.
      cbn [typingTimeoutRef]. by rewrite Hpage, Hoff. }
    assert (typing_sent st1 = replicate (S k) on) as Hsent1.
    { unfold st1, keystroke. cbn [fst snd]. rewrite Htick. unfold handleInputChange.
      cbn [typing_sent]. rewrite Hpage, Hon, Hsent.
      change (S k) with (1 + k)%nat. rewrite Nat.add_comm, replicate_add. done. }
    assert (∀ b, sendTypingIndicator b (page st1) = sendTypingIndicator b c) as Hpage1.
    { intros b. unfold st1, keystroke. cbn [fst snd]. rewrite Htick.
      unfold handleInputChange. cbn [page].
      by rewrite sendTypingIndicator_set_newMessage. }
    assert (newMessage (page st1) = v') as Hnew1.
    { unfold st1, keystroke. cbn [fst snd]. rewrite Htick. done. }
    specialize (IH t' st1 (S k) Hst Href1 Hsent1 Hpage1).
    cbn zeta in IH. destruct IH as (IH1 & IH2 & IH3 & IH4).
    assert (∀ d : Timestamp * Text,
              (default d (last ((t', v') :: keys))) = default (t', v') (last keys)) as Hlast.
    { intros d. apply last_cons_default. }
    assert (∀ v, (default (t', v) (last keys)).1 = (default (t', []) (last keys)).1) as Hfst.
    { intros v. by destruct (last keys). }
    split; [|split; [|split]].
    + rewrite IH1, Hlast. by destruct (last keys).
    + rewrite IH2. cbn [length]. f_equal. lia.
    + exact IH3.
    + intros v _. rewrite Hlast. by apply IH4.
Qed.



(** ** The search term *)

Lemma like_literal_escape (s : Text) : like_literal (escape_like s) = Some s.
Proof.
  induction s as [|u s IH]; [done|]. cbn [escape_like].
  destruct (like_special u) eqn:E.
  - cbn [like_literal]. rewrite Z.eqb_refl. by rewrite IH.
  - cbn [like_literal].
    assert ((u =? backslash) = false) as Hb.
    { unfold like_special in E. apply orb_false_iff in E as [_ E]. exact E. }
    rewrite Hb, E, IH. done.
Qed.

Lemma escape_like_length (s : Text) : (length (escape_like s) ≤ 2 * length s)%nat.
Proof.
  induction s as [|u s IH]; [done|]. cbn [escape_like].
  destruct (like_special u); cbn [length]; lia.
Qed.

(** Escaping changes nothing but the backslashes it adds: a text without
    [%], [_] and backslash is left as it is. *)
Lemma escape_like_plain (s : Text) :
  Forall (λ u, like_special u = false) s → escape_like s = s.
Proof.
  induction 1 as [|u s Hu _ IH]; [done|]. cbn [escape_like]. by rewrite Hu, IH.
Qed.

(** X11.  The sanitized search term is the trimmed term, cut to its
    first 100 UTF-16 code units, with a backslash put before each [%],
    [_] and backslash and nothing else changed: dropping the escaping
    backslashes gives back exactly the cut, trimmed term, and a term
    without these three characters is only trimmed and cut.  The result
    has at most 200 code units, and two terms get the same result only if
    they are the same once trimmed and cut. *)
Theorem sanitizedTerm_is_literal (searchTerm : Text) :
  let cut := slice_to 100 (trim searchTerm) in
  like_literal (sanitizedTerm searchTerm) = Some cut ∧
  cut `prefix_of` trim searchTerm ∧
  length cut = (100 `min` length (trim searchTerm))%nat ∧
  (Forall (λ u, like_special u = false) searchTerm → sanitizedTerm searchTerm = cut) ∧
  (length (sanitizedTerm searchTerm) ≤ 200)%nat ∧
  (∀ other, sanitizedTerm searchTerm = sanitizedTerm other →
            cut = slice_to 100 (trim other)).
Proof.
  cbn zeta. unfold sanitizedTerm, slice_to.
  split; [apply like_literal_escape|]. split; [apply prefix_take|].
  split; [apply length_take|]. split; [|split].
  - intros Hplain. apply escape_like_plain.
    destruct (trim_split searchTerm) as (front & back & Hs & _).
    rewrite Hs in Hplain. apply Forall_app in Hplain as [_ Hplain].
    apply Forall_app in Hplain as [Hplain _]. by apply Forall_take.
  - pose proof (escape_like_length (take 100 (trim searchTerm))) as H1.
    rewrite length_take in H1. lia.
  - intros other Heq.
    assert (Some (take 100 (trim searchTerm)) = Some (take 100 (trim other))) as H.
    { rewrite <- !like_literal_escape. by rewrite Heq. }
    by injection H.
Qed.

(** ** The name of a conversation *)

Lemma find_first {A} (p : A → bool) (before after : list A) (x : A) :
  (∀ y, y ∈ before → p y = false) → p x = true →
  find p (before ++ x :: after) = Some x.
Proof.
  intros Hbefore Hx. unfold find.
  induction before as [|y before IH]; cbn [app List.find]; [by rewrite Hx|].
  rewrite (Hbefore y) by left. apply IH. intros z Hz. apply Hbefore. by right.
Qed.

Lemma find_nobody {A} (p : A → bool) (l : list A) :
  (∀ y, y ∈ l → p y = false) → find p l = None.
Proof.
  intros Hl. unfold find. induction l as [|y l IH]; [done|]. cbn [List.find].
  rewrite (Hl y) by left. apply IH. intros z Hz. apply Hl. by right.
Qed.

(** X12.  The name shown for a conversation is never empty.  For a group
    it is the name of the group when that is not empty, and ["Group
    Chat"] when the group has no name or an empty one.  For a direct
    conversation it is the display name of the first participant who is
    not the user when that name is not empty, and ["Unknown User"] when
    that name is empty, when every participant is the user, or when the
    conversation has no list of participants.  So when the participants
    are the user and one other person with a name, in either order, it is
    that person's name. *)
Theorem getConversationName_shown (c : Client) (conversation : Conversation) :
  let shown := getConversationName c conversation in
  shown ≠ "" ∧
  (is_group conversation = true →
     (∀ n, name conversation = Some n → n ≠ "" → shown = n) ∧
     (name conversation = None ∨ name conversation = Some "" → shown = "Group Chat")) ∧
  (is_group conversation = false →
     (∀ before p after,
        participants conversation = Some (before ++ p :: after) →
        (∀ q, q ∈ before → Some (profile_user_id q) = user c) →
        Some (profile_user_id p) ≠ user c →
        (display_name p ≠ "" → shown = display_name p) ∧
        (display_name p = "" → shown = "Unknown User")) ∧
     (∀ ps, participants conversation = Some ps →
            (∀ q, q ∈ ps → Some (profile_user_id q) = user c) →
            shown = "Unknown User") ∧
     (participants conversation = None → shown = "Unknown User")) ∧
  (∀ me other,
     is_group conversation = false → user c = Some (profile_user_id me) →
     profile_user_id other ≠ profile_user_id me → display_name other ≠ "" →
     participants conversation = Some [me; other] ∨
     participants conversation = Some [other; me] →
     shown = display_name other).
Proof.
  cbn zeta.
  assert (is_group conversation = false →
          ∀ before p after,
            participants conversation = Some (before ++ p :: after) →
            (∀ q, q ∈ before → Some (profile_user_id q) = user c) →
            Some (profile_user_id p) ≠ user c →
            (display_name p ≠ "" → getConversationName c conversation = display_name p) ∧
            (display_name p = "" → getConversationName c conversation = "Unknown User"))
    as Hfirst.
  { intros Hdirect before p after Hps Hbefore Hp. unfold getConversationName.
    rewrite Hdirect, Hps. cbn [mbind option_bind].
    rewrite (find_first _ before after p).
    - cbn [fmap option_fmap option_map]. by destruct (display_name p).
    - intros q Hq. apply bool_decide_eq_false. intros Hne. by apply Hne, Hbefore.
    - by apply bool_decide_eq_true. }
  split; [|split; [|split]].
  - unfold getConversationName. destruct (is_group conversation).
    + by destruct (name conversation) as [[|a b]|].
    + by destruct (display_name <$> _) as [[|a b]|].
  - intros Hgroup. unfold getConversationName. rewrite Hgroup. split.
    + intros n -> Hn. by destruct n.
    + by intros [-> | ->].
  - intros Hdirect. split; [by apply Hfirst|]. split.
    + intros ps Hps Hall. unfold getConversationName. rewrite Hdirect, Hps.
      cbn [mbind option_bind]. rewrite find_nobody; [done|].
      intros q Hq. apply bool_decide_eq_false. intros Hne. by apply Hne, Hall.
    + intros Hps. unfold getConversationName. by rewrite Hdirect, Hps.
  - intros me other Hdirect Huser Hne Hname [Hps | Hps].
    + apply (Hfirst Hdirect [me] other []); [done | | congruence | done].
      intros q Hq. apply list_elem_of_singleton in Hq. by subst q.
    + apply (Hfirst Hdirect [] other [me]); [done | | congruence | done].
      intros q Hq. by apply elem_of_nil in Hq.
Qed.

(** ** The counts under a message *)

(** What one more reaction with a key makes of what the object holds
    under that key. *)
Lemma reaction_counts_from (acc : gmap string Count) (rs : list Reaction) (e : string) :
  e ≠ "__proto__" →
  foldl (λ acc r,
           if bool_decide (emoji r = "__proto__") then acc
           else
             <[emoji r :=
                 match acc !! emoji r with
                 | Some (count n) => count (n + 1)
                 | Some (member_text ones) => member_text (ones + 1)
                 | None =>
                     if bool_decide (emoji r ∈ object_prototype_members)
                     then member_text 1 else count 1
                 end]> acc) acc rs !! e
  = let n := length (filter (λ r, emoji r = e) rs) in
    if decide (n = 0)%nat then acc !! e
    else Some match acc !! e with
              | Some (count k) => count (k + n)
              | Some (member_text k) => member_text (k + n)
              | None =>
                  if bool_decide (e ∈ object_prototype_members)
                  then member_text n else count n
              end.
Proof.
  intros Hproto. revert acc. induction rs as [|r rs IH]; intros acc; [done|].
  cbn [foldl]. rewrite IH, filter_cons. cbn zeta.
  destruct (decide (emoji r = e)) as [-> | Hne].
  - rewrite (bool_decide_eq_false_2 _ Hproto), lookup_insert_eq. cbn [length].
    rewrite (decide_False (P := (S _ = 0)%nat)) by lia.
    destruct (decide (length _ = 0%nat)) as [-> | _].
    + destruct (acc !! e) as [[k|k]|]; [by rewrite Nat.add_1_r.. |done].
    + f_equal. destruct (acc !! e) as [[k|k]|].
      * f_equal. lia.
      * f_equal. lia.
      * by destruct (bool_decide _).
  - destruct (bool_decide (emoji r = "__proto__")); [done|].
    by rewrite lookup_insert_ne.
Qed.

Lemma reaction_counts_proto (acc : gmap string Count) (rs : list Reaction) :
  foldl (λ acc r,
           if bool_decide (emoji r = "__proto__") then acc
           else
             <[emoji r :=
                 match acc !! emoji r with
                 | Some (count n) => count (n + 1)
                 | Some (member_text ones) => member_text (ones + 1)
                 | None =>
                     if bool_decide (emoji r ∈ object_prototype_members)
                     then member_text 1 else count 1
                 end]> acc) acc rs !! "__proto__"
  = acc !! "__proto__".
Proof.
  revert acc. induction rs as [|r rs IH]; intros acc; [done|].
  cbn [foldl]. rewrite IH. case_bool_decide as Hr; [done|].
  by rewrite lookup_insert_ne.
Qed.

Lemma reaction_counts_lookup (rs : list Reaction) (e : string) :
  reaction_counts rs !! e
  = let n := length (filter (λ r, emoji r = e) rs) in
    if decide (n = 0%nat ∨ e = "__proto__") then None
    else if decide (e ∈ object_prototype_members) then Some (member_text n)
    else Some (count n).
Proof.
  unfold reaction_counts. cbn zeta.
  destruct (decide (e = "__proto__")) as [-> | Hproto].
  - rewrite reaction_counts_proto, lookup_empty. rewrite decide_True; [done | by right].
  - rewrite reaction_counts_from by done. cbn zeta. rewrite lookup_empty.
    destruct (decide (length _ = 0%nat)) as [Hn | Hn].
    + rewrite decide_True; [done | by left].
    + rewrite decide_False by (intros [? | ?]; done).
      by destruct (decide (e ∈ object_prototype_members));
        [rewrite bool_decide_eq_true_2 | rewrite bool_decide_eq_false_2].
Qed.

Lemma newReactions_occurrences (uid e e' : string) (rs : list Reaction) :
  let occurrences := λ l, length (filter (λ r, emoji r = e') l) in
  (e' ≠ e → filter (λ r, emoji r = e') (newReactions uid e rs)
            = filter (λ r, emoji r = e') rs) ∧
  (e' = e → mkReaction e uid ∈ rs →
   S (occurrences (newReactions uid e rs)) = occurrences rs) ∧
  (e' = e → mkReaction e uid ∉ rs →
   occurrences (newReactions uid e rs) = S (occurrences rs)).
Proof.
  cbn zeta. split; [|split].
  - intros Hne. destruct (decide (mkReaction e uid ∈ rs)) as [Hin | Hout].
    + apply list_elem_of_split_l in Hin as (l1 & l2 & -> & Hl1).
      rewrite (newReactions_present uid e l1 l2 Hl1).
      rewrite !filter_app, filter_cons. cbn [emoji]. by rewrite decide_False by congruence.
    + rewrite (newReactions_absent uid e rs Hout).
      rewrite filter_app, filter_cons, filter_nil. cbn [emoji].
      rewrite decide_False by congruence. apply app_nil_r.
  - intros -> Hin. apply list_elem_of_split_l in Hin as (l1 & l2 & -> & Hl1).
    rewrite (newReactions_present uid e l1 l2 Hl1).
    rewrite !filter_app, filter_cons. cbn [emoji]. rewrite decide_True by done.
    rewrite !length_app. cbn [length]. lia.
  - intros -> Hout. rewrite (newReactions_absent uid e rs Hout).
    rewrite filter_app, filter_cons, filter_nil. cbn [emoji]. rewrite decide_True by done.
    rewrite length_app. cbn [length]. lia.
Qed.

(** X13.  What is shown under a message, for every key: an emoji that
    does not occur among the reactions has no entry; an emoji that occurs
    has one entry, the number of reactions with it, which is at least
    one.  This is so for every key that is not the name of a member of
    [Object.prototype]; for such a name what is shown is not a number but
    a text, and [__proto__] is never shown.  A press on an emoji by a
    user changes the number of reactions with that emoji by exactly one
    (down when the user had reacted with it, up otherwise) and leaves the
    entries of all other keys as they are; so for an ordinary emoji the
    count shown moves by exactly one, and the entry goes when it would
    reach zero. *)
Theorem reaction_counts_follow_toggle (uid e : string) (rs : list Reaction) :
  let occurrences := λ l e', length (filter (λ r, emoji r = e') l) in
  let ordinary := λ e', e' ≠ "__proto__" ∧ e' ∉ object_prototype_members in
  (∀ e', reaction_counts rs !! e'
         = if decide (occurrences rs e' = 0%nat ∨ e' = "__proto__") then None
           else if decide (e' ∈ object_prototype_members)
                then Some (member_text (occurrences rs e'))
                else Some (count (occurrences rs e'))) ∧
  (∀ e', reaction_counts rs !! e' ≠ Some (count 0)) ∧
  (∀ e', e' ≠ e → reaction_counts (newReactions uid e rs) !! e' = reaction_counts rs !! e') ∧
  (mkReaction e uid ∈ rs →
     S (occurrences (newReactions uid e rs) e) = occurrences rs e ∧
     (ordinary e →
      reaction_counts rs !! e = Some (count (occurrences rs e)) ∧
      reaction_counts (newReactions uid e rs) !! e
      = if decide (occurrences rs e = 1%nat) then None
        else Some (count (occurrences rs e - 1)))) ∧
  (mkReaction e uid ∉ rs →
     occurrences (newReactions uid e rs) e = S (occurrences rs e) ∧
     (ordinary e →
      reaction_counts (newReactions uid e rs) !! e
      = Some (count (S (occurrences rs e))))).
Proof.
  cbn zeta.
  split; [intros e'; apply reaction_counts_lookup|]. split; [|split; [|split]].
  - intros e'. rewrite reaction_counts_lookup. cbn zeta.
    destruct (decide (_ ∨ _)) as [|Hno]; [done|]. destruct (decide _); [done|].
    intros [= Hzero]. apply Hno. by left.
  - intros e' Hne. rewrite !reaction_counts_lookup. cbn zeta.
    by rewrite (proj1 (newReactions_occurrences uid e e' rs) Hne).
  - intros Hin.
    pose proof (proj1 (proj2 (newReactions_occurrences uid e e rs)) eq_refl Hin) as Hocc.
    cbn zeta in Hocc. split; [exact Hocc|]. intros [Hproto Hmember].
    rewrite !reaction_counts_lookup. cbn zeta. rewrite <- Hocc. clear Hocc.
    rewrite (decide_False (P := (S _ = 0%nat ∨ _))) by (intros [? | ?]; done).
    rewrite decide_False by done. split; [done|].
    destruct (decide (S _ = 1%nat)) as [Hone | Hmore].
    + rewrite decide_True; [done | left; by injection Hone].
    + rewrite decide_False by (intros [Hzero | ?]; [by rewrite Hzero in Hmore | done]).
      rewrite decide_False by done. cbn [Nat.sub]. by rewrite Nat.sub_0_r.
  - intros Hout.
    pose proof (proj2 (proj2 (newReactions_occurrences uid e e rs)) eq_refl Hout) as Hocc.
    cbn zeta in Hocc. split; [exact Hocc|]. intros [Hproto Hmember].
    rewrite reaction_counts_lookup. cbn zeta. rewrite Hocc.
    rewrite decide_False by (intros [? | ?]; done). by rewrite decide_False.
Qed.

(** ** The status under the last own message *)

Lemma seenByOthers_nonempty c m :
  (0 <? length (seenByOthers c m))%nat = true ↔ ∃ v, v ∈ seen m ∧ Some v ≠ user c.
Proof.
  unfold seenByOthers. rewrite Nat.ltb_lt. split.
  - intros Hlen. destruct (filter _ (seen m)) as [|v l] eqn:E; [cbn in Hlen; lia|].
    exists v. assert (v ∈ filter (λ i, Some i ≠ user c) (seen m)) as Hv by (rewrite E; left).
    apply list_elem_of_filter in Hv. tauto.
  - intros (v & Hv & Hne).
    assert (v ∈ filter (λ i, Some i ≠ user c) (seen m)) as Hin
      by (by apply list_elem_of_filter).
    destruct (filter _ (seen m)); [by apply elem_of_nil in Hin | cbn; lia].
Qed.

Lemma seen_status_cases c m :
  seen_status c m
  = if isLastOwnMessage c m then
      Some (if (0 <? length (seenByOthers c m))%nat then "Seen" else "Sent")
    else None.
Proof.
  unfold seen_status, isLastOwnMessage. by destruct (isOwnMessage c m).
Qed.

Lemma isLastOwnMessage_spec c m :
  NoDup (ids (messages c)) → m ∈ messages c →
  isLastOwnMessage c m = true
  ↔ last (filter (λ x, Some (sender_id x) = user c) (messages c)) = Some m.
Proof.
  intros Hnd Hm. unfold isLastOwnMessage, isOwnMessage.
  rewrite andb_true_iff, !bool_decide_eq_true. split.
  - intros [Hown Hlast].
    destruct (last _) as [x|] eqn:E; [|done]. cbn in Hlast. injection Hlast as Hid.
    f_equal. apply last_Some_elem_of, list_elem_of_filter in E as [_ Hx].
    by eapply NoDup_ids_inj.
  - intros Hlast. rewrite Hlast. split; [|done].
    apply last_Some_elem_of, list_elem_of_filter in Hlast as [Hown _]. done.
Qed.

(** X14.  In a list with distinct keys, the status line is shown under
    the last message of the user and under no other message; it reads
    ["Seen"] exactly when someone other than the user is among those who
    have seen that message, and ["Sent"] otherwise. *)
Theorem seen_status_only_last_own (c : Client) :
  NoDup (ids (messages c)) →
  let last_own := last (filter (λ x, Some (sender_id x) = user c) (messages c)) in
  ∀ m, m ∈ messages c →
    (seen_status c m ≠ None ↔ last_own = Some m) ∧
    (seen_status c m = Some "Seen"
     ↔ last_own = Some m ∧ ∃ v, v ∈ seen m ∧ Some v ≠ user c) ∧
    (seen_status c m = Some "Sent"
     ↔ last_own = Some m ∧ ∀ v, v ∈ seen m → Some v = user c).
Proof.
  intros Hnd last_own m Hm. subst last_own.
  pose proof (isLastOwnMessage_spec c m Hnd Hm) as Hlast.
  pose proof (seenByOthers_nonempty c m) as Hothers.
  rewrite seen_status_cases.
  destruct (isLastOwnMessage c m) eqn:E.
  - assert (last (filter (λ x, Some (sender_id x) = user c) (messages c)) = Some m)
      as Hl by (by apply Hlast).
    destruct (0 <? length (seenByOthers c m))%nat eqn:E2.
    + assert (∃ v, v ∈ seen m ∧ Some v ≠ user c) as (v & Hv & Hne) by (by apply Hothers).
      split; [done|]. split.
      * split; [intros _; split; [done | by exists v] | done].
      * split; [done|]. intros [_ Hall]. exfalso. apply Hne. by apply Hall.
    + split; [done|]. split.
      * split; [done|]. intros [_ Hex]. apply Hothers in Hex. congruence.
      * split; [|done]. intros _. split; [done|]. intros v Hv.
        destruct (decide (Some v = user c)) as [|Hne]; [done|].
        assert (false = true); [|done]. apply Hothers. by exists v.
  - assert (last (filter (λ x, Some (sender_id x) = user c) (messages c)) ≠ Some m)
      as Hl by (intros H; apply Hlast in H; congruence).
    split; [|split]; split; try done; by intros [? _].
Qed.

Lemma seen_status_only_last_own_witness :
  NoDup (ids (messages sample_client)) ∧
  (seen_status sample_client reply ≠ None
   ↔ last (filter (λ x, Some (sender_id x) = user sample_client) (messages sample_client))
     = Some reply).
Proof.
  assert (NoDup (ids (messages sample_client))) as Hnd.
  { apply (bool_decide_unpack _). vm_compute. exact I. }
  split; [exact Hnd|].
  assert (reply ∈ messages sample_client) as Hin by (right; left).
  exact (proj1 (seen_status_only_last_own sample_client Hnd reply Hin)).
Defined.

(** ** From the reader back to the sender *)

Lemma filter_fmap_same (P : Message → Prop) `{∀ m, Decision (P m)}
    (f : Message → Message) (l : list Message) :
  (∀ m, P (f m) ↔ P m) → filter P (f <$> l) = f <$> filter P l.
Proof.
  intros Hf. induction l as [|a l IH]; [done|].
  rewrite fmap_cons, !filter_cons.
  destruct (decide (P a)) as [Ha | Ha].
  - rewrite decide_True by (by apply Hf). by rewrite fmap_cons, IH.
  - rewrite decide_False by (by rewrite Hf). exact IH.
Qed.

(** X15.  A message of user [a] in a conversation that user [b] has
    open.  When [b]'s page marks the conversation as seen (the update of
    this row not being refused), the row lists [b]; and when the change
    feed delivers this row to [a]'s page, where the message is the last
    own one, the status under it reads ["Seen"]. *)
Theorem seen_reaches_sender (cA cB : Client) (s : Server) (conv a b : string)
    (refused : string → bool) (i : nat) (r m : Message) :
  NoDup (ids (messages_tbl s)) → messages_tbl s !! i = Some r →
  sender_id r = a → conversation_id r = conv → b ≠ a →
  selectedConversation cB = Some conv → user cB = Some b → refused (id r) = false →
  user cA = Some a →
  last (filter (λ x, Some (sender_id x) = user cA) (messages cA)) = Some m →
  id m = id r →
  ∃ r',
    messages_tbl (markMessagesAsSeen true refused (cB, s)).2 !! i = Some r' ∧
    id r' = id r ∧ b ∈ seen r' ∧ (∀ v, v ∈ seen r → v ∈ seen r') ∧
    ∃ m', m' ∈ messages (onUpdate r' cA) ∧ id m' = id m ∧ seen m' = seen r' ∧
          seen_status (onUpdate r' cA) m' = Some "Seen".
Proof.
  intros Hnd Hi Hsender Hconv Hba HselB HuserB Href HuserA Hlast Hid.
  exists (mark_row conv b refused r).
  assert (b ∈ seen (mark_row conv b refused r)) as Hb.
  { unfold mark_row. rewrite decide_True by (split; congruence).
    destruct (includes b (seen r)) eqn:Hinc; [by apply includes_spec|].
    rewrite Href. unfold seen at 1. cbn. apply elem_of_app. right. left. }
  split; [|split; [apply mark_row_id | split; [exact Hb | split]]].
  - rewrite markMessagesAsSeen_unfold. rewrite HselB, HuserB.
    cbn [snd set_messages_tbl messages_tbl].
    rewrite mark_seen_loop_spec by done. by rewrite list_lookup_fmap, Hi.
  - intros v. apply mark_row_seen.
  - set (r' := mark_row conv b refused r) in *.
    set (g := λ msg : Message,
           if bool_decide (id msg = id r') then
             with_seen_by (Some (default [] (seen_by r')))
               (with_reactions (Some (default [] (reactions r')))
                  (with_content (content r') msg))
           else msg).
    assert (messages (onUpdate r' cA) = g <$> messages cA) as Hmsgs by done.
    assert (user (onUpdate r' cA) = user cA) as Huser' by done.
    assert (id m = id r') as Hid' by (unfold r'; by rewrite mark_row_id).
    assert (g m = with_seen_by (Some (default [] (seen_by r')))
                    (with_reactions (Some (default [] (reactions r')))
                       (with_content (content r') m))) as Hgm
      by (unfold g; by rewrite bool_decide_eq_true_2).
    assert (∀ x, sender_id (g x) = sender_id x ∧ id (g x) = id x) as Hg.
    { intros x. unfold g. by destruct (bool_decide _). }
    pose proof Hlast as Hown.
    apply last_Some_elem_of, list_elem_of_filter in Hown as [Hown Hm].
    exists (g m). split; [rewrite Hmsgs; by apply list_elem_of_fmap_2|].
    split; [apply Hg|]. split; [by rewrite Hgm|].
    rewrite seen_status_cases.
    assert (isLastOwnMessage (onUpdate r' cA) (g m) = true) as ->.
    { unfold isLastOwnMessage, isOwnMessage. rewrite Huser', Hmsgs.
      rewrite (proj1 (Hg m)). rewrite bool_decide_eq_true_2 by done. cbn [andb].
      apply bool_decide_eq_true.
      rewrite (filter_fmap_same (λ x, Some (sender_id x) = user cA) g)
        by (intros x; by rewrite (proj1 (Hg x))).
      by rewrite fmap_last, Hlast. }
    assert ((0 <? length (seenByOthers (onUpdate r' cA) (g m)))%nat = true) as ->; [|done].
    apply seenByOthers_nonempty. exists b. split.
    + rewrite Hgm. exact Hb.
    + rewrite Huser', HuserA. congruence.
Qed.

Lemma seen_reaches_sender_witness :
  let cA := set_messages [reply] sample_client in
  let cB := {| user := Some "alice"; userProfile := Some alice; conversations := [friends];
               selectedConversation := Some "x"; messages := []; newMessage := [];
               isLoading := false; onlineUsers := ∅; showVideoCall := false;
               videoCallUrl := ""; incomingCall := None; editingMessage := None;
               editContent := []; messageToDelete := None; fileInputValue := "";
               timers := []; toasts := []; notifications := [] |} in
  NoDup (ids (messages_tbl sample_server)) ∧
  messages_tbl sample_server !! 1%nat = Some reply ∧
  ∃ r', messages_tbl (markMessagesAsSeen true (λ _, false) (cB, sample_server)).2 !! 1%nat
        = Some r' ∧ seen r' = ["alice"].
Proof.
  cbn zeta.
  assert (NoDup (ids (messages_tbl sample_server))) as Hnd.
  { apply (bool_decide_unpack _). vm_compute. exact I. }
  split; [exact Hnd|]. split; [reflexivity|].
  assert ("alice" ≠ "bob") as Hne by discriminate.
  destruct (seen_reaches_sender (set_messages [reply] sample_client)
              {| user := Some "alice"; userProfile := Some alice; conversations := [friends];
                 selectedConversation := Some "x"; messages := []; newMessage := [];
                 isLoading := false; onlineUsers := ∅; showVideoCall := false;
                 videoCallUrl := ""; incomingCall := None; editingMessage := None;
                 editContent := []; messageToDelete := None; fileInputValue := "";
                 timers := []; toasts := []; notifications := [] |}
              sample_server "x" "bob" "alice" (λ _, false) 1%nat reply reply
              Hnd eq_refl eq_refl eq_refl Hne eq_refl eq_refl eq_refl eq_refl eq_refl eq_refl)
    as (r' & Hr' & _).
  exists r'. split; [exact Hr'|].
  vm_compute in Hr'. injection Hr' as <-. reflexivity.
Defined.

(** ** Push notifications *)

(** X16.  [requestPermission] answers [true] exactly when notifications
    are supported and the browser grants the request; after such an
    answer a notification sent while the document is hidden is displayed.
    Whatever the state, at most the notification asked for is displayed,
    and only when the document is hidden, notifications are supported
    and permission is granted. *)
Theorem requestPermission_enables (answer : option NotificationPermission)
    (h : PushNotifications) (n : Notification) :
  let r := requestPermission answer h in
  (r.2 = true ↔ isSupported h = true ∧ answer = Some granted) ∧
  (r.2 = true → sendNotification true false r.1 n = [n]) ∧
  isSupported r.1 = isSupported h ∧
  (∀ hidden thrown h0,
     sendNotification hidden thrown h0 n = [] ∨
     (sendNotification hidden thrown h0 n = [n] ∧ hidden = true ∧ thrown = false ∧
      isSupported h0 = true ∧ permission h0 = granted)).
Proof.
  cbn zeta. unfold requestPermission.
  split; [|split; [|split]].
  - destruct (isSupported h); cbn [negb snd]; [|by split; [|intros []]].
    destruct answer as [result|]; cbn [snd]; [|by split; [|intros []]].
    rewrite bool_decide_eq_true. split; [by intros -> | by intros [_ [= ->]]].
  - destruct (isSupported h) eqn:Hs; cbn [negb fst snd]; [|done].
    destruct answer as [result|]; cbn [fst snd]; [|done].
    intros Hg. apply bool_decide_eq_true in Hg. subst result.
    unfold sendNotification. cbn. by rewrite bool_decide_eq_true_2.
  - destruct (isSupported h) eqn:Hs; cbn [negb fst]; [|exact Hs].
    destruct answer; [done | exact Hs].
  - intros hidden thrown h0. unfold sendNotification.
    destruct (isSupported h0); cbn [negb orb]; [|by left].
    destruct (bool_decide (permission h0 = granted)) eqn:E; cbn [negb]; [|by left].
    apply bool_decide_eq_true in E.
    destruct hidden; [|by left]. destruct thrown; [by left | by right].
Qed.

(** ** The marks of the table over a run *)

Lemma step_table_event now e w :
  table_event (messages_tbl w.2) (messages_tbl (step now e w).2).
Proof.
  destruct w as [c0 s]. unfold step. cbn [fst snd].
  set (c := tick now c0). clearbody c.
  destruct e; cbn [snd]; try apply event_same.
  - unfold fetchMessages. destruct (selectedConversation c); [|apply event_same].
    destruct error; apply event_same.
  - unfold onInsert. destruct (maybeSingle _); [|apply event_same].
    destruct (bool_decide _); apply event_same.
  - rewrite markMessagesAsSeen_unfold.
    destruct (selectedConversation c); [|apply event_same].
    destruct (user c); [|apply event_same].
    destruct answered; [apply event_seen | apply event_same].
  - unfold addReaction. destruct (user c); [|apply event_same].
    destruct (find _ _); [|apply event_same].
    destruct error; [apply event_same | apply event_reactions].
  - unfold saveEditMessage. destruct (editingMessage c); [|apply event_same].
    destruct (bool_decide _); [apply event_same|].
    destruct error; [apply event_same | apply event_content].
  - unfold confirmDeleteMessage. destruct (messageToDelete c); [|apply event_same].
    destruct error; [apply event_same | apply event_delete].
  - unfold sendMessage. destruct (selectedConversation c); [|apply event_same].
    destruct (user c); [|apply event_same].
    destruct (bool_decide _); [apply event_same|].
    pose proof (updateUserPresence_messages_tbl now (set_isLoading true c) s) as Htbl.
    destruct (updateUserPresence now (set_isLoading true c, s)) as [cP sP].
    cbn [snd] in Htbl. rewrite <- Htbl.
    destruct error; [apply event_same|].
    destruct (insert_message _ _) eqn:Hins; [|apply event_same].
    eapply event_insert. exact Hins.
  - unfold uploadImage. destruct file; [|apply event_same].
    destruct (selectedConversation c); [|apply event_same].
    destruct (user c); [|apply event_same].
    destruct (negb _); [apply event_same|].
    destruct (_ <? _); [apply event_same|].
    pose proof (updateUserPresence_messages_tbl now (set_isLoading true c) s) as Htbl.
    destruct (updateUserPresence now (set_isLoading true c, s)) as [cP sP].
    cbn [snd] in Htbl. rewrite <- Htbl.
    destruct uploadError; [apply event_same|].
    destruct messageError; [apply event_same|].
    destruct (insert_message _ _) eqn:Hins; [|apply event_same].
    eapply event_insert. exact Hins.
  - rewrite updateUserPresence_messages_tbl. apply event_same.
  - unfold startVideoCall. destruct (selectedConversation c); [|apply event_same].
    destruct (userProfile c); [|apply event_same].
    destruct (user c); [|apply event_same].
    destruct (otherParticipants _ _) as [[|other others]|]; try apply event_same.
    destruct error; [apply event_same|].
    destruct (insert_message _ _) eqn:Hins; [|apply event_same].
    eapply event_insert. exact Hins.
  - unfold endCall. destruct (selectedConversation c); [|apply event_same].
    destruct (user c); apply event_same.
Qed.

Lemma table_event_change tbl tbl' : table_event tbl tbl' → table_change tbl tbl'.
Proof.
  intros [| body mid | rs mid | conv uid refused | mid
          | s0 new_id now conv sender body url ty tbl1 Hins].
  - apply table_same.
  - apply table_content.
  - apply table_reactions.
  - apply table_seen.
  - apply table_delete.
  - eapply table_insert. exact Hins.
Qed.

Lemma table_event_marks tbl tbl' :
  NoDup (ids tbl) → sender_unmarked tbl → seen_once tbl → table_event tbl tbl' →
  sender_unmarked tbl' ∧ seen_once tbl'.
Proof.
  intros Hnd Hsender Honce Hev.
  assert (∀ f : Message → Message,
            (∀ x, sender_id (f x) = sender_id x ∧ seen (f x) = seen x) →
            sender_unmarked (f <$> tbl) ∧ seen_once (f <$> tbl)) as Hmap.
  { intros f Hf. split; intros m' Hin; apply list_elem_of_fmap in Hin as (m & -> & Hm);
      destruct (Hf m) as [Hf1 Hf2].
    - rewrite Hf1, Hf2. by apply Hsender.
    - rewrite Hf2. by apply Honce. }
  destruct Hev as [| body mid | rs mid | conv uid refused | mid
                   | s0 new_id now conv sender body url ty tbl1 Hins].
  - done.
  - apply (Hmap (λ x, if bool_decide (id x = mid) then with_content body x else x)).
    intros x. by destruct (bool_decide _).
  - apply (Hmap (λ x, if bool_decide (id x = mid) then with_reactions rs x else x)).
    intros x. by destruct (bool_decide _).
  - rewrite mark_seen_loop_spec by done.
    split; intros m' Hin; apply list_elem_of_fmap in Hin as (m & -> & Hm).
    + destruct (decide (mark_row conv uid refused m = m)) as [-> | Hne]; [by apply Hsender|].
      apply mark_row_changed in Hne as (Hs & Hnot & ->).
      assert (seen (with_seen_by (Some (seen m ++ [uid])) m) = seen m ++ [uid]) as -> by done.
      cbn [sender_id with_seen_by]. rewrite elem_of_app, list_elem_of_singleton.
      intros [Hin | Heq]; [by apply (Hsender m) | done].
    + apply mark_row_NoDup. by apply Honce.
  - unfold delete_eq_id. split; intros m Hin; apply list_elem_of_filter in Hin as [_ Hin];
      [by apply Hsender | by apply Honce].
  - apply insert_message_Some in Hins as [-> _].
    split; intros m Hin; apply elem_of_app in Hin as [Hin | Hin].
    + by apply Hsender.
    + apply list_elem_of_singleton in Hin. subst m. cbn. apply not_elem_of_nil.
    + by apply Honce.
    + apply list_elem_of_singleton in Hin. subst m. cbn. apply NoDup_nil_2.
Qed.

(** X17.  If the keys of the table are distinct, no row lists its own
    sender in [seen_by] and no row lists a user twice, then the same
    holds after any sequence of events of the page. *)
Theorem seen_by_well_formed (trace : list (Timestamp * Event)) (w : World) :
  NoDup (ids (messages_tbl w.2)) →
  sender_unmarked (messages_tbl w.2) → seen_once (messages_tbl w.2) →
  NoDup (ids (messages_tbl (run trace w).2)) ∧
  sender_unmarked (messages_tbl (run trace w).2) ∧
  seen_once (messages_tbl (run trace w).2).
Proof.
  revert w. unfold run. induction trace as [|[now e] trace IH]; intros w Hnd Hs Ho; [done|].
  cbn [foldl fst snd].
  pose proof (step_table_event now e w) as Hev.
  destruct (table_event_marks _ _ Hnd Hs Ho Hev) as [Hs' Ho'].
  apply IH; [|done|done].
  eapply table_change_NoDup; [exact Hnd | by apply table_event_change].
Qed.

Lemma seen_by_well_formed_witness :
  NoDup (ids (messages_tbl sample_world.2)) ∧
  sender_unmarked (messages_tbl sample_world.2) ∧ seen_once (messages_tbl sample_world.2) ∧
  sender_unmarked
    (messages_tbl
       (run [(1000, MarkMessagesAsSeen true (λ _, false)); (2000, SendMessage "m3" false)]
            sample_world).2).
Proof.
  assert (NoDup (ids (messages_tbl sample_world.2))) as Hnd.
  { apply (bool_decide_unpack _). vm_compute. exact I. }
  assert (sender_unmarked (messages_tbl sample_world.2)) as Hs.
  { intros m Hm. cbn in Hm. apply elem_of_cons in Hm as [-> | Hm].
    - apply (bool_decide_unpack _). vm_compute. exact I.
    - apply list_elem_of_singleton in Hm as ->. apply (bool_decide_unpack _).
      vm_compute. exact I. }
  assert (seen_once (messages_tbl sample_world.2)) as Ho.
  { intros m Hm. cbn in Hm. apply elem_of_cons in Hm as [-> | Hm].
    - apply (bool_decide_unpack _). vm_compute. exact I.
    - apply list_elem_of_singleton in Hm as ->. apply (bool_decide_unpack _).
      vm_compute. exact I. }
  split; [exact Hnd|]. split; [exact Hs|]. split; [exact Ho|].
  exact (proj1 (proj2 (seen_by_well_formed _ sample_world Hnd Hs Ho))).
Defined.

(** ** Starting a conversation *)

Lemma find_unique {A} (p : A → bool) (l : list A) (x : A) :
  x ∈ l → p x = true → (∀ y, y ∈ l → p y = true → y = x) → find p l = Some x.
Proof.
  intros Hin Hp Huniq. unfold find.
  destruct (List.find p l) as [y|] eqn:E.
  - apply List.find_some in E as [Hy Hpy]. f_equal. apply Huniq; [by apply list_elem_of_In | done].
  - assert (p x = false) as Hf by (apply (List.find_none _ _ E); by apply list_elem_of_In).
    congruence.
Qed.

Lemma omap_app {A B} (f : A → option B) (l k : list A) :
  omap f (l ++ k) = omap f l ++ omap f k.
Proof.
  induction l as [|a l IH]; [done|]. cbn. destruct (f a); cbn; by rewrite IH.
Qed.

Lemma find_conv_app_fresh (new_id : string) (l : list Conversation) (x : Conversation) :
  new_id ∉ conv_id <$> l → conv_id x = new_id →
  find (λ conv, bool_decide (conv_id conv = new_id)) (l ++ [x]) = Some x.
Proof.
  intros Hfresh Hx. apply find_unique.
  - apply elem_of_app. right. left.
  - by apply bool_decide_eq_true.
  - intros y Hy Hpy. apply bool_decide_eq_true in Hpy.
    apply elem_of_app in Hy as [Hy | Hy]; [|by apply list_elem_of_singleton in Hy].
    exfalso. apply Hfresh. rewrite <- Hpy. by apply list_elem_of_fmap_2.
Qed.

Lemma find_conv_other (mid : string) (l k : list Conversation) :
  find (λ conv, bool_decide (conv_id conv = mid)) l = None →
  find (λ conv, bool_decide (conv_id conv = mid)) (l ++ k)
  = find (λ conv, bool_decide (conv_id conv = mid)) k.
Proof.
  unfold find. induction l as [|a l IH]; [done|]. cbn.
  destruct (bool_decide (conv_id a = mid)); [done | exact IH].
Qed.

Lemma find_conv_old (mid : string) (l k : list Conversation) (x : Conversation) :
  find (λ conv, bool_decide (conv_id conv = mid)) l = Some x →
  find (λ conv, bool_decide (conv_id conv = mid)) (l ++ k) = Some x.
Proof.
  unfold find. induction l as [|a l IH]; [done|]. cbn.
  destruct (bool_decide (conv_id a = mid)); [done | exact IH].
Qed.

Lemma filter_none {A} (P : A → Prop) `{∀ x, Decision (P x)} (l : list A) :
  (∀ x, x ∈ l → ¬ P x) → filter P l = [].
Proof.
  intros Hno. induction l as [|a l IH]; [done|]. rewrite filter_cons.
  rewrite decide_False by (apply Hno; left). apply IH. intros x Hx. apply Hno. by right.
Qed.

Lemma NoDup_fmap_eq {A B} (f : A → B) (l : list A) (x y : A) :
  NoDup (f <$> l) → x ∈ l → y ∈ l → f x = f y → x = y.
Proof.
  intros Hnd Hx Hy Heq.
  apply list_elem_of_lookup in Hx as [i Hi]. apply list_elem_of_lookup in Hy as [j Hj].
  assert ((f <$> l) !! i = Some (f x)) as Hi' by (by rewrite list_lookup_fmap, Hi).
  assert ((f <$> l) !! j = Some (f x)) as Hj' by (by rewrite list_lookup_fmap, Hj, Heq).
  pose proof (NoDup_lookup _ _ _ _ Hnd Hi' Hj') as ->. congruence.
Qed.

Lemma fetchConversations_conversations l c :
  conversations (fetchConversations (Some l) c) = l ∧
  user (fetchConversations (Some l) c) = user c.
Proof.
  unfold fetchConversations. destruct l as [|first rest]; [done|].
  by destruct (selectedConversation c).
Qed.

(** X18.  A signed-in user starts a conversation with another user whose
    profile is in the table, all three remote calls succeeding and the
    new key being unused.  Then the new conversation is the selected one,
    it is found among the conversations of the page as a direct
    conversation whose participants are the profiles of the two users,
    and the name shown for it is the display name of the other user.  If
    the first insert fails nothing changes; if the second fails the
    conversation row is left without participants and the page is
    unchanged. *)
Theorem createConversationWithUser_selects (c : Client) (s : Server) (d : Directory)
    (uid new_id : string) (otherUser : Profile) (now : Timestamp) :
  user c = Some uid → otherUser ∈ profiles_tbl s → profile_user_id otherUser ≠ uid →
  NoDup (profile_user_id <$> profiles_tbl s) → display_name otherUser ≠ "" →
  new_id ∉ conv_id <$> conversations_tbl d →
  new_id ∉ fst <$> conversation_participants d →
  let r := createConversationWithUser otherUser new_id now false false false d s c in
  selectedConversation r.1 = Some new_id ∧
  (∃ conv,
     getCurrentConversation r.1 = Some conv ∧ conv_id conv = new_id ∧
     is_group conv = false ∧
     participants conv
     = Some (filter (λ p, profile_user_id p ∈ [uid; profile_user_id otherUser])
                    (profiles_tbl s)) ∧
     getConversationName r.1 conv = display_name otherUser) ∧
  (∀ fetchError, createConversationWithUser otherUser new_id now true false fetchError d s c
                 = (c, d)) ∧
  (∀ fetchError,
     let r' := createConversationWithUser otherUser new_id now false true fetchError d s c in
     r'.1 = c ∧ conversation_participants r'.2 = conversation_participants d ∧
     new_id ∈ conv_id <$> conversations_tbl r'.2).
Proof.
  intros Huser Hother Hne Hnd Hname Hfresh Hfreshp r. subst r.
  unfold createConversationWithUser. rewrite Huser.
  rewrite (bool_decide_eq_false_2 _ Hfresh). cbn [orb fst snd].
  set (conversation := {| conv_id := new_id;
                          name := Some ("Chat with " +:+ display_name otherUser);
                          is_group := false; conv_created_at := now;
                          participants := None |}).
  cbn [conversations_tbl conversation_participants].
  set (parts := conversation_participants d ++
                  [(new_id, uid); (new_id, profile_user_id otherUser)]).
  set (d2 := {| conversations_tbl := conversations_tbl d ++ [conversation];
                conversation_participants := parts |}).
  set (profilesData := filter (λ p, profile_user_id p ∈ [uid; profile_user_id otherUser])
                              (profiles_tbl s)).
  set (shown := {| conv_id := new_id; name := name conversation; is_group := false;
                   conv_created_at := now; participants := Some profilesData |}).
  split; [done|]. split; [|split; [done|]].
  2:{ intros fetchError. cbn. split; [done|]. split; [done|].
      rewrite fmap_app. apply elem_of_app. right. left. }
  exists shown.
  assert (∀ item : string * string, item ∈ conversation_participants d → item.1 ≠ new_id)
    as Hold.
  { intros item Hitem Heq. apply Hfreshp. rewrite <- Heq. by apply list_elem_of_fmap_2. }
  assert (snd <$> filter (λ item : string * string, item.1 = new_id) parts
          = [uid; profile_user_id otherUser]) as Hids.
  { unfold parts. rewrite filter_app, (filter_none _ _ Hold), app_nil_l.
    rewrite !filter_cons, filter_nil. cbn [fst]. by rewrite !decide_True by done. }
  set (F := λ item : string * string,
         find (λ conv, bool_decide (conv_id conv = item.1)) (conversations_tbl d2)).
  set (g := λ conv : Conversation,
         {| conv_id := conv_id conv; name := name conv; is_group := is_group conv;
            conv_created_at := conv_created_at conv;
            participants :=
              Some (filter (λ p, profile_user_id p ∈
                                 snd <$> filter (λ item : string * string,
                                                   item.1 = conv_id conv) parts)
                           (profiles_tbl s)) |}).
  assert (conversationsWithParticipants uid d2 (profiles_tbl s)
          = (g <$> omap F (filter (λ item, item.2 = uid) (conversation_participants d)))
            ++ [shown]) as HL.
  { unfold conversationsWithParticipants. fold F. cbn [conversation_participants d2].
    fold g. unfold parts at 1. rewrite filter_app, omap_app, fmap_app. f_equal.
    rewrite !filter_cons, filter_nil. cbn [snd]. rewrite decide_True by done.
    rewrite decide_False by done. cbn [omap list_omap]. unfold F at 1. cbn [fst].
    unfold d2 at 1. cbn [conversations_tbl].
    rewrite (find_conv_app_fresh new_id (conversations_tbl d) conversation Hfresh eq_refl).
    cbn [fmap list_fmap]. unfold g at 1. cbn [conv_id conversation]. rewrite Hids. done. }
  assert (find (λ conv, bool_decide (conv_id conv = new_id))
               (conversationsWithParticipants uid d2 (profiles_tbl s)) = Some shown) as Hfind.
  { rewrite HL. rewrite find_conv_other.
    - unfold find. cbn. by rewrite bool_decide_eq_true_2.
    - destruct (find _ _) as [x|] eqn:E; [|done]. exfalso.
      unfold find in E. apply List.find_some in E as [Hx Hpx].
      apply bool_decide_eq_true in Hpx. apply list_elem_of_In in Hx.
      apply list_elem_of_fmap in Hx as (y & -> & Hy).
      apply list_elem_of_omap in Hy as (item & Hitem & HF).
      apply list_elem_of_filter in Hitem as [_ Hitem].
      unfold F in HF. unfold find in HF. apply List.find_some in HF as [_ Hy].
      apply bool_decide_eq_true in Hy. cbn [conv_id g] in Hpx.
      apply (Hold item Hitem). congruence. }
  assert (find (λ p, bool_decide (Some (profile_user_id p) ≠ Some uid)) profilesData
          = Some otherUser) as Hfirst.
  { apply find_unique.
    - apply list_elem_of_filter. split; [|done]. right. left.
    - apply bool_decide_eq_true. congruence.
    - intros y Hy Hpy. apply bool_decide_eq_true in Hpy.
      apply list_elem_of_filter in Hy as [Hin Hy].
      apply elem_of_cons in Hin as [Hin | Hin]; [congruence|].
      apply list_elem_of_singleton in Hin.
      by apply (NoDup_fmap_eq profile_user_id (profiles_tbl s)). }
  unfold loadConversations. rewrite Huser.
  destruct (fetchConversations_conversations
              (conversationsWithParticipants uid d2 (profiles_tbl s)) c) as [Hconvs Huser'].
  split; [|split; [done | split; [done | split; [done|]]]].
  - unfold getCurrentConversation. cbn [selectedConversation set_selectedConversation
      conversations]. rewrite Hconvs. exact Hfind.
  - unfold getConversationName. cbn [is_group shown participants mbind option_bind
      user set_selectedConversation]. rewrite Huser', Huser, Hfirst.
    cbn [fmap option_fmap option_map]. by destruct (display_name otherUser).
Qed.

Lemma createConversationWithUser_selects_witness :
  let d := {| conversations_tbl :=
                [{| conv_id := "x"; name := Some "Friends"; is_group := true;
                    conv_created_at := 0; participants := None |}];
              conversation_participants := [("x", "alice"); ("x", "bob"); ("x", "carol")] |} in
  let r := createConversationWithUser alice "y" 5000 false false false d sample_server
             sample_client in
  NoDup (profile_user_id <$> profiles_tbl sample_server) ∧
  selectedConversation r.1 = Some "y" ∧
  conv_id <$> conversations r.1 = ["x"; "y"] ∧
  (getConversationName r.1 <$> getCurrentConversation r.1) = Some "Alice".
Proof.
  cbn zeta.
  assert (NoDup (profile_user_id <$> profiles_tbl sample_server)) as Hnd.
  { apply (bool_decide_unpack _). vm_compute. exact I. }
  split; [exact Hnd|].
  assert (alice ∈ profiles_tbl sample_server) as Hin by left.
  assert (profile_user_id alice ≠ "bob") as Hne by discriminate.
  assert (display_name alice ≠ "") as Hname by discriminate.
  assert ("y" ∉ conv_id <$>
            [{| conv_id := "x"; name := Some "Friends"; is_group := true;
                conv_created_at := 0; participants := None |}]) as Hf1.
  { intros H. apply list_elem_of_singleton in H. discriminate. }
  assert ("y" ∉ fst <$> [("x", "alice"); ("x", "bob"); ("x", "carol")]) as Hf2.
  { intros H. cbn in H. rewrite !elem_of_cons in H. rewrite elem_of_nil in H.
    destruct H as [H|[H|[H|[]]]]; discriminate. }
  destruct (createConversationWithUser_selects sample_client sample_server
              {| conversations_tbl :=
                   [{| conv_id := "x"; name := Some "Friends"; is_group := true;
                       conv_created_at := 0; participants := None |}];
                 conversation_participants :=
                   [("x", "alice"); ("x", "bob"); ("x", "carol")] |}
              "bob" "y" alice 5000 eq_refl Hin Hne Hnd Hname Hf1 Hf2)
    as (Hsel & (conv & Hcur & _ & _ & _ & Hshown) & _).
  split; [exact Hsel|]. split; [vm_compute; reflexivity|].
  rewrite Hcur. cbn [fmap option_fmap option_map]. by rewrite Hshown.
Defined.

(** ** The extension of an uploaded file *)

Lemma units_cons (a : ascii) (s : string) : units (String a s) = a :: units s.
Proof. done. Qed.

Lemma units_append (s1 s2 : string) : units (s1 +:+ s2) = units s1 ++ units s2.
Proof.
  induction s1 as [|a s1 IH]; [done|].
  change (String a s1 +:+ s2) with (String a (s1 +:+ s2)). by rewrite !units_cons, IH.
Qed.

Lemma split_pop_from_spec (s acc : string) :
  ("."%char) ∉ units acc →
  (("."%char) ∉ units (split_pop_from acc s)) ∧
  (((("."%char) ∉ units s) ∧ units (split_pop_from acc s) = rev (units acc) ++ units s) ∨
   (∃ stem, units s = stem ++ "."%char :: units (split_pop_from acc s))).
Proof.
  revert acc. induction s as [|a s IH]; intros acc Hacc.
  - cbn [split_pop_from]. rewrite units_rev. split.
    + intros Hin. apply Hacc. apply list_elem_of_In. apply list_elem_of_In in Hin.
      by apply in_rev.
    + left. split; [apply not_elem_of_nil|]. by rewrite app_nil_r.
  - cbn [split_pop_from]. case_bool_decide as Hdot.
    + subst a. destruct (IH EmptyString) as [Hno Hcases]; [apply not_elem_of_nil|].
      split; [exact Hno|]. right. destruct Hcases as [[_ Heq] | [stem Heq]].
      * exists []. rewrite units_cons, Heq. done.
      * exists ("."%char :: stem). rewrite units_cons. cbn [app]. by rewrite <- Heq.
    + destruct (IH (String a acc)) as [Hno Hcases].
      { rewrite units_cons. intros Hin. apply elem_of_cons in Hin as [Hin | Hin];
          [by apply Hdot | by apply Hacc]. }
      split; [exact Hno|]. destruct Hcases as [[Hs Heq] | [stem Heq]].
      * left. split.
        -- rewrite units_cons. intros Hin. apply elem_of_cons in Hin as [Hin | Hin];
             [by apply Hdot | by apply Hs].
        -- rewrite Heq, !units_cons. cbn [rev]. by rewrite <- app_assoc.
      * right. exists (a :: stem). rewrite units_cons. cbn [app]. by rewrite <- Heq.
Qed.

(** X19.  The extension that [uploadImage] takes from the name of a file
    holds no dot.  A name without a dot is its own extension; any other
    name is some stem, a dot, and the extension, so the extension is what
    follows the last dot of the name. *)
Theorem split_pop_after_last_dot (fileName : string) :
  (("."%char) ∉ units (split_pop fileName)) ∧
  ((("."%char) ∉ units fileName) ↔ split_pop fileName = fileName) ∧
  (("."%char) ∈ units fileName ↔
   ∃ stem, fileName = stem +:+ "." +:+ split_pop fileName).
Proof.
  destruct (split_pop_from_spec fileName EmptyString) as [Hno Hcases];
    [apply not_elem_of_nil|].
  fold (split_pop fileName) in Hno, Hcases. split; [exact Hno|].
  assert (∀ stem, units fileName = stem ++ "."%char :: units (split_pop fileName) →
                  ("."%char) ∈ units fileName) as Hdot.
  { intros stem ->. apply elem_of_app. right. left. }
  split; split.
  - intros Hs. destruct Hcases as [[_ Heq] | [stem Heq]].
    + by apply units_inj.
    + exfalso. by apply Hs, (Hdot stem).
  - intros Heq. by rewrite <- Heq.
  - intros Hin. destruct Hcases as [[Hs _] | [stem Heq]]; [done|].
    exists (String.string_of_list_ascii stem). apply units_inj.
    rewrite !units_append. unfold units at 2.
    by rewrite String.list_ascii_of_string_of_list_ascii.
  - intros [stem Heq]. apply (Hdot (units stem)).
    rewrite Heq at 1. by rewrite !units_append.
Qed.
